(** * Agromist: the hyperspectral classification notebook (test2.ipynb)

    A shallow embedding of the notebook's cells:
    - [HyperspectralDataset] (cell 2): the sample indexer [__init__], [__len__]
      and the loader/transformer [__getitem__];
    - [HyperspectralCNN] (cell 3): the shapes that flow through [forward];
    - [train_model] (cell 4): the epoch/phase/batch loop;
    - the module-level script (cells 8 and 9): dataset construction, the
      empty-dataset guard and the stratified [train_test_split].

    Python exceptions are values of [Py.result].  The file system, [np.load]
    and the random generators are explicit arguments.  The elements of a
    loaded array are numbers ([Torch.scalar]: a rational, an infinity or
    NaN); [__getitem__] converts them to float32 and computes in float32,
    with the rounding, the overflow to infinity and the NaN of IEEE 754. *)

From Stdlib Require Import List String ZArith QArith Qround Qminmax Qabs Qpower.
From Stdlib Require Import Qreduction Lia Lqa Bool Arith.
From Stdlib Require Import Permutation Sorted.
From Stdlib Require DecimalString.
Import ListNotations.
Close Scope Q_scope.

(** ** Python results *)

Module Py.

Inductive exn : Type :=
| ValueError (msg : string)
| IndexError
| ZeroDivisionError
| AttributeError (msg : string)
| RuntimeError (msg : string)
| OSError (msg : string).

Inductive result (A : Type) : Type :=
| Ok (a : A)
| Raise (e : exn).
Arguments Ok {A} a.
Arguments Raise {A} e.

Definition bind {A B} (m : result A) (k : A -> result B) : result B :=
  match m with
  | Ok a => k a
  | Raise e => Raise e
  end.

Definition returns {A} (m : result A) : Prop :=
  match m with Ok _ => True | Raise _ => False end.

Definition raises {A} (m : result A) : Prop :=
  match m with Ok _ => False | Raise _ => True end.

(** [l[idx]] for a Python list: negative indices count from the end. *)
Definition list_getitem {A} (l : list A) (idx : Z) : result A :=
  let n := Z.of_nat (List.length l) in
  let i := if (idx <? 0)%Z then (n + idx)%Z else idx in
  if ((0 <=? i) && (i <? n))%Z%bool then
    match nth_error l (Z.to_nat i) with
    | Some a => Ok a
    | None => Raise IndexError
    end
  else Raise IndexError.

(** [enumerate(l)] and [range(a, b)]. *)
Definition enumerate {A} (l : list A) : list (Z * A) :=
  combine (map Z.of_nat (seq 0 (List.length l))) l.

Definition range (a b : nat) : list nat := seq a (b - a).

End Py.

Declare Scope py_scope.
Delimit Scope py_scope with py.
Notation "x <- m ;; k" := (Py.bind m (fun x => k))
  (at level 61, m at next level, right associativity) : py_scope.
Notation "' p <- m ;; k" := (Py.bind m (fun p => k))
  (at level 61, p pattern, m at next level, right associativity) : py_scope.

(** ** N-dimensional arrays *)

Module Tensor.

(** An array is its shape and its element function; only the indices below
    the shape are meaningful. *)
Record t (A : Type) : Type := mk { shape : list nat; get : list nat -> A }.
Arguments mk {A} shape get.
Arguments shape {A} _.
Arguments get {A} _ _.

(** All indices of a shape, in row-major order. *)
Fixpoint indices (s : list nat) : list (list nat) :=
  match s with
  | [] => [[]]
  | n :: s' => flat_map (fun i => map (cons i) (indices s')) (seq 0 n)
  end.

Definition elements {A} (x : t A) : list A := map (get x) (indices (shape x)).

Definition in_range (s idx : list nat) : Prop := In idx (indices s).

Definition map_elts {A B} (f : A -> B) (x : t A) : t B :=
  mk (shape x) (fun idx => f (get x idx)).

End Tensor.

(** ** The tensor operations [__getitem__] calls

    Tensor elements are float32 numbers: a finite value (a rational that
    float32 represents), an infinity or NaN.  Every arithmetic operation
    returns the exact result rounded to the nearest float32 (ties to even),
    an infinity when that lies beyond the largest float32, and NaN where
    IEEE 754 has none (inf - inf, 0 * inf, 0 / 0, inf / inf).  The sign of
    zero is not kept: no result of [__getitem__] depends on it.

    The operations follow the library: [permute] reorders axes,
    [unsqueeze]/[squeeze] add and drop a leading axis of size 1,
    [interpolate] in bilinear mode (align_corners off) blends four cells of
    the two trailing axes with float32 weights, [min]/[max] reduce over every
    element, return NaN when one is present and refuse an empty tensor. *)

Module Torch.

(** A number of a floating-point array: finite, infinite or not-a-number. *)
Inductive scalar : Type :=
| Fin (q : Q)
| PosInf
| NegInf
| NaN.

Definition pow2 (k : Z) : Q := (2 ^ k)%Q.

(** Round to the nearest integer, ties to the even one. *)
Definition rne (x : Q) : Z :=
  let f := Qfloor x in
  match (x - inject_Z f ?= 1 # 2)%Q with
  | Lt => f
  | Gt => (f + 1)%Z
  | Eq => if Z.even f then f else (f + 1)%Z
  end.

(** [x] in units of [2^k], rounded; it fits a float32 significand when it
    has at most 24 bits. *)
Definition coefficient (k : Z) (x : Q) : Z := rne (x / pow2 k).

Definition fits (k : Z) (x : Q) : bool := (Z.abs (coefficient k x) <=? 2 ^ 24)%Z.

(** The first unit [2^k], from [k] upwards, in which [x] fits. *)
Fixpoint round_from (fuel : nat) (k : Z) (x : Q) : option Q :=
  match fuel with
  | O => None
  | S fuel' =>
      if fits k x then Some (inject_Z (coefficient k x) * pow2 k)%Q
      else round_from fuel' (k + 1) x
  end.

(** Where the search starts: the smallest float32 unit is [2^-149], and
    below [log2 |x| - 25] nothing fits. *)
Definition start_exponent (x : Q) : Z :=
  if (Qnum x =? 0)%Z then (-149)%Z
  else Z.max (-149) (Z.log2 (Z.abs (Qnum x)) - Z.log2 (Z.pos (Qden x)) - 25).

Definition overflow (x : Q) : scalar := if Qle_bool 0 x then PosInf else NegInf.

(** The float32 nearest to [x]: the finest unit from [2^-149] on that
    leaves at most 24 bits, and an infinity from [2^128] on. *)
Definition round32 (x : Q) : scalar :=
  match round_from 254 (start_exponent x) x with
  | Some r => if Qle_bool (pow2 128) (Qabs r) then overflow x else Fin (Qred r)
  | None => overflow x
  end.

(** The finest unit of [x], as the statements name it. *)
Definition least_fit (x : Q) (K : Z) : Prop :=
  (-149 <= K)%Z /\ fits K x = true
  /\ forall j, (-149 <= j < K)%Z -> fits j x = false.

(** [torch.tensor(v, dtype=torch.float32)] on one number. *)
Definition float32 (v : scalar) : scalar :=
  match v with
  | Fin q => round32 q
  | _ => v
  end.

Definition Qnat (n : nat) : Q := inject_Z (Z.of_nat n).

(** An integer converted to float32. *)
Definition of_nat (n : nat) : scalar := round32 (Qnat n).

Definition sgn (a : scalar) : Z :=
  match a with
  | Fin q => Z.sgn (Qnum q)
  | PosInf => 1
  | NegInf => (-1)
  | NaN => 0
  end.

Definition signed_inf (s : Z) : scalar :=
  match s with
  | Z0 => NaN
  | Zpos _ => PosInf
  | Zneg _ => NegInf
  end.

Definition neg (a : scalar) : scalar :=
  match a with
  | Fin q => Fin (- q)
  | PosInf => NegInf
  | NegInf => PosInf
  | NaN => NaN
  end.

Definition add (a b : scalar) : scalar :=
  match a, b with
  | NaN, _ | _, NaN => NaN
  | Fin x, Fin y => round32 (x + y)
  | PosInf, NegInf | NegInf, PosInf => NaN
  | PosInf, _ | _, PosInf => PosInf
  | NegInf, _ | _, NegInf => NegInf
  end.

Definition sub (a b : scalar) : scalar := add a (neg b).

Definition mul (a b : scalar) : scalar :=
  match a, b with
  | NaN, _ | _, NaN => NaN
  | Fin x, Fin y => round32 (x * y)
  | _, _ => signed_inf (sgn a * sgn b)
  end.

(** [a / b]: a zero divisor gives NaN for [0 / 0] and an infinity
    otherwise; nothing is raised. *)
Definition div (a b : scalar) : scalar :=
  match a, b with
  | NaN, _ | _, NaN => NaN
  | Fin x, Fin y => if Qeq_bool y 0 then signed_inf (sgn a) else round32 (x / y)
  | Fin _, _ => Fin 0
  | _, Fin y => signed_inf (sgn a * (if Qle_bool 0 y then 1 else -1))
  | _, _ => NaN
  end.

(** [a < b]; false when either is NaN. *)
Definition lt (a b : scalar) : bool :=
  match a, b with
  | NaN, _ | _, NaN => false
  | Fin x, Fin y => match (x ?= y)%Q with Lt => true | _ => false end
  | NegInf, NegInf => false
  | NegInf, _ => true
  | _, NegInf => false
  | PosInf, _ => false
  | Fin _, PosInf => true
  end.

Definition min2 (a b : scalar) : scalar :=
  match a, b with
  | NaN, _ | _, NaN => NaN
  | _, _ => if lt b a then b else a
  end.

Definition max2 (a b : scalar) : scalar :=
  match a, b with
  | NaN, _ | _, NaN => NaN
  | _, _ => if lt a b then b else a
  end.

(** [torch.isfinite] on one number. *)
Definition is_finite (v : scalar) : bool :=
  match v with
  | Fin _ => true
  | _ => false
  end.

(** A number that is at least [lo] (at most [hi]); NaN is neither. *)
Definition at_least (lo : Q) (v : scalar) : Prop :=
  match v with
  | Fin q => (lo <= q)%Q
  | PosInf => True
  | _ => False
  end.

Definition at_most (hi : Q) (v : scalar) : Prop :=
  match v with
  | Fin q => (q <= hi)%Q
  | NegInf => True
  | _ => False
  end.

Definition in_unit_interval (v : scalar) : Prop :=
  match v with
  | Fin q => (0 <= q /\ q <= 1)%Q
  | _ => False
  end.

(** Position of [j] in [dims] (the rank when absent). *)
Fixpoint index_of (j : nat) (dims : list nat) : nat :=
  match dims with
  | [] => 0
  | d :: ds => if Nat.eqb d j then 0 else S (index_of j ds)
  end.

Definition is_axis_permutation (rank : nat) (dims : list nat) : bool :=
  Nat.eqb (List.length dims) rank
  && forallb (fun j => existsb (Nat.eqb j) dims) (seq 0 rank).

(** [x.permute(dims)]: axis [k] of the result is axis [dims[k]] of [x]. *)
Definition permute {A} (dims : list nat) (x : Tensor.t A) : Py.result (Tensor.t A) :=
  let s := Tensor.shape x in
  if is_axis_permutation (List.length s) dims then
    Py.Ok (Tensor.mk (map (fun d => nth d s 0) dims)
             (fun idx => Tensor.get x
                (map (fun j => nth (index_of j dims) idx 0) (seq 0 (List.length s)))))
  else Py.Raise (Py.RuntimeError "permute: dims do not match the tensor's rank").

(** [x.unsqueeze(0)] and [x.squeeze(0)]. *)
Definition unsqueeze0 {A} (x : Tensor.t A) : Tensor.t A :=
  Tensor.mk (1 :: Tensor.shape x) (fun idx => Tensor.get x (tl idx)).

Definition squeeze0 {A} (x : Tensor.t A) : Tensor.t A :=
  match Tensor.shape x with
  | 1 :: s => Tensor.mk s (fun idx => Tensor.get x (0 :: idx))
  | _ => x
  end.

(** Source coordinate of output position [dst] along one axis, in
    float32: [scale * (dst + 0.5) - 0.5] with [scale = in_size / out_size],
    and 0 where that is negative. *)
Definition source_index (in_size out_size dst : nat) : scalar :=
  let scale := div (of_nat in_size) (of_nat out_size) in
  let src := sub (mul scale (add (of_nat dst) (Fin (1 # 2)))) (Fin (1 # 2)) in
  if lt src (Fin 0) then Fin 0 else src.

(** [floor] of a coordinate as an index. *)
Definition floor_index (v : scalar) : nat :=
  match v with
  | Fin q => Z.to_nat (Qfloor q)
  | _ => 0
  end.

(** [min(max(v, 0), 1)]. *)
Definition clamp01 (v : scalar) : scalar :=
  let w := if lt v (Fin 0) then Fin 0 else v in
  if lt (Fin 1) w then Fin 1 else w.

(** The two source cells an output position reads and their weights.  Equal
    sizes copy: both cells are the position itself, with weights 1 and 0. *)
Record cell : Type := { i0 : nat; i1 : nat; lambda0 : scalar; lambda1 : scalar }.

Definition source_cell (in_size out_size dst : nat) : cell :=
  if Nat.eqb out_size in_size then
    {| i0 := dst; i1 := dst; lambda0 := Fin 1; lambda1 := Fin 0 |}
  else
    let src := source_index in_size out_size dst in
    let lo := Nat.min (floor_index src) (in_size - 1) in
    let hi := lo + (if lo <? in_size - 1 then 1 else 0) in
    let l1 := clamp01 (sub src (of_nat lo)) in
    {| i0 := lo; i1 := hi; lambda0 := sub (Fin 1) l1; lambda1 := l1 |}.

(** [nn.functional.interpolate(x, size=(oh, ow), mode='bilinear')] on a
    float32 tensor. *)
Definition interpolate_bilinear (x : Tensor.t scalar) (oh ow : nat)
    : Py.result (Tensor.t scalar) :=
  match Tensor.shape x with
  | [n; c; h; w] =>
      if Nat.eqb (c * h * w) 0 then
        Py.Raise (Py.RuntimeError "Non-empty 4D data tensor expected")
      else if Nat.eqb oh 0 || Nat.eqb ow 0 then
        Py.Raise (Py.RuntimeError "Input and output sizes should be greater than 0")
      else
        Py.Ok (Tensor.mk [n; c; oh; ow]
          (fun idx =>
             match idx with
             | [b; k; y; z] =>
                 let cy := source_cell h oh y in
                 let cz := source_cell w ow z in
                 add (mul (lambda0 cy)
                        (add (mul (lambda0 cz) (Tensor.get x [b; k; i0 cy; i0 cz]))
                             (mul (lambda1 cz) (Tensor.get x [b; k; i0 cy; i1 cz]))))
                     (mul (lambda1 cy)
                        (add (mul (lambda0 cz) (Tensor.get x [b; k; i1 cy; i0 cz]))
                             (mul (lambda1 cz) (Tensor.get x [b; k; i1 cy; i1 cz]))))
             | _ => Fin 0
             end))
  | _ => Py.Raise (Py.ValueError "bilinear mode needs a 4D input")
  end.

(** [x.min()] and [x.max()] over all elements. *)
Definition min (x : Tensor.t scalar) : Py.result scalar :=
  match Tensor.elements x with
  | [] => Py.Raise (Py.RuntimeError "min(): cannot reduce an empty tensor")
  | a :: l => Py.Ok (fold_left min2 l a)
  end.

Definition max (x : Tensor.t scalar) : Py.result scalar :=
  match Tensor.elements x with
  | [] => Py.Raise (Py.RuntimeError "max(): cannot reduce an empty tensor")
  | a :: l => Py.Ok (fold_left max2 l a)
  end.

End Torch.

(** ** The environment: [os.path] and [np.load] *)

Record Env : Type := {
  path_join : string -> string -> string;      (* os.path.join(a, b) *)
  path_exists : string -> bool;                (* os.path.exists(p) *)
  np_load : string -> Py.result (Tensor.t Torch.scalar)   (* np.load(p) *)
}.

(** ** Cell 2: HyperspectralDataset *)

Definition class_labels : list string :=
  ["canola"; "soybean"; "sugarbeet"; "kochia";
   "common_ragweed"; "common_waterhemp"; "redroot_pigweed"]%string.

(** [str(i)] for a non-negative integer. *)
Definition str_of_nat (i : nat) : string := DecimalString.NilEmpty.string_of_uint (Nat.to_uint i).

(** The f-string [f"{label}_{i}.npy"]. *)
Definition sample_name (label : string) (i : nat) : string :=
  (label ++ "_" ++ str_of_nat i ++ ".npy")%string.

(** The object's attributes.  The [transform] argument is stored and never
    read by any method, so it is left out. *)
Record HyperspectralDataset : Type := {
  data_dir : string;
  file_paths : list string;
  labels : list Z
}.

(** The body of the inner loop: probe one file, append on success. *)
Definition probe (env : Env) (dir : string) (label_idx : Z) (label : string)
    (self : list string * list Z) (i : nat) : list string * list Z :=
  let file_path := path_join env dir (sample_name label i) in
  if path_exists env file_path
  then (fst self ++ [file_path], snd self ++ [label_idx])
  else self.

(** The body of the outer loop: [for i in range(1, 21)]. *)
Definition probe_class (env : Env) (dir : string)
    (self : list string * list Z) (e : Z * string) : list string * list Z :=
  fold_left (probe env dir (fst e) (snd e)) (Py.range 1 21) self.

Definition HyperspectralDataset_init (env : Env) (dir : string) : HyperspectralDataset :=
  let self := fold_left (probe_class env dir) (Py.enumerate class_labels) ([], []) in
  {| data_dir := dir; file_paths := fst self; labels := snd self |}.

Definition HyperspectralDataset_len (self : HyperspectralDataset) : nat :=
  List.length (file_paths self).

(** The indexer as the specification words it: every candidate
    [{class_name}_{i}.npy], classes in declared order and [i] from 1 to 20,
    keeping those that exist. *)
Definition candidates (env : Env) (dir : string) : list (string * Z) :=
  flat_map
    (fun e : Z * string =>
       map (fun i => (path_join env dir (sample_name (snd e) i), fst e)) (seq 1 20))
    (Py.enumerate class_labels).

Definition indexed_samples (env : Env) (dir : string) : list (string * Z) :=
  filter (fun e => path_exists env (fst e)) (candidates env dir).


Local Open Scope py_scope.

(** The resize step of [__getitem__]: to float32, channel-first, then
    32 x 32. *)
Definition resize (raw : Tensor.t Torch.scalar) : Py.result (Tensor.t Torch.scalar) :=
  cube <- Torch.permute [2; 0; 1] (Tensor.map_elts Torch.float32 raw) ;;
  cube <- Torch.interpolate_bilinear (Torch.unsqueeze0 cube) 32 32 ;;
  Py.Ok (Torch.squeeze0 cube).

(** The normalization step:
    [(cube - cube.min()) / (cube.max() - cube.min())]. *)
Definition normalize (cube : Tensor.t Torch.scalar) : Py.result (Tensor.t Torch.scalar) :=
  lo <- Torch.min cube ;;
  hi <- Torch.max cube ;;
  lo' <- Torch.min cube ;;
  Py.Ok (Tensor.map_elts (fun v => Torch.div (Torch.sub v lo) (Torch.sub hi lo')) cube).

(** The divisor of the normalization step. *)
Definition normalize_divisor (cube : Tensor.t Torch.scalar) : Py.result Torch.scalar :=
  hi <- Torch.max cube ;;
  lo <- Torch.min cube ;;
  Py.Ok (Torch.sub hi lo).

Definition HyperspectralDataset_getitem (env : Env) (self : HyperspectralDataset)
    (idx : Z) : Py.result (Tensor.t Torch.scalar * Z) :=
  path <- Py.list_getitem (file_paths self) idx ;;
  raw <- np_load env path ;;
  cube <- resize raw ;;
  cube <- normalize cube ;;
  label <- Py.list_getitem (labels self) idx ;;
  Py.Ok (cube, label).

(** ** Cell 3: HyperspectralCNN, the shapes through [forward] *)

(** Sizes are binary naturals ([N]): the feature counts are large. *)

Module nn.

Local Open Scope N_scope.

Record Conv3d : Type := {
  in_channels : N;
  out_channels : N;
  kernel_size : N * N * N;
  stride : N
}.

Record MaxPool3d : Type := { pool_kernel : N * N * N }.

Record Linear : Type := { in_features : N; out_features : N }.

(** One spatial axis of a convolution without padding or dilation. *)
Definition conv_out (size k s : N) : Py.result N :=
  if size <? k then
    Py.Raise (Py.RuntimeError "Kernel size can't be greater than actual input size")
  else Py.Ok ((size - k) / s + 1).

(** One spatial axis of a pooling layer; the stride defaults to the window. *)
Definition pool_out (size k : N) : Py.result N :=
  if size <? k then Py.Raise (Py.RuntimeError "Output size is too small")
  else Py.Ok ((size - k) / k + 1).

Definition conv3d_spatial (l : Conv3d) (d h w : N) : Py.result (list N) :=
  let '(kd, kh, kw) := kernel_size l in
  d' <- conv_out d kd (stride l) ;;
  h' <- conv_out h kh (stride l) ;;
  w' <- conv_out w kw (stride l) ;;
  Py.Ok [d'; h'; w'].

(** Shape of [conv(x)]: batched (N, C, D, H, W) or unbatched (C, D, H, W). *)
Definition conv3d_shape (l : Conv3d) (s : list N) : Py.result (list N) :=
  match s with
  | [b; c; d; h; w] =>
      if N.eqb c (in_channels l) then
        sp <- conv3d_spatial l d h w ;; Py.Ok (b :: out_channels l :: sp)
      else Py.Raise (Py.RuntimeError "conv3d: wrong number of input channels")
  | [c; d; h; w] =>
      if N.eqb c (in_channels l) then
        sp <- conv3d_spatial l d h w ;; Py.Ok (out_channels l :: sp)
      else Py.Raise (Py.RuntimeError "conv3d: wrong number of input channels")
  | _ => Py.Raise (Py.RuntimeError "conv3d: expected 4D or 5D input")
  end.

Definition pool3d_spatial (l : MaxPool3d) (d h w : N) : Py.result (list N) :=
  let '(kd, kh, kw) := pool_kernel l in
  d' <- pool_out d kd ;;
  h' <- pool_out h kh ;;
  w' <- pool_out w kw ;;
  Py.Ok [d'; h'; w'].

Definition maxpool3d_shape (l : MaxPool3d) (s : list N) : Py.result (list N) :=
  match s with
  | [b; c; d; h; w] => sp <- pool3d_spatial l d h w ;; Py.Ok (b :: c :: sp)
  | [c; d; h; w] => sp <- pool3d_spatial l d h w ;; Py.Ok (c :: sp)
  | _ => Py.Raise (Py.RuntimeError "max_pool3d: expected 4D or 5D input")
  end.

(** [torch.flatten(x, 1)]: the axes from 1 on become one. *)
Definition flatten1_shape (s : list N) : Py.result (list N) :=
  match s with
  | b :: (_ :: _) as rest => Py.Ok [b; fold_right N.mul 1 rest]
  | _ => Py.Raise (Py.RuntimeError "flatten: start_dim out of range")
  end.

(** A linear layer maps (.., in_features) to (.., out_features). *)
Definition linear_shape (l : Linear) (s : list N) : Py.result (list N) :=
  match rev s with
  | f :: front =>
      if N.eqb f (in_features l) then Py.Ok (rev front ++ [out_features l])
      else Py.Raise (Py.RuntimeError "mat1 and mat2 shapes cannot be multiplied")
  | [] => Py.Raise (Py.RuntimeError "linear: input has no feature axis")
  end.

(** [x.unsqueeze(1)]. *)
Definition unsqueeze1_shape (s : list N) : Py.result (list N) :=
  match s with
  | b :: rest => Py.Ok (b :: 1 :: rest)
  | [] => Py.Raise Py.IndexError
  end.

Local Close Scope N_scope.

End nn.

Record HyperspectralCNN : Type := {
  conv1 : nn.Conv3d;
  pool1 : nn.MaxPool3d;
  conv2 : nn.Conv3d;
  fc1 : nn.Linear;
  fc2 : nn.Linear
}.

(** The size given to [fc1], as written in the source. *)
Definition fc1_in_features : N := (64 * 15 * 15 * 53)%N.

Definition HyperspectralCNN_init (num_classes : N) : HyperspectralCNN := {|
  conv1 := {| nn.in_channels := 1%N; nn.out_channels := 32%N;
              nn.kernel_size := (3, 3, 10)%N; nn.stride := 1%N |};
  pool1 := {| nn.pool_kernel := (2, 2, 2)%N |};
  conv2 := {| nn.in_channels := 32%N; nn.out_channels := 64%N;
              nn.kernel_size := (3, 3, 10)%N; nn.stride := 1%N |};
  fc1 := {| nn.in_features := fc1_in_features; nn.out_features := 128%N |};
  fc2 := {| nn.in_features := 128%N; nn.out_features := num_classes |}
|}.

(** The shape of [x] after [torch.flatten(x, 1)] in [forward]; ReLU keeps
    shapes. *)
Definition flattened_shape (self : HyperspectralCNN) (x : list N) : Py.result (list N) :=
  x <- nn.unsqueeze1_shape x ;;
  x <- nn.conv3d_shape (conv1 self) x ;;
  x <- nn.maxpool3d_shape (pool1 self) x ;;
  x <- nn.conv3d_shape (conv2 self) x ;;
  nn.flatten1_shape x.

(** The shape [forward] returns; dropout keeps shapes. *)
Definition forward_shape (self : HyperspectralCNN) (x : list N) : Py.result (list N) :=
  x <- flattened_shape self x ;;
  x <- nn.linear_shape (fc1 self) x ;;
  nn.linear_shape (fc2 self) x.

(** The flattened feature count derived from the layers, for a batch of
    cubes of shape (bands, 32, 32). *)
Definition derived_features (bands : N) : Py.result N :=
  s <- flattened_shape (HyperspectralCNN_init 7) [1; bands; 32; 32]%N ;;
  Py.Ok (nth 1 s 0%N).

(** ** Cell 4: train_model

    The deep-learning framework is an interface: what the model, the loss,
    automatic differentiation and the optimizer compute is left open, how
    [train_model] drives them is not.  Printing is left out. *)

Record Framework : Type := {
  weights : Type;            (* the values of the model's parameters *)
  gradients : Type;          (* their [.grad] fields *)
  optim_state : Type;        (* what the optimizer keeps between steps *)
  generator : Type;          (* the random generator dropout draws from *)
  batch : Type;              (* one (inputs, labels) pair of a loader *)
  logits : Type;
  batch_size : batch -> nat;                                    (* inputs.size(0) *)
  model_call : bool -> weights -> generator -> batch -> logits * generator;
                                                                (* model(inputs) *)
  criterion : logits -> batch -> Q;                             (* loss.item() *)
  count_correct : logits -> batch -> Z;       (* torch.sum(preds == labels.data) *)
  zero_grad : gradients -> gradients;                   (* optimizer.zero_grad() *)
  backward : weights -> generator -> batch -> gradients -> gradients;
                                                               (* loss.backward() *)
  optimizer_step : optim_state -> weights -> gradients -> weights * optim_state
                                                               (* optimizer.step() *)
}.

Inductive phase : Type := Train | Val.

Definition phase_eqb (a b : phase) : bool :=
  match a, b with
  | Train, Train | Val, Val => true
  | _, _ => false
  end.

(** What [train_model] can mutate through [model] and [optimizer]. *)
Record state (F : Framework) : Type := {
  params : weights F;
  grads : gradients F;
  opt : optim_state F;
  training : bool;           (* set by model.train() / model.eval() *)
  gen : generator F
}.
Arguments params {F} _.
Arguments grads {F} _.
Arguments opt {F} _.
Arguments training {F} _.
Arguments gen {F} _.

(** A loader: the size of its dataset and the batches it yields when it is
    iterated in a given epoch. *)
Record DataLoader (F : Framework) : Type := {
  dataset_len : nat;
  batches : nat -> list (batch F)
}.
Arguments dataset_len {F} _.
Arguments batches {F} _ _.

(** [running_corrects] starts as the Python integer 0 and becomes a tensor
    with the first [+=]. *)
Inductive corrects : Type :=
| PyInt (n : Z)
| LongTensor (n : Z).

Definition corrects_value (c : corrects) : Z :=
  match c with PyInt n | LongTensor n => n end.

(** [running_corrects += torch.sum(..)]. *)
Definition corrects_add (c : corrects) (n : Z) : corrects :=
  LongTensor (corrects_value c + n).

(** [running_corrects.double()]: integers have no such method. *)
Definition corrects_double (c : corrects) : Py.result Q :=
  match c with
  | PyInt _ => Py.Raise (Py.AttributeError "'int' object has no attribute 'double'")
  | LongTensor n => Py.Ok (inject_Z n)
  end.

(** [x / n] on a Python float and an integer. *)
Definition float_div (x : Q) (n : nat) : Py.result Q :=
  if Nat.eqb n 0 then Py.Raise Py.ZeroDivisionError
  else Py.Ok (x / Torch.Qnat n)%Q.

Definition set_training {F} (b : bool) (s : state F) : state F :=
  {| params := params s; grads := grads s; opt := opt s; training := b; gen := gen s |}.

(** The body of the batch loop. *)
Definition batch_step {F} (ph : phase) (acc : state F * Q * corrects) (b : batch F)
    : state F * Q * corrects :=
  let '(s, running_loss, running_corrects) := acc in
  let g := zero_grad F (grads s) in
  let '(outputs, r) := model_call F (training s) (params s) (gen s) b in
  let loss := criterion F outputs b in
  let s' :=
    if phase_eqb ph Train then
      let g' := backward F (params s) (gen s) b g in
      let '(w, o) := optimizer_step F (opt s) (params s) g' in
      {| params := w; grads := g'; opt := o; training := training s; gen := r |}
    else
      {| params := params s; grads := g; opt := opt s; training := training s; gen := r |}
  in
  (s', (running_loss + loss * Torch.Qnat (batch_size F b))%Q,
   corrects_add running_corrects (count_correct F outputs b)).

(** One phase of one epoch: the batch loop, then the two epoch metrics. *)
Definition run_phase {F} (ph : phase) (s : state F) (loader : DataLoader F) (epoch : nat)
    : Py.result (state F * Q * Q) :=
  let s := set_training (phase_eqb ph Train) s in
  let '(s, running_loss, running_corrects) :=
    fold_left (batch_step ph) (batches loader epoch) (s, 0%Q, PyInt 0) in
  epoch_loss <- float_div running_loss (dataset_len loader) ;;
  c <- corrects_double running_corrects ;;
  let epoch_acc := (c / Torch.Qnat (dataset_len loader))%Q in
  Py.Ok (s, epoch_loss, epoch_acc).

(** The body of [for phase in ['train', 'val']]. *)
Definition phase_step {F} (dataloaders : phase -> DataLoader F) (epoch : nat)
    (acc : Py.result (state F * list Q * list Q)) (ph : phase)
    : Py.result (state F * list Q * list Q) :=
  '(s, train_loss, val_acc) <- acc ;;
  '(s, epoch_loss, epoch_acc) <- run_phase ph s (dataloaders ph) epoch ;;
  if phase_eqb ph Train
  then Py.Ok (s, train_loss ++ [epoch_loss], val_acc)
  else Py.Ok (s, train_loss, val_acc ++ [epoch_acc]).

(** The body of [for epoch in range(num_epochs)]. *)
Definition epoch_step {F} (dataloaders : phase -> DataLoader F)
    (acc : Py.result (state F * list Q * list Q)) (epoch : nat)
    : Py.result (state F * list Q * list Q) :=
  fold_left (phase_step dataloaders epoch) [Train; Val] acc.

Definition train_model {F} (model : state F) (dataloaders : phase -> DataLoader F)
    (num_epochs : nat) : Py.result (state F * list Q * list Q) :=
  fold_left (epoch_step dataloaders) (Py.range 0 num_epochs) (Py.Ok (model, [], [])).

(** *** The epoch metrics as the specification words them *)

(** The model state after one batch of a phase. *)
Definition after_batch {F} (ph : phase) (s : state F) (b : batch F) : state F :=
  fst (fst (batch_step ph (s, 0%Q, PyInt 0) b)).

(** Loss, size and correct count of each batch of a phase, in order, each
    computed with the model as it stands when the batch is reached. *)
Fixpoint batch_records {F} (ph : phase) (s : state F) (bs : list (batch F))
    : list (Q * nat * Z) :=
  match bs with
  | [] => []
  | b :: bs' =>
      let outputs := fst (model_call F (training s) (params s) (gen s) b) in
      (criterion F outputs b, batch_size F b, count_correct F outputs b)
        :: batch_records ph (after_batch ph s b) bs'
  end.

(** The running loss: each batch's loss scaled by its batch size, summed. *)
Definition scaled_loss_sum (rs : list (Q * nat * Z)) : Q :=
  fold_right (fun r acc => (fst (fst r) * Torch.Qnat (snd (fst r)) + acc)%Q) 0%Q rs.

(** The running correct count. *)
Definition correct_sum (rs : list (Q * nat * Z)) : Z :=
  fold_right (fun r acc => (snd r + acc)%Z) 0%Z rs.

(** The model state when a phase ends. *)
Definition after_phase {F} (ph : phase) (s : state F) (loader : DataLoader F) (epoch : nat)
    : state F :=
  fold_left (after_batch ph) (batches loader epoch) (set_training (phase_eqb ph Train) s).

(** The model state when epoch [e] starts. *)
Fixpoint epoch_start {F} (model : state F) (dataloaders : phase -> DataLoader F) (e : nat)
    : state F :=
  match e with
  | O => model
  | S e' =>
      after_phase Val
        (after_phase Train (epoch_start model dataloaders e') (dataloaders Train) e')
        (dataloaders Val) e'
  end.

Definition epoch_loss_of {F} (ph : phase) (s : state F) (loader : DataLoader F) (epoch : nat) : Q :=
  (scaled_loss_sum (batch_records ph (set_training (phase_eqb ph Train) s) (batches loader epoch))
   / Torch.Qnat (dataset_len loader))%Q.

Definition epoch_acc_of {F} (ph : phase) (s : state F) (loader : DataLoader F) (epoch : nat) : Q :=
  (inject_Z (correct_sum (batch_records ph (set_training (phase_eqb ph Train) s) (batches loader epoch)))
   / Torch.Qnat (dataset_len loader))%Q.

(** ** Cell 9: the stratified split

    [train_test_split] is scikit-learn's; what follows is its path for a
    float [test_size], no [train_size], [shuffle=True] and a [stratify]
    array: the size validation, then one draw of StratifiedShuffleSplit.
    Proportions are exact rationals.  The random generator is an interface. *)

Module Sklearn.

Record RandomGen : Type := {
  rng : Type;
  RandomState : Z -> rng;                              (* np.random.RandomState(seed) *)
  permutation : rng -> list nat -> list nat * rng;     (* rng.permutation(x) *)
  choice : rng -> list nat -> nat -> list nat * rng    (* rng.choice(x, size, replace=False) *)
}.

(** What the library promises of a generator: a permutation is one, and a
    choice without replacement draws [size] distinct members. *)
Record RandomGen_ok (G : RandomGen) : Prop := {
  permutation_ok : forall r l, Permutation l (fst (permutation G r l));
  choice_ok : forall r l k, k <= List.length l -> NoDup l ->
    List.length (fst (choice G r l k)) = k
    /\ NoDup (fst (choice G r l k))
    /\ incl (fst (choice G r l k)) l
}.

(** [check_random_state]: the process-wide generator for [None], a fresh
    generator for a seed. *)
Definition check_random_state (G : RandomGen) (random_state : option Z) (global : rng G)
    : rng G :=
  match random_state with
  | None => global
  | Some s => RandomState G s
  end.

(** [np.unique]: the distinct values, ascending. *)
Fixpoint insert_unique (x : Z) (l : list Z) : list Z :=
  match l with
  | [] => [x]
  | y :: t =>
      if (x <? y)%Z then x :: l
      else if (x =? y)%Z then l
      else y :: insert_unique x t
  end.

Definition unique (l : list Z) : list Z := fold_right insert_unique [] l.

Definition sum (l : list nat) : nat := fold_right Nat.add 0 l.

(** How often [v] occurs in [a] (one entry of [np.bincount]). *)
Definition count_eq (a : list Z) (v : Z) : nat :=
  List.length (filter (fun z => (z =? v)%Z) a).

(** [np.where(a == v)]. *)
Definition where_eq (a : list Z) (v : Z) : list nat :=
  filter (fun i => (nth i a 0 =? v)%Z) (seq 0 (List.length a)).

(** [a[inds] += 1] with an index array: each named position once. *)
Definition increment_at (inds : list nat) (a : list nat) : list nat :=
  map (fun p => if existsb (Nat.eqb (fst p)) inds then S (snd p) else snd p)
      (combine (seq 0 (List.length a)) a).

(** A Python [float] is a binary64 number: [float64 x] is the nearest number
    with 53 significant bits, ties to even, for the magnitudes that occur
    here (neither subnormal nor overflowing). *)
Definition fits64 (k : Z) (x : Q) : bool := (Z.abs (Torch.coefficient k x) <=? 2 ^ 53)%Z.

Fixpoint round64_from (fuel : nat) (k : Z) (x : Q) : Q :=
  match fuel with
  | O => (inject_Z (Torch.coefficient k x) * Torch.pow2 k)%Q
  | S fuel' =>
      if fits64 k x then (inject_Z (Torch.coefficient k x) * Torch.pow2 k)%Q
      else round64_from fuel' (k + 1) x
  end.

Definition float64 (x : Q) : Q :=
  if (Qnum x =? 0)%Z then 0%Q
  else round64_from 4 (Z.log2 (Z.abs (Qnum x)) - Z.log2 (Z.pos (Qden x)) - 54) x.

(** [ceil(test_size * n_samples)] as the library evaluates it, on the
    binary64 number nearest to the written [test_size] and with the product
    rounded to binary64. *)
Definition n_test_float64 (n_samples : nat) (test_size : Q) : nat :=
  Z.to_nat (Qceiling (float64 (float64 test_size * Torch.Qnat n_samples))).

(** [_validate_shuffle_split] for a float [test_size] and no [train_size].
    [test_size] is the fraction as it is written in the call, and the
    ceiling is taken of the exact product.  The library takes it of the
    binary64 product [n_test_float64], which can be one more (8 instead of 7
    for 0.07 of 100 samples); for the script's 0.2 the two agree on every
    number of samples the 140 candidates allow, see [n_test_of_script]. *)
Definition validate_shuffle_split (n_samples : nat) (test_size : Q) : Py.result (nat * nat) :=
  if negb (Qle_bool test_size 0) && negb (Qle_bool 1 test_size) then
    let n_test := Z.to_nat (Qceiling (test_size * Torch.Qnat n_samples)) in
    let n_train := n_samples - n_test in
    if Nat.eqb n_train 0 then
      Py.Raise (Py.ValueError "the resulting train set will be empty")
    else Py.Ok (n_train, n_test)
  else Py.Raise (Py.ValueError "test_size should be a float in the (0, 1) range").

(** One round of the tie-breaking loop of [_approximate_mode]; the loop is
    left once nothing remains to be added. *)
Definition add_round (G : RandomGen) (remainder : list Z)
    (acc : list nat * nat * rng G) (value : Z) : list nat * nat * rng G :=
  let '(floored, need_to_add, r) := acc in
  if Nat.eqb need_to_add 0 then acc
  else
    let inds := where_eq remainder value in
    let add_now := Nat.min (List.length inds) need_to_add in
    let '(inds, r) := choice G r inds add_now in
    (increment_at inds floored, need_to_add - add_now, r).

(** [_approximate_mode(class_counts, n_draws, rng)].  With
    [total = class_counts.sum()], class [i] gets the floor of
    [class_counts[i] * n_draws / total]; the remainders are compared through
    [class_counts[i] * n_draws mod total], their common multiple by [total]. *)
Definition approximate_mode (G : RandomGen) (class_counts : list nat) (n_draws : nat)
    (r : rng G) : list nat * rng G :=
  let total := sum class_counts in
  let floored := map (fun c => c * n_draws / total) class_counts in
  let need_to_add := n_draws - sum floored in
  if 0 <? need_to_add then
    let remainder := map (fun c => Z.of_nat ((c * n_draws) mod total)) class_counts in
    let values := rev (unique remainder) in
    let '(floored, _, r) := fold_left (add_round G remainder) values (floored, need_to_add, r) in
    (floored, r)
  else (floored, r).

(** [a.take(p, mode='clip')]. *)
Definition take_clip (a : list nat) (p : list nat) : list nat :=
  map (fun i => nth (Nat.min i (List.length a - 1)) a 0) p.

(** The Python slice [l[a:b]]. *)
Definition slice {A} (l : list A) (a b : nat) : list A := firstn (b - a) (skipn a l).

(** The body of the per-class loop of [_iter_indices]. *)
Definition split_class (G : RandomGen)
    (acc : list nat * list nat * rng G) (c : list nat * nat * nat * nat)
    : list nat * list nat * rng G :=
  let '(train, test, r) := acc in
  let '(class_indices_i, class_counts_i, n_i, t_i) := c in
  let '(perm, r) := permutation G r (seq 0 class_counts_i) in
  let perm_indices_class_i := take_clip class_indices_i perm in
  ((train ++ slice perm_indices_class_i 0 n_i)%list,
   (test ++ slice perm_indices_class_i n_i (n_i + t_i))%list,
   r).

(** StratifiedShuffleSplit's one draw: train and test indices. *)
Definition stratified_shuffle_split (G : RandomGen) (n_train n_test : nat) (y : list Z)
    (r : rng G) : Py.result (list nat * list nat * rng G) :=
  let n_samples := List.length y in
  if negb ((0 <? n_test) && (n_test <? n_samples) && (0 <? n_train) && (n_train <? n_samples)
           && (n_train + n_test <=? n_samples)) then
    Py.Raise (Py.ValueError "test_size or train_size out of range")
  else
  let classes := unique y in
  let n_classes := List.length classes in
  let class_counts := map (count_eq y) classes in
  if existsb (fun c => c <? 2) class_counts then
    Py.Raise (Py.ValueError
      "The least populated class in y has only 1 member, which is too few.")
  else if n_train <? n_classes then
    Py.Raise (Py.ValueError
      "The train_size should be greater or equal to the number of classes")
  else if n_test <? n_classes then
    Py.Raise (Py.ValueError
      "The test_size should be greater or equal to the number of classes")
  else
    let class_indices := map (where_eq y) classes in
    let '(n_i, r) := approximate_mode G class_counts n_train r in
    let class_counts_remaining := map (fun p => fst p - snd p) (combine class_counts n_i) in
    let '(t_i, r) := approximate_mode G class_counts_remaining n_test r in
    let '(train, test, r) :=
      fold_left (split_class G)
        (combine (combine (combine class_indices class_counts) n_i) t_i) ([], [], r) in
    let '(train, r) := permutation G r train in
    let '(test, r) := permutation G r test in
    Py.Ok (train, test, r).

(** [train_test_split(np.arange(n), test_size, stratify, random_state)]:
    the two index arrays, and the process-wide generator afterwards. *)
Definition train_test_split (G : RandomGen) (n : nat) (test_size : Q) (stratify : list Z)
    (random_state : option Z) (global : rng G)
    : Py.result (list nat * list nat) * rng G :=
  match validate_shuffle_split n test_size with
  | Py.Raise e => (Py.Raise e, global)
  | Py.Ok (n_train, n_test) =>
      if negb (Nat.eqb n (List.length stratify)) then
        (Py.Raise
           (Py.ValueError "Found input variables with inconsistent numbers of samples"),
         global)
      else
        let r := check_random_state G random_state global in
        match stratified_shuffle_split G n_train n_test stratify r with
        | Py.Raise e => (Py.Raise e, global)
        | Py.Ok (train, test, r') =>
            (Py.Ok (train, test),
             match random_state with None => r' | Some _ => global end)
        end
  end.

(** A small generator to run the split with: it reverses where a real one
    shuffles and takes the first [size] members where a real one draws. *)
Definition reversing_gen : RandomGen := {|
  rng := unit;
  RandomState := fun _ => tt;
  permutation := fun r l => (rev l, r);
  choice := fun r l k => (firstn k l, r)
|}.

End Sklearn.

(** ** Cells 8 and 9: the module-level script *)

Definition notebook_data_dir : string :=
  "Users/tahmi/Documents/Work/ETAAV/DataSet/kochia/kochia/kochia"%string.

Definition empty_dataset_message : string :=
  "The dataset is empty. Please check the data_dir and ensure it contains the expected .npy files."%string.

(** Build the dataset, refuse an empty one, split the rest. *)
Definition script (env : Env) (G : Sklearn.RandomGen) (dir : string) (global : Sklearn.rng G)
    : Py.result (list nat * list nat) * Sklearn.rng G :=
  let dataset := HyperspectralDataset_init env dir in
  if Nat.eqb (HyperspectralDataset_len dataset) 0 then
    (Py.Raise (Py.ValueError empty_dataset_message), global)
  else
    Sklearn.train_test_split G (HyperspectralDataset_len dataset) (1 # 5)
      (labels dataset) (Some 42%Z) global.

(** ** Concrete inputs the statements below are run on *)

(** The same number: equal rationals, or the same infinity. *)
Definition same_number (a b : Torch.scalar) : Prop :=
  match a, b with
  | Torch.Fin x, Torch.Fin y => (x == y)%Q
  | Torch.PosInf, Torch.PosInf | Torch.NegInf, Torch.NegInf => True
  | _, _ => False
  end.

(** When two elements of an array differ it is not constant-valued. *)
Definition constant_valued (x : Tensor.t Torch.scalar) : Prop :=
  forall i j, Tensor.in_range (Tensor.shape x) i -> Tensor.in_range (Tensor.shape x) j ->
    same_number (Tensor.get x i) (Tensor.get x j).

Definition posix_join (a b : string) : string := (a ++ "/" ++ b)%string.

(** A directory without any sample file. *)
Definition empty_env : Env := {|
  path_join := posix_join;
  path_exists := fun _ => false;
  np_load := fun _ => Py.Raise (Py.OSError "No such file or directory")
|}.

(** A one-row sample, 64 pixels wide, one band, whose pixels alternate
    between 0 and 1. *)
Definition stripes : Tensor.t Torch.scalar :=
  Tensor.mk [1; 64; 1]
    (fun idx => match idx with
                | [_; w; _] => if Nat.even w then Torch.Fin 0 else Torch.Fin 1
                | _ => Torch.Fin 0
                end).

(** A 2 x 2 sample with one band and four different values. *)
Definition ramp : Tensor.t Torch.scalar :=
  Tensor.mk [2; 2; 1]
    (fun idx => match idx with
                | [h; w; _] => Torch.Fin (Torch.Qnat (2 * h + w))
                | _ => Torch.Fin 0
                end).

(** A directory holding the two samples above. *)
Definition two_sample_env : Env := {|
  path_join := posix_join;
  path_exists := fun p => String.eqb p "data/canola_1.npy" || String.eqb p "data/kochia_2.npy";
  np_load := fun p =>
    if String.eqb p "data/canola_1.npy" then Py.Ok stripes
    else if String.eqb p "data/kochia_2.npy" then Py.Ok ramp
    else Py.Raise (Py.OSError "No such file or directory")
|}.

(** The resized cube of a raw array (the array itself where resizing
    raises). *)
Definition resized (raw : Tensor.t Torch.scalar) : Tensor.t Torch.scalar :=
  match resize raw with
  | Py.Ok cube => cube
  | Py.Raise _ => raw
  end.

(** Three float32 values whose difference max - min overflows. *)
Definition wide_cube : Tensor.t Torch.scalar :=
  Tensor.mk [1; 1; 3]
    (fun idx => match idx with
                | [_; _; 0] => Torch.round32 (inject_Z (- 3 * 10 ^ 38))
                | [_; _; 1] => Torch.Fin 0
                | _ => Torch.round32 (inject_Z (3 * 10 ^ 38))
                end).

(** A 3 x 5 sample with one band and the value 0.1 everywhere. *)
Definition tenths : Tensor.t Torch.scalar :=
  Tensor.mk [3; 5; 1] (fun _ => Torch.Fin (1 # 10)).

(** A resized cube that is constant. *)
Definition flat_cube : Tensor.t Torch.scalar :=
  Tensor.mk [1; 2; 2] (fun _ => Torch.Fin (3 # 4)).

(** [k] samples of each of the seven classes, class after class. *)
Definition balanced_labels (k : nat) : list Z :=
  flat_map (fun c => repeat (Z.of_nat c) k) (seq 0 7).

Fixpoint nondecreasingb (l : list Z) : bool :=
  match l with
  | a :: (b :: _) as t => (a <=? b)%Z && nondecreasingb t
  | _ => true
  end.

(** A one-weight linear model to run the loop on: a batch is a list of
    (input, label) pairs, the prediction is [w * input], the loss is the sum
    of the absolute errors, and the optimizer subtracts the gradient. *)
Definition toy_framework : Framework := {|
  weights := Z;
  gradients := Z;
  optim_state := nat;
  generator := nat;
  batch := list (Z * Z);
  logits := list Z;
  batch_size := fun b => List.length b;
  model_call := fun training w g b =>
    (map (fun p => (w * fst p)%Z) b, if training then S g else g);
  criterion := fun out b =>
    inject_Z (fold_right Z.add 0%Z (map (fun p => Z.abs (fst p - snd (snd p))) (combine out b)));
  count_correct := fun out b =>
    Z.of_nat (List.length (filter (fun p => (fst p =? snd (snd p))%Z) (combine out b)));
  zero_grad := fun _ => 0%Z;
  backward := fun w g b gr =>
    (gr + fold_right Z.add 0%Z (map (fun p => Z.sgn (w * fst p - snd p) * fst p) b))%Z;
  optimizer_step := fun o w gr => ((w - gr)%Z, S o)
|}.

Definition toy_model : state toy_framework :=
  Build_state toy_framework 0%Z 0%Z 0 false 0.

Definition toy_loaders (ph : phase) : DataLoader toy_framework :=
  match ph with
  | Train => Build_DataLoader toy_framework 3 (fun _ => [[(1, 2); (2, 4)]; [(3, 6)]]%Z)
  | Val => Build_DataLoader toy_framework 2 (fun _ => [[(1, 0); (5, 10)]]%Z)
  end.


(** ** Further concrete inputs *)

(** A directory with one file that cannot be read and one that holds a
    matrix instead of a cube. *)
Definition broken_env : Env := {|
  path_join := posix_join;
  path_exists := fun p => String.eqb p "data/canola_1.npy" || String.eqb p "data/kochia_2.npy";
  np_load := fun p =>
    if String.eqb p "data/kochia_2.npy"
    then Py.Ok (Tensor.mk [2; 2] (fun _ => Torch.Fin 1))
    else Py.Raise (Py.OSError "Failed to interpret file as a pickle")
|}.

(** The directory of [two_sample_env] with a stray file beside the samples
    and nothing readable. *)
Definition cluttered_env : Env := {|
  path_join := posix_join;
  path_exists := fun p =>
    String.eqb p "data/canola_1.npy" || String.eqb p "data/kochia_2.npy"
    || String.eqb p "data/notes.txt";
  np_load := fun _ => Py.Raise (Py.OSError "No such file or directory")
|}.

(** A directory in which every probed file exists. *)
Definition full_env : Env := {|
  path_join := posix_join;
  path_exists := fun _ => true;
  np_load := fun _ => Py.Ok ramp
|}.

(** The 140 file names the constructor probes, in probing order. *)
Definition probed_names : list string :=
  flat_map (fun label => map (sample_name label) (seq 1 20)) class_labels.

Fixpoint distinctb (l : list string) : bool :=
  match l with
  | [] => true
  | a :: t => negb (existsb (String.eqb a) t) && distinctb t
  end.

(** The probed names with their class indices. *)
Definition probed : list (string * Z) :=
  flat_map (fun e : Z * string => map (fun i => (sample_name (snd e) i, fst e)) (seq 1 20))
    (Py.enumerate class_labels).

(** The toy loaders with a validation loader that yields no batch. *)
Definition toy_loaders_no_val (ph : phase) : DataLoader toy_framework :=
  match ph with
  | Train => toy_loaders Train
  | Val => Build_DataLoader toy_framework 2 (fun _ => [])
  end.

(** The message Python gives for a method an integer lacks. *)
Definition no_double_message : string := "'int' object has no attribute 'double'".

(** The two ways [train_model] stops on a loader without data. *)
Definition empty_loader_error (F : Framework)
    (r : Py.result (state F * list Q * list Q)) : Prop :=
  r = Py.Raise Py.ZeroDivisionError \/ r = Py.Raise (Py.AttributeError no_double_message).

(** A sample that is already 32 x 32, with two bands and no two equal
    values. *)
Definition square_sample : Tensor.t Torch.scalar :=
  Tensor.mk [32; 32; 2]
    (fun idx => match idx with
                | [h; w; c] => Torch.Fin (Torch.Qnat (64 * h + 2 * w + c))
                | _ => Torch.Fin 0
                end).

(** A directory with one sample, 32 x 32 pixels and one band, every value
    0.1. *)
Definition flat_env : Env := {|
  path_join := posix_join;
  path_exists := fun p => String.eqb p "data/canola_1.npy";
  np_load := fun _ => Py.Ok (Tensor.mk [32; 32; 1] (fun _ => Torch.Fin (1 # 10)))
|}.

(** A cube of one band and 2 x 2 pixels with the values 0, 1, 2 and 3. *)
Definition graded_cube : Tensor.t Torch.scalar :=
  Tensor.mk [1; 2; 2]
    (fun idx => match idx with
                | [_; h; w] => Torch.Fin (Torch.Qnat (2 * h + w))
                | _ => Torch.Fin 0
                end).

(** [y[idx]] for an index array: the labels at the given positions. *)
Definition labels_at (y : list Z) (idx : list nat) : list Z :=
  map (fun i => nth i y 0%Z) idx.

(** The split of 35 labels, 5 per class, that [reversing_gen] draws. *)
Definition split_35 : list nat * list nat :=
  ([31; 32; 33; 34; 26; 27; 28; 29; 21; 22; 23; 24; 16; 17; 18; 19;
    11; 12; 13; 14; 6; 7; 8; 9; 1; 2; 3; 4],
   [30; 25; 20; 15; 10; 5; 0]).

(** The split the script draws with [reversing_gen] on a directory in which
    all 140 probed files exist. *)
Definition full_split : list nat * list nat :=
  Eval vm_compute in
    match fst (script full_env Sklearn.reversing_gen "data" tt) with
    | Py.Ok p => p
    | Py.Raise _ => ([], [])
    end.

(** A directory with one sample, the 32 x 32 array above. *)
Definition square_env : Env := {|
  path_join := posix_join;
  path_exists := fun p => String.eqb p "data/soybean_7.npy";
  np_load := fun _ => Py.Ok square_sample
|}.
(** * Theorems *)

(** ** The model on concrete inputs *)

Example sample_name_canola_12 : sample_name "canola" 12 = "canola_12.npy"%string.
Proof. reflexivity. Qed.

Example two_sample_dataset :
  HyperspectralDataset_init two_sample_env "data"
  = {| data_dir := "data";
       file_paths := ["data/canola_1.npy"; "data/kochia_2.npy"]%string;
       labels := [0; 3]%Z |}.
Proof. reflexivity. Qed.

(** The run recorded in the notebook: no sample is found and cell 9 stops
    with the ValueError. *)
Example notebook_run_is_refused :
  script empty_env Sklearn.reversing_gen notebook_data_dir tt
  = (Py.Raise (Py.ValueError empty_dataset_message), tt).
Proof. reflexivity. Qed.

(** Halving a width of 64: output column 3 reads columns 6 and 7, half
    each. *)
Example source_cell_halving :
  Torch.source_cell 64 32 3
  = {| Torch.i0 := 6; Torch.i1 := 7;
       Torch.lambda0 := Torch.Fin (1 # 2); Torch.lambda1 := Torch.Fin (1 # 2) |}.
Proof. vm_compute. reflexivity. Qed.

(** Rounding to float32: 0.1 is not a float32; 2^24 + 1 rounds to 2^24; half
    the smallest unit rounds to 0; the largest float32 stays and the next
    candidate is an infinity; the sum of two large numbers overflows; and
    0 / 0 is NaN. *)
Example float32_samples :
  Torch.round32 (1 # 10) = Torch.Fin (13421773 # 134217728)
  /\ Torch.round32 16777217 = Torch.Fin 16777216
  /\ Torch.round32 (Torch.pow2 (-150)) = Torch.Fin 0
  /\ Torch.round32 (inject_Z (2 ^ 128 - 2 ^ 104)) = Torch.Fin (inject_Z (2 ^ 128 - 2 ^ 104))
  /\ Torch.round32 (inject_Z (2 ^ 128 - 2 ^ 103)) = Torch.PosInf
  /\ Torch.add (Torch.round32 (inject_Z (3 * 10 ^ 38))) (Torch.round32 (inject_Z (3 * 10 ^ 38)))
     = Torch.PosInf
  /\ Torch.div (Torch.Fin 0) (Torch.Fin 0) = Torch.NaN.
Proof. vm_compute. repeat split; reflexivity. Qed.

(** A cube whose difference max - min overflows: the divisor is an
    infinity and the maximum comes out as NaN. *)
Example normalize_overflows :
  match normalize wide_cube with
  | Py.Ok out => Tensor.elements out = [Torch.Fin 0; Torch.Fin 0; Torch.NaN]
  | Py.Raise _ => False
  end.
Proof. vm_compute. reflexivity. Qed.

(** A constant 0.1 is not constant after the resize of a 3 x 5 array: the
    blends are rounded. *)
Example resize_rounds :
  match resize tenths with
  | Py.Ok cube =>
      Tensor.get cube [0; 0; 0] = Torch.Fin (13421773 # 134217728)
      /\ Tensor.get cube [0; 0; 5] = Torch.Fin (3355443 # 33554432)
      /\ Tensor.get cube [0; 0; 7] = Torch.Fin (6710887 # 67108864)
  | Py.Raise _ => False
  end.
Proof. vm_compute. repeat split; reflexivity. Qed.

Example split_of_35 :
  fst (Sklearn.train_test_split Sklearn.reversing_gen 35 (1 # 5) (balanced_labels 5)
         (Some 42%Z) tt)
  = Py.Ok ([31; 32; 33; 34; 26; 27; 28; 29; 21; 22; 23; 24; 16; 17; 18; 19;
            11; 12; 13; 14; 6; 7; 8; 9; 1; 2; 3; 4],
           [30; 25; 20; 15; 10; 5; 0]).
Proof. vm_compute. reflexivity. Qed.

Example toy_training_run :
  match train_model toy_model toy_loaders 2 with
  | Py.Ok (_, train_loss, val_acc) =>
      train_loss = [15 # 3; 15 # 3]%Q /\ val_acc = [1 # 2; 1 # 2]%Q
  | Py.Raise _ => False
  end.
Proof. vm_compute. split; reflexivity. Qed.

(** ** The sample indexer *)

Section Indexer.

Variable env : Env.
Variable dir : string.

Let found (e : string * Z) : bool := path_exists env (fst e).
Let entry (k : Z) (name : string) (i : nat) : string * Z :=
  (path_join env dir (sample_name name i), k).

Lemma probe_fold k name (l : list nat) (st : list string * list Z) :
  fold_left (probe env dir k name) l st
  = (fst st ++ map fst (filter found (map (entry k name) l)),
     snd st ++ map snd (filter found (map (entry k name) l))).
Proof.
  revert st. induction l as [|i l IH]; intros [fp lb]; simpl.
  - now rewrite !app_nil_r.
  - rewrite IH. unfold probe.
    change (found (entry k name i))
      with (path_exists env (path_join env dir (sample_name name i))).
    destruct (path_exists env (path_join env dir (sample_name name i))); cbn [fst snd map].
    + rewrite <- !app_assoc. reflexivity.
    + reflexivity.
Qed.

Lemma probe_classes_fold (idxs : list nat) (es : list (Z * string))
    (st : list string * list Z) :
  fold_left (fun st e => fold_left (probe env dir (fst e) (snd e)) idxs st) es st
  = (fst st ++ map fst (filter found
                (flat_map (fun e => map (entry (fst e) (snd e)) idxs) es)),
     snd st ++ map snd (filter found
                (flat_map (fun e => map (entry (fst e) (snd e)) idxs) es))).
Proof.
  revert st. induction es as [|e es IH]; intros [fp lb]; cbn [fold_left flat_map].
  - cbn [filter map fst snd]. now rewrite !app_nil_r.
  - rewrite IH, probe_fold. cbn [fst snd].
    rewrite !filter_app, !map_app, !app_assoc. reflexivity.
Qed.

Lemma init_contents :
  fold_left (probe_class env dir) (Py.enumerate class_labels) ([], [])
  = (map fst (indexed_samples env dir), map snd (indexed_samples env dir)).
Proof.
  unfold probe_class, Py.range. change (21 - 1) with 20.
  rewrite probe_classes_fold. cbn [fst snd app].
  unfold indexed_samples, candidates, found, entry. reflexivity.
Qed.

Lemma init_file_paths :
  file_paths (HyperspectralDataset_init env dir) = map fst (indexed_samples env dir).
Proof.
  unfold HyperspectralDataset_init. cbn [file_paths].
  rewrite init_contents. reflexivity.
Qed.

Lemma init_labels :
  labels (HyperspectralDataset_init env dir) = map snd (indexed_samples env dir).
Proof.
  unfold HyperspectralDataset_init. cbn [labels].
  rewrite init_contents. reflexivity.
Qed.

Lemma combine_fst_snd {A B} (l : list (A * B)) : combine (map fst l) (map snd l) = l.
Proof. induction l as [|[a b] l IH]; simpl; congruence. Qed.

Lemma in_candidates p k :
  In (p, k) (candidates env dir) <->
  exists name i, nth_error class_labels (Z.to_nat k) = Some name
    /\ (0 <= k)%Z /\ 1 <= i <= 20
    /\ p = path_join env dir (sample_name name i).
Proof.
  unfold candidates. rewrite in_flat_map. split.
  - intros [[k' name] [He Hin]]. cbn [fst snd] in Hin. apply in_map_iff in Hin.
    destruct Hin as [i [Heq Hi]]. inversion Heq; subst. apply in_seq in Hi.
    exists name, i. unfold Py.enumerate in He. simpl in He.
    repeat (destruct He as [He|He];
            [inversion He; subst; simpl; repeat split; (reflexivity || lia)|]).
    destruct He.
  - intros [name [i [Hn [Hk [Hi Hp]]]]]. exists (k, name). split.
    + assert (Hlt : Z.to_nat k < 7).
      { change 7 with (List.length class_labels).
        apply nth_error_Some. rewrite Hn. discriminate. }
      assert (Hk' : k = Z.of_nat (Z.to_nat k)) by lia.
      rewrite Hk'. rewrite Hk' in Hn. rewrite Nat2Z.id in Hn.
      destruct (Z.to_nat k) as [|[|[|[|[|[|[|n]]]]]]]; try lia;
        simpl in Hn; inversion Hn; subst name; unfold Py.enumerate; simpl; tauto.
    + cbn [fst snd]. apply in_map_iff. exists i. split; [now subst|]. apply in_seq. lia.
Qed.

Lemma in_indexed_samples p k :
  In (p, k) (indexed_samples env dir) <->
  path_exists env p = true
  /\ exists name i, nth_error class_labels (Z.to_nat k) = Some name
       /\ (0 <= k)%Z /\ 1 <= i <= 20
       /\ p = path_join env dir (sample_name name i).
Proof.
  unfold indexed_samples. rewrite filter_In, in_candidates. cbn [fst]. tauto.
Qed.

Lemma candidates_written_out :
  candidates env dir
  = flat_map
      (fun c : Z * string =>
         map (fun digits =>
                (path_join env dir (snd c ++ "_" ++ digits ++ ".npy")%string, fst c))
           ["1"; "2"; "3"; "4"; "5"; "6"; "7"; "8"; "9"; "10";
            "11"; "12"; "13"; "14"; "15"; "16"; "17"; "18"; "19"; "20"]%string)
      [(0, "canola"); (1, "soybean"); (2, "sugarbeet"); (3, "kochia");
       (4, "common_ragweed"); (5, "common_waterhemp"); (6, "redroot_pigweed")]%Z%string.
Proof. reflexivity. Qed.

(** C1: the indexer returns exactly the existing candidates
    [{class_name}_{i}.npy], classes in declared order and [i] ascending from
    1 to 20, each with its class index, and nothing else.  The names are
    written out: the seven class names with their indices, and the decimal
    numerals of 1 to 20. *)
Theorem indexer_exact :
  let d := HyperspectralDataset_init env dir in
  let classes :=
    [(0, "canola"); (1, "soybean"); (2, "sugarbeet"); (3, "kochia");
     (4, "common_ragweed"); (5, "common_waterhemp"); (6, "redroot_pigweed")]%Z%string in
  let numerals :=
    ["1"; "2"; "3"; "4"; "5"; "6"; "7"; "8"; "9"; "10";
     "11"; "12"; "13"; "14"; "15"; "16"; "17"; "18"; "19"; "20"]%string in
  combine (file_paths d) (labels d)
  = filter (fun e => path_exists env (fst e))
      (flat_map
         (fun c : Z * string =>
            map (fun digits =>
                   (path_join env dir (snd c ++ "_" ++ digits ++ ".npy")%string, fst c))
              numerals)
         classes)
  /\ combine (file_paths d) (labels d) = indexed_samples env dir
  /\ file_paths d = map fst (indexed_samples env dir)
  /\ labels d = map snd (indexed_samples env dir)
  /\ forall p k, In (p, k) (combine (file_paths d) (labels d)) <->
       path_exists env p = true
       /\ exists name digits, In (k, name) classes /\ In digits numerals
            /\ p = path_join env dir (name ++ "_" ++ digits ++ ".npy")%string.
Proof.
  intros d classes numerals. subst d.
  rewrite init_file_paths, init_labels, combine_fst_snd.
  assert (E : indexed_samples env dir
              = filter (fun e => path_exists env (fst e))
                  (flat_map
                     (fun c : Z * string =>
                        map (fun digits =>
                               (path_join env dir (snd c ++ "_" ++ digits ++ ".npy")%string,
                                fst c))
                          numerals)
                     classes)).
  { unfold indexed_samples. rewrite candidates_written_out. reflexivity. }
  split; [exact E|]. split; [reflexivity|]. split; [reflexivity|]. split; [reflexivity|].
  intros p k. rewrite E, filter_In, in_flat_map. cbn [fst]. split.
  - intros [[[k' name] [Hc Hin]] Hp]. split; [exact Hp|].
    apply in_map_iff in Hin. destruct Hin as [digits [Heq Hd]].
    cbn [fst snd] in Heq. inversion Heq; subst. exists name, digits. auto.
  - intros [Hp [name [digits [Hc [Hd ->]]]]]. split; [|exact Hp].
    exists (k, name). split; [exact Hc|]. apply in_map_iff. exists digits. auto.
Qed.

Lemma nondecreasingb_sorted (l : list Z) :
  nondecreasingb l = true -> Sorted Z.le l.
Proof.
  induction l as [|a [|b t] IH]; intros H.
  - constructor.
  - repeat constructor.
  - simpl in H. apply andb_prop in H. destruct H as [Hab Ht].
    constructor; [apply IH, Ht|constructor; lia].
Qed.

Lemma sorted_filter_snd {A} (f : A * Z -> bool) (l : list (A * Z)) :
  StronglySorted Z.le (map snd l) -> StronglySorted Z.le (map snd (filter f l)).
Proof.
  induction l as [|e l IH]; simpl; intros H; [constructor|].
  inversion H as [|? ? Hs Hall]; subst.
  destruct (f e); simpl; [|now apply IH].
  constructor; [now apply IH|].
  rewrite Forall_forall in *. intros z Hz. apply Hall.
  apply in_map_iff in Hz. destruct Hz as [x [Hx Hin]]. apply filter_In in Hin.
  apply in_map_iff. exists x. tauto.
Qed.

Lemma candidate_labels :
  map snd (candidates env dir) = balanced_labels 20.
Proof. reflexivity. Qed.

Lemma getitem_in_range {A} (l : list A) (idx : Z) :
  (0 <= idx < Z.of_nat (List.length l))%Z ->
  exists a, Py.list_getitem l idx = Py.Ok a /\ nth_error l (Z.to_nat idx) = Some a.
Proof.
  intros H. unfold Py.list_getitem.
  destruct (idx <? 0)%Z eqn:Hneg; [lia|].
  replace ((0 <=? idx)%Z && (idx <? Z.of_nat (List.length l))%Z) with true
    by (symmetry; apply andb_true_iff; lia).
  destruct (nth_error l (Z.to_nat idx)) as [a|] eqn:Hn; [now exists a|].
  apply nth_error_None in Hn. lia.
Qed.

Lemma candidates_length : List.length (candidates env dir) = 140.
Proof. rewrite <- (length_map snd), candidate_labels. reflexivity. Qed.

Lemma balanced_labels_sorted : StronglySorted Z.le (balanced_labels 20).
Proof.
  apply Sorted_StronglySorted; [intros x y z; apply Z.le_trans|].
  apply nondecreasingb_sorted. vm_compute. reflexivity.
Qed.

Lemma indexed_samples_length : List.length (indexed_samples env dir) <= 140.
Proof.
  unfold indexed_samples. rewrite <- candidates_length. apply filter_length_le.
Qed.

Lemma indexed_labels_range :
  Forall (fun l => (0 <= l <= 6)%Z) (map snd (indexed_samples env dir)).
Proof.
  rewrite Forall_forall. intros z Hz. apply in_map_iff in Hz.
  destruct Hz as [[p k] [Hk Hin]]. cbn [snd] in Hk. subst k.
  apply in_indexed_samples in Hin.
  destruct Hin as [_ [name [i [Hn [Hz _]]]]].
  assert (Hlt : Z.to_nat z < List.length class_labels).
  { apply nth_error_Some. rewrite Hn. discriminate. }
  change (List.length class_labels) with 7 in Hlt. lia.
Qed.

Lemma indexed_labels_sorted : StronglySorted Z.le (map snd (indexed_samples env dir)).
Proof.
  unfold indexed_samples. apply sorted_filter_snd. rewrite candidate_labels.
  exact balanced_labels_sorted.
Qed.

Lemma init_lengths :
  List.length (file_paths (HyperspectralDataset_init env dir))
  = List.length (labels (HyperspectralDataset_init env dir)).
Proof. now rewrite init_file_paths, init_labels, !length_map. Qed.

(** C10: after construction the path list and the label list have the same
    length, so every index below the reported length addresses both; every
    label lies in [0, 6]; the labels are nondecreasing; and the length is at
    most 140. *)
Theorem dataset_invariants :
  let d := HyperspectralDataset_init env dir in
  List.length (file_paths d) = List.length (labels d)
  /\ (forall idx, (0 <= idx < Z.of_nat (HyperspectralDataset_len d))%Z ->
        Py.returns (Py.list_getitem (file_paths d) idx)
        /\ Py.returns (Py.list_getitem (labels d) idx))
  /\ Forall (fun l => (0 <= l <= 6)%Z) (labels d)
  /\ StronglySorted Z.le (labels d)
  /\ HyperspectralDataset_len d <= 140.
Proof.
  intros d. subst d. unfold HyperspectralDataset_len.
  rewrite init_file_paths, init_labels, !length_map.
  split; [reflexivity|]. split.
  - intros idx Hidx. split.
    + destruct (getitem_in_range (map fst (indexed_samples env dir)) idx) as [a [Ha _]].
      * now rewrite length_map.
      * rewrite Ha. exact I.
    + destruct (getitem_in_range (map snd (indexed_samples env dir)) idx) as [a [Ha _]].
      * now rewrite length_map.
      * rewrite Ha. exact I.
  - split; [exact indexed_labels_range|]. split; [exact indexed_labels_sorted|].
    exact indexed_samples_length.
Qed.

End Indexer.

(** C5 (as the code has it): on a directory without any matching file the
    constructor returns an empty dataset; it is the guard of the script that
    raises the ValueError naming the cause, before the split is attempted and
    without touching the random generator. *)
Theorem empty_directory_guard (env : Env) (G : Sklearn.RandomGen) (dir : string)
    (global : Sklearn.rng G) :
  (forall e, In e (candidates env dir) -> path_exists env (fst e) = false) ->
  let d := HyperspectralDataset_init env dir in
  file_paths d = [] /\ labels d = [] /\ HyperspectralDataset_len d = 0
  /\ script env G dir global = (Py.Raise (Py.ValueError empty_dataset_message), global).
Proof.
  intros Hnone. cbv zeta.
  assert (Hempty : indexed_samples env dir = []).
  { unfold indexed_samples. induction (candidates env dir) as [|e l IH]; [reflexivity|].
    simpl. rewrite (Hnone e) by now left. apply IH. intros e' He'. apply Hnone. now right. }
  unfold script, HyperspectralDataset_len.
  rewrite init_file_paths, init_labels, Hempty. simpl. repeat split.
Qed.

Lemma empty_directory_guard_witness :
  file_paths (HyperspectralDataset_init empty_env "data") = []
  /\ labels (HyperspectralDataset_init empty_env "data") = []
  /\ HyperspectralDataset_len (HyperspectralDataset_init empty_env "data") = 0
  /\ script empty_env Sklearn.reversing_gen "data" tt
     = (Py.Raise (Py.ValueError empty_dataset_message), tt).
Proof.
  apply (empty_directory_guard empty_env Sklearn.reversing_gen "data" tt).
  intros e _. reflexivity.
Defined.

(** C5, counterexample: constructing the dataset on an empty directory
    raises nothing and yields the empty sequence. *)
Lemma indexer_returns_empty_silently :
  file_paths (HyperspectralDataset_init empty_env "data") = []
  /\ labels (HyperspectralDataset_init empty_env "data") = []
  /\ HyperspectralDataset_len (HyperspectralDataset_init empty_env "data") = 0.
Proof. repeat split. Qed.

(** ** Rounding to float32 *)

Module FloatFacts.

Import Torch.

Local Open Scope Q_scope.

(** *** Powers of two *)

Lemma pow2_pos (k : Z) : 0 < pow2 k.
Proof. apply Qpower_0_lt. reflexivity. Qed.

Lemma pow2_nonzero (k : Z) : ~ pow2 k == 0.
Proof. intros H. pose proof (pow2_pos k) as P. rewrite H in P. discriminate. Qed.

Lemma pow2_plus (a b : Z) : pow2 (a + b) == pow2 a * pow2 b.
Proof. apply Qpower_plus. discriminate. Qed.

Lemma pow2_le (a b : Z) : (a <= b)%Z -> pow2 a <= pow2 b.
Proof. intros H. apply Qpower_le_compat_l; [exact H|discriminate]. Qed.

Lemma pow2_inject (n : Z) : (0 <= n)%Z -> inject_Z (2 ^ n) == pow2 n.
Proof. intros H. apply (Zpower_Qpower 2 n H). Qed.

Lemma pow2_succ (k : Z) : pow2 (k + 1) == 2 * pow2 k.
Proof. rewrite pow2_plus. change (pow2 1) with 2. ring. Qed.

Lemma scaled_back (x : Q) (k : Z) : x / pow2 k * pow2 k == x.
Proof. field. apply pow2_nonzero. Qed.

Lemma scaled_next (x : Q) (k : Z) : x / pow2 (k + 1) == x / pow2 k / 2.
Proof.
  rewrite pow2_succ. field. apply pow2_nonzero.
Qed.

Lemma Qabs_scaled (x : Q) (k : Z) : Qabs (x / pow2 k) == Qabs x / pow2 k.
Proof.
  unfold Qdiv. rewrite Qabs_Qmult.
  rewrite (Qabs_pos (/ pow2 k)); [reflexivity|].
  apply Qlt_le_weak, Qinv_lt_0_compat, pow2_pos.
Qed.

(** *** Rounding to the nearest integer *)

Lemma rne_bounds (x : Q) :
  inject_Z (rne x) <= x + (1 # 2) /\ x - (1 # 2) <= inject_Z (rne x).
Proof.
  unfold rne. cbv zeta.
  pose proof (Qfloor_le x) as H1. pose proof (Qlt_floor x) as H2.
  rewrite inject_Z_plus in H2. change (inject_Z 1) with 1 in H2.
  destruct (x - inject_Z (Qfloor x) ?= 1 # 2) eqn:E.
  - apply Qeq_alt in E. destruct (Z.even (Qfloor x)).
    + split; lra.
    + rewrite inject_Z_plus. change (inject_Z 1) with 1. split; lra.
  - apply Qlt_alt in E. split; lra.
  - apply Qgt_alt in E. rewrite inject_Z_plus. change (inject_Z 1) with 1. split; lra.
Qed.

Lemma rne_floor (x : Q) : (Qfloor x <= rne x <= Qfloor x + 1)%Z.
Proof.
  unfold rne. cbv zeta.
  destruct (x - inject_Z (Qfloor x) ?= 1 # 2); [destruct (Z.even (Qfloor x))| |]; lia.
Qed.

#[local] Instance rne_comp : Proper (Qeq ==> eq) rne.
Proof.
  intros x y E. unfold rne. cbv zeta. rewrite (Qfloor_comp x y E).
  assert (C : (x - inject_Z (Qfloor y) ?= 1 # 2) = (y - inject_Z (Qfloor y) ?= 1 # 2)).
  { apply Qcompare_comp; [rewrite E|]; reflexivity. }
  rewrite C. reflexivity.
Qed.

Lemma rne_inject (z : Z) : rne (inject_Z z) = z.
Proof.
  unfold rne. cbv zeta. rewrite Qfloor_Z.
  replace (inject_Z z - inject_Z z ?= 1 # 2) with Lt; [reflexivity|].
  symmetry. apply Qlt_alt. setoid_replace (inject_Z z - inject_Z z) with 0 by ring.
  reflexivity.
Qed.

Lemma rne_mono (x y : Q) : x <= y -> (rne x <= rne y)%Z.
Proof.
  intros H. pose proof (Qfloor_resp_le x y H) as Hf.
  destruct (Z.eq_dec (Qfloor x) (Qfloor y)) as [E|N].
  - unfold rne. cbv zeta. rewrite E.
    destruct (x - inject_Z (Qfloor y) ?= 1 # 2) eqn:Ex;
      destruct (y - inject_Z (Qfloor y) ?= 1 # 2) eqn:Ey;
      try (destruct (Z.even (Qfloor y))); try lia; exfalso;
      first [apply Qeq_alt in Ex|apply Qlt_alt in Ex|apply Qgt_alt in Ex];
      first [apply Qeq_alt in Ey|apply Qlt_alt in Ey|apply Qgt_alt in Ey]; lra.
  - pose proof (rne_floor x). pose proof (rne_floor y). lia.
Qed.

(** The rounded integer is at least as large, in magnitude, as any integer
    the argument reaches. *)
Lemma rne_abs_ge (y : Q) (n : Z) : inject_Z n <= Qabs y -> (n <= Z.abs (rne y))%Z.
Proof.
  intros H. destruct (Qlt_le_dec y 0) as [Hneg|Hpos].
  - rewrite Qabs_neg in H by now apply Qlt_le_weak.
    assert (Hy : y <= inject_Z (- n)) by (rewrite inject_Z_opp; lra).
    apply rne_mono in Hy. rewrite rne_inject in Hy. lia.
  - rewrite Qabs_pos in H by exact Hpos.
    apply rne_mono in H. rewrite rne_inject in H. lia.
Qed.

Lemma rne_abs_le (y : Q) : inject_Z (Z.abs (rne y)) - (1 # 2) <= Qabs y.
Proof.
  destruct (rne_bounds y) as [B1 B2].
  destruct (Qlt_le_dec y 0) as [Hneg|Hpos].
  - rewrite Qabs_neg by now apply Qlt_le_weak.
    destruct (Z.abs_spec (rne y)) as [[_ ->]|[_ ->]]; [lra|].
    rewrite inject_Z_opp. lra.
  - rewrite Qabs_pos by exact Hpos.
    destruct (Z.abs_spec (rne y)) as [[_ ->]|[_ ->]]; [lra|].
    rewrite inject_Z_opp. lra.
Qed.

(** *** The search for the exponent *)

#[local] Instance coefficient_comp (k : Z) : Proper (Qeq ==> eq) (coefficient k).
Proof. intros x y E. unfold coefficient. now rewrite E. Qed.

#[local] Instance fits_comp (k : Z) : Proper (Qeq ==> eq) (fits k).
Proof. intros x y E. unfold fits. now rewrite E. Qed.

Lemma fits_spec (k : Z) (x : Q) :
  fits k x = true <-> (Z.abs (coefficient k x) <= 2 ^ 24)%Z.
Proof. unfold fits. apply Z.leb_le. Qed.

(** A quantum that is too fine leaves at least 23 bits for the next
    one. *)
Lemma next_coefficient (j : Z) (x : Q) :
  fits j x = false -> (2 ^ 23 <= Z.abs (coefficient (j + 1) x))%Z.
Proof.
  intros F. unfold fits in F. apply Z.leb_gt in F.
  pose proof (rne_abs_le (x / pow2 j)) as B. fold (coefficient j x) in B.
  apply rne_abs_ge. rewrite scaled_next.
  assert (H : inject_Z (2 ^ 24 + 1) <= inject_Z (Z.abs (coefficient j x))).
  { rewrite <- Zle_Qle. lia. }
  unfold Qdiv at 1. rewrite Qabs_Qmult. change (Qabs (/ 2)) with (1 # 2).
  change (inject_Z (2 ^ 24 + 1)) with 16777217 in H.
  change (inject_Z (2 ^ 23)) with 8388608. lra.
Qed.

Lemma round_from_Some (fuel : nat) (k : Z) (x r : Q) :
  round_from fuel k x = Some r ->
  exists K, (k <= K < k + Z.of_nat fuel)%Z /\ fits K x = true
            /\ (forall j, (k <= j < K)%Z -> fits j x = false)
            /\ r = inject_Z (coefficient K x) * pow2 K.
Proof.
  revert k. induction fuel as [|fuel IH]; intros k; [discriminate|].
  cbn [round_from]. destruct (fits k x) eqn:F.
  - intros E. inversion E. exists k. split; [lia|]. split; [exact F|].
    split; [intros j Hj; lia|reflexivity].
  - intros E. destruct (IH (k + 1)%Z E) as [K [HK [FK [Hl Hr]]]].
    exists K. split; [lia|]. split; [exact FK|]. split; [|exact Hr].
    intros j Hj. destruct (Z.eq_dec j k) as [->|N]; [exact F|]. apply Hl. lia.
Qed.

Lemma round_from_None (fuel : nat) (k : Z) (x : Q) :
  round_from fuel k x = None ->
  forall j, (k <= j < k + Z.of_nat fuel)%Z -> fits j x = false.
Proof.
  revert k. induction fuel as [|fuel IH]; intros k E j Hj; [lia|].
  cbn [round_from] in E. destruct (fits k x) eqn:F; [discriminate|].
  destruct (Z.eq_dec j k) as [->|N]; [exact F|]. apply (IH (k + 1)%Z E). lia.
Qed.

Lemma round_from_found (fuel : nat) (k K : Z) (x : Q) :
  (k <= K < k + Z.of_nat fuel)%Z -> fits K x = true ->
  (forall j, (k <= j < K)%Z -> fits j x = false) ->
  round_from fuel k x = Some (inject_Z (coefficient K x) * pow2 K).
Proof.
  revert k. induction fuel as [|fuel IH]; intros k HK FK Hl; [lia|].
  cbn [round_from]. destruct (Z.eq_dec k K) as [->|N].
  - now rewrite FK.
  - rewrite (Hl k) by lia. apply IH; [lia|exact FK|]. intros j Hj. apply Hl. lia.
Qed.

Lemma least_fit_unique (x : Q) (K K' : Z) : least_fit x K -> least_fit x K' -> K = K'.
Proof.
  intros [A1 [A2 A3]] [B1 [B2 B3]].
  destruct (Z.lt_trichotomy K K') as [H|[H|H]]; [|exact H|].
  - rewrite (B3 K) in A2 by lia. discriminate.
  - rewrite (A3 K') in B2 by lia. discriminate.
Qed.

Lemma least_fit_exists (x : Q) (K : Z) :
  (-149 <= K)%Z -> fits K x = true -> exists K', least_fit x K' /\ (K' <= K)%Z.
Proof.
  intros HK FK.
  destruct (round_from (Z.to_nat (K + 150)) (-149) x) as [r|] eqn:E.
  - apply round_from_Some in E. destruct E as [K' [H1 [H2 [H3 _]]]].
    exists K'. split; [split; [lia|]; split; [exact H2|]; intros j Hj; apply H3; lia|].
    destruct (Z_le_gt_dec K' K) as [H|H]; [exact H|].
    rewrite (H3 K) in FK by lia. discriminate.
  - rewrite (round_from_None _ _ _ E K) in FK by lia. discriminate.
Qed.

Lemma start_exponent_ge (x : Q) : (-149 <= start_exponent x)%Z.
Proof. unfold start_exponent. destruct (Qnum x =? 0)%Z; lia. Qed.

Lemma magnitude_lower (x : Q) :
  Qnum x <> 0%Z ->
  pow2 (Z.log2 (Z.abs (Qnum x)) - Z.log2 (Z.pos (Qden x)) - 1) <= Qabs x.
Proof.
  intros Hn. destruct x as [n d]. cbn [Qnum Qden] in *.
  set (a := Z.log2 (Z.abs n)). set (b := Z.log2 (Z.pos d)).
  assert (Ha : (2 ^ a <= Z.abs n)%Z) by (apply Z.log2_spec; lia).
  assert (Hb : (Z.pos d < 2 ^ (b + 1))%Z).
  { pose proof (Z.log2_spec (Z.pos d) ltac:(lia)) as H. unfold b.
    rewrite <- Z.add_1_r in H. lia. }
  assert (Ha0 : (0 <= a)%Z) by apply Z.log2_nonneg.
  assert (Hb0 : (0 <= b)%Z) by apply Z.log2_nonneg.
  replace (a - b - 1)%Z with (a + - (b + 1))%Z by lia.
  rewrite pow2_plus. unfold pow2 at 2. rewrite Qpower_opp. fold (pow2 (b + 1)).
  rewrite <- (pow2_inject a Ha0), <- (pow2_inject (b + 1)) by lia.
  change (Qabs (n # d)) with (Z.abs n # d). rewrite (Qmake_Qdiv (Z.abs n) d).
  unfold Qdiv.
  assert (P1 : 0 < inject_Z (Z.pos d)) by reflexivity.
  assert (P2 : 0 < inject_Z (2 ^ (b + 1))).
  { rewrite <- (Zlt_Qlt 0). lia. }
  apply Qle_trans with (inject_Z (Z.abs n) * / inject_Z (2 ^ (b + 1))).
  - apply Qmult_le_compat_r; [rewrite <- Zle_Qle; exact Ha|].
    apply Qlt_le_weak, Qinv_lt_0_compat, P2.
  - rewrite !(Qmult_comm (inject_Z (Z.abs n))). apply Qmult_le_compat_r.
    + apply Qle_shift_inv_l; [exact P1|].
      rewrite Qmult_comm. apply Qle_shift_div_r; [exact P2|].
      rewrite Qmult_1_l. rewrite <- Zle_Qle. lia.
    + rewrite <- (Zle_Qle 0). lia.
Qed.

(** Below the starting exponent nothing fits. *)
Lemma below_start (x : Q) (j : Z) :
  (-149 <= j < start_exponent x)%Z -> fits j x = false.
Proof.
  unfold start_exponent. destruct (Qnum x =? 0)%Z eqn:E0; [lia|].
  apply Z.eqb_neq in E0. intros Hj.
  pose proof (magnitude_lower x E0) as M.
  set (e := (Z.log2 (Z.abs (Qnum x)) - Z.log2 (Z.pos (Qden x)))%Z) in *.
  assert (He : (j + 26 <= e)%Z) by lia.
  unfold fits. apply Z.leb_gt. apply Z.lt_le_trans with (2 ^ 25)%Z; [reflexivity|].
  apply rne_abs_ge. rewrite Qabs_scaled.
  apply Qle_shift_div_l; [apply pow2_pos|].
  rewrite (pow2_inject 25) by lia. rewrite <- pow2_plus.
  apply Qle_trans with (pow2 (e - 1)); [apply pow2_le; lia|exact M].
Qed.

Lemma value_abs (c K : Z) :
  Qabs (inject_Z c * pow2 K) == inject_Z (Z.abs c) * pow2 K.
Proof.
  rewrite Qabs_Qmult, (Qabs_pos (pow2 K)) by apply Qlt_le_weak, pow2_pos.
  reflexivity.
Qed.

Lemma least_fit_large (x : Q) (K : Z) :
  least_fit x K -> (105 <= K)%Z ->
  pow2 128 <= Qabs (inject_Z (coefficient K x) * pow2 K).
Proof.
  intros [H1 [H2 H3]] HK.
  pose proof (next_coefficient (K - 1) x (H3 (K - 1)%Z ltac:(lia))) as C.
  replace (K - 1 + 1)%Z with K in C by lia.
  rewrite value_abs.
  apply Qle_trans with (pow2 23 * pow2 K).
  - rewrite <- pow2_plus. apply pow2_le. lia.
  - apply Qmult_le_compat_r; [|apply Qlt_le_weak, pow2_pos].
    rewrite <- (pow2_inject 23) by lia. rewrite <- Zle_Qle. exact C.
Qed.

Lemma overflow_comp (x y : Q) : x == y -> overflow x = overflow y.
Proof.
  intros E. unfold overflow.
  destruct (Qle_bool 0 x) eqn:A, (Qle_bool 0 y) eqn:B; try reflexivity; exfalso.
  - apply Qle_bool_iff in A. rewrite E in A. apply Qle_bool_iff in A. congruence.
  - apply Qle_bool_iff in B. rewrite <- E in B. apply Qle_bool_iff in B. congruence.
Qed.

Lemma round32_cases (x : Q) :
  round32 x = overflow x \/ exists q, round32 x = Fin q.
Proof.
  unfold round32. destruct (round_from 254 (start_exponent x) x) as [r|]; [|now left].
  destruct (Qle_bool (pow2 128) (Qabs r)); [now left|right; eauto].
Qed.

(** What the rounding returns when it returns a number. *)
Lemma round32_Fin_iff (x q : Q) :
  round32 x = Fin q <->
  exists K, least_fit x K
            /\ Qabs (inject_Z (coefficient K x) * pow2 K) < pow2 128
            /\ q = Qred (inject_Z (coefficient K x) * pow2 K).
Proof.
  pose proof (start_exponent_ge x) as Hs. split.
  - unfold round32. destruct (round_from 254 (start_exponent x) x) as [r|] eqn:E.
    + destruct (Qle_bool (pow2 128) (Qabs r)) eqn:O.
      * unfold overflow. destruct (Qle_bool 0 x); discriminate.
      * intros H. inversion H. apply round_from_Some in E.
        destruct E as [K [R1 [H2 [H3 ->]]]]. exists K. split; [|split].
        -- split; [lia|]. split; [exact H2|]. intros j Hj.
           destruct (Z_lt_le_dec j (start_exponent x)) as [L|L].
           ++ apply below_start. lia.
           ++ apply H3. lia.
        -- apply Qnot_le_lt. intros C. apply Qle_bool_iff in C. congruence.
        -- reflexivity.
    + unfold overflow. destruct (Qle_bool 0 x); discriminate.
  - intros [K [L [B ->]]].
    assert (HK : (K <= 104)%Z).
    { destruct (Z_le_gt_dec K 104) as [H|H]; [exact H|]. exfalso.
      pose proof (least_fit_large x K L ltac:(lia)) as C.
      apply (Qlt_irrefl (pow2 128)). eapply Qle_lt_trans; eassumption. }
    destruct L as [L1 [L2 L3]].
    assert (HS : (start_exponent x <= K)%Z).
    { destruct (Z_le_gt_dec (start_exponent x) K) as [H|H]; [exact H|]. exfalso.
      rewrite (below_start x K) in L2 by lia. discriminate. }
    unfold round32.
    rewrite (round_from_found 254 (start_exponent x) K x) by
      (try lia; try assumption; intros j Hj; apply L3; lia).
    replace (Qle_bool (pow2 128) (Qabs (inject_Z (coefficient K x) * pow2 K))) with false;
      [reflexivity|].
    symmetry. apply not_true_iff_false. intros C. apply Qle_bool_iff in C.
    apply (Qlt_irrefl (pow2 128)). eapply Qle_lt_trans; eassumption.
Qed.

Lemma least_fit_comp (x y : Q) (K : Z) : x == y -> least_fit x K -> least_fit y K.
Proof.
  intros E [H1 [H2 H3]]. split; [exact H1|]. split.
  - now rewrite <- E.
  - intros j Hj. rewrite <- E. now apply H3.
Qed.

(** The rounding depends on the number, not on how the fraction is
    written. *)
Lemma round32_comp (x y : Q) : x == y -> round32 x = round32 y.
Proof.
  assert (H : forall a b q, a == b -> round32 a = Fin q -> round32 b = Fin q).
  { intros a b q E Ha. apply round32_Fin_iff in Ha. destruct Ha as [K [L [B ->]]].
    apply round32_Fin_iff. exists K. split; [now apply (least_fit_comp a b)|].
    rewrite <- (coefficient_comp K a b E). split; [exact B|reflexivity]. }
  intros E. destruct (round32_cases x) as [Ox|[q Hq]].
  - destruct (round32_cases y) as [Oy|[q Hq]].
    + rewrite Ox, Oy. now apply overflow_comp.
    + rewrite Hq. apply (H y x q); [now symmetry|exact Hq].
  - rewrite Hq. symmetry. now apply (H x y q).
Qed.

Lemma coefficient_nonneg (K : Z) (x : Q) : 0 <= x -> (0 <= coefficient K x)%Z.
Proof.
  intros H. unfold coefficient. rewrite <- (rne_inject 0). apply rne_mono.
  apply Qle_shift_div_l; [apply pow2_pos|]. now rewrite Qmult_0_l.
Qed.

Lemma coefficient_mono (K : Z) (x y : Q) :
  x <= y -> (coefficient K x <= coefficient K y)%Z.
Proof.
  intros H. unfold coefficient. apply rne_mono. unfold Qdiv.
  apply Qmult_le_compat_r; [exact H|]. apply Qlt_le_weak, Qinv_lt_0_compat, pow2_pos.
Qed.

(** Rounding keeps the order of non-negative numbers, and a number below
    one that rounds to a finite value rounds to a finite value. *)
Lemma round32_mono (x1 x2 q2 : Q) :
  0 <= x1 -> x1 <= x2 -> round32 x2 = Fin q2 ->
  exists q1, round32 x1 = Fin q1 /\ 0 <= q1 /\ q1 <= q2.
Proof.
  intros H0 H12 E2. apply round32_Fin_iff in E2. destruct E2 as [K2 [L2 [B2 ->]]].
  assert (H02 : 0 <= x2) by (eapply Qle_trans; eassumption).
  pose proof (coefficient_nonneg K2 x1 H0) as C10.
  pose proof (coefficient_mono K2 x1 x2 H12) as C12.
  destruct L2 as [A1 [A2 A3]].
  assert (F1 : fits K2 x1 = true).
  { apply fits_spec. apply fits_spec in A2. lia. }
  destruct (least_fit_exists x1 K2 A1 F1) as [K1 [L1 HK]].
  pose proof (coefficient_nonneg K1 x1 H0) as C1.
  pose proof (coefficient_nonneg K2 x2 H02) as C2.
  assert (Hle : inject_Z (coefficient K1 x1) * pow2 K1
                <= inject_Z (coefficient K2 x2) * pow2 K2).
  { destruct (Z.eq_dec K1 K2) as [->|N].
    - apply Qmult_le_compat_r; [|apply Qlt_le_weak, pow2_pos].
      rewrite <- Zle_Qle. exact C12.
    - pose proof (next_coefficient (K2 - 1) x2 (A3 (K2 - 1)%Z
                    ltac:(destruct L1; lia))) as N2.
      replace (K2 - 1 + 1)%Z with K2 in N2 by lia.
      destruct L1 as [_ [F _]]. apply fits_spec in F.
      apply Qle_trans with (pow2 24 * pow2 K1).
      + apply Qmult_le_compat_r; [|apply Qlt_le_weak, pow2_pos].
        rewrite <- (pow2_inject 24) by lia. rewrite <- Zle_Qle. lia.
      + apply Qle_trans with (pow2 23 * pow2 K2).
        * rewrite <- !pow2_plus. apply pow2_le. lia.
        * apply Qmult_le_compat_r; [|apply Qlt_le_weak, pow2_pos].
          rewrite <- (pow2_inject 23) by lia. rewrite <- Zle_Qle. lia. }
  assert (Hpos : 0 <= inject_Z (coefficient K1 x1) * pow2 K1).
  { apply Qmult_le_0_compat; [|apply Qlt_le_weak, pow2_pos].
    rewrite <- (Zle_Qle 0). exact C1. }
  exists (Qred (inject_Z (coefficient K1 x1) * pow2 K1)). split; [|split].
  - apply round32_Fin_iff. exists K1. split; [exact L1|]. split; [|reflexivity].
    rewrite Qabs_pos by exact Hpos. eapply Qle_lt_trans; [exact Hle|].
    eapply Qle_lt_trans; [apply Qle_Qabs|exact B2].
  - now rewrite Qred_correct.
  - now rewrite !Qred_correct.
Qed.

(** A float32 value rounds to itself. *)
Lemma round32_idempotent (x q : Q) : round32 x = Fin q -> round32 q = Fin q.
Proof.
  intros E. apply round32_Fin_iff in E. destruct E as [K [[A1 [A2 A3]] [B Eq]]].
  set (c := coefficient K x) in *.
  assert (Hq : q == inject_Z c * pow2 K) by (rewrite Eq; apply Qred_correct).
  assert (Hp : forall j, pow2 K == pow2 (K - j) * pow2 j).
  { intros j. rewrite <- pow2_plus. replace (K - j + j)%Z with K by lia. reflexivity. }
  assert (Hc : forall j, (j <= K)%Z -> coefficient j q = (c * 2 ^ (K - j))%Z).
  { intros j Hj. unfold coefficient. rewrite <- (rne_inject (c * 2 ^ (K - j))).
    apply rne_comp. rewrite Hq, inject_Z_mult, (pow2_inject (K - j)) by lia.
    rewrite (Hp j). field. apply pow2_nonzero. }
  assert (F : fits K q = true).
  { apply fits_spec. rewrite (Hc K) by lia. rewrite Z.sub_diag, Z.mul_1_r.
    now apply fits_spec in A2. }
  destruct (least_fit_exists q K A1 F) as [K' [L' HK']].
  assert (Hv : inject_Z (coefficient K' q) * pow2 K' == q).
  { rewrite (Hc K' HK'), Hq, inject_Z_mult, (pow2_inject (K - K')) by lia.
    rewrite (Hp K'). ring. }
  apply round32_Fin_iff. exists K'. split; [exact L'|]. split.
  - rewrite Hv, Hq. exact B.
  - transitivity (Qred (inject_Z c * pow2 K)); [exact Eq|].
    apply Qred_complete. rewrite Hv. symmetry. exact Hq.
Qed.

Lemma round32_zero (x : Q) : x == 0 -> round32 x = Fin 0.
Proof. intros E. rewrite (round32_comp x 0 E). reflexivity. Qed.

Lemma round32_one (x : Q) : x == 1 -> round32 x = Fin 1.
Proof. intros E. rewrite (round32_comp x 1 E). reflexivity. Qed.

End FloatFacts.

(** *** The arithmetic on finite numbers *)

Lemma sub_Fin (x y : Q) :
  Torch.sub (Torch.Fin x) (Torch.Fin y) = Torch.round32 (x - y).
Proof. reflexivity. Qed.

Lemma add_rounded (a b : Torch.scalar) (q : Q) :
  Torch.add a b = Torch.Fin q -> Torch.round32 q = Torch.Fin q.
Proof.
  destruct a as [x| | |], b as [y| | |]; try discriminate.
  apply FloatFacts.round32_idempotent.
Qed.

(** A float32 is a whole number of units [2^-149]. *)
Lemma float32_units (q : Q) :
  Torch.round32 q = Torch.Fin q -> exists m, (q == inject_Z m * Torch.pow2 (-149))%Q.
Proof.
  intros E. apply FloatFacts.round32_Fin_iff in E.
  destruct E as [K [[H1 _] [_ E]]].
  exists (Torch.coefficient K q * 2 ^ (K + 149))%Z.
  rewrite E at 1. rewrite Qred_correct, inject_Z_mult.
  rewrite (FloatFacts.pow2_inject (K + 149)) by lia.
  rewrite <- Qmult_assoc, <- FloatFacts.pow2_plus.
  replace (K + 149 + -149)%Z with K by lia. reflexivity.
Qed.

(** Two different float32 numbers have a difference that does not round
    to zero. *)
Lemma float32_difference (a b d : Q) :
  Torch.round32 a = Torch.Fin a -> Torch.round32 b = Torch.Fin b ->
  (b <= a)%Q -> ~ (a == b)%Q ->
  Torch.sub (Torch.Fin a) (Torch.Fin b) = Torch.Fin d -> (0 < d)%Q.
Proof.
  intros Ha Hb Hle Hne E. rewrite sub_Fin in E.
  destruct (float32_units a Ha) as [ma Ea]. destruct (float32_units b Hb) as [mb Eb].
  pose proof (FloatFacts.pow2_pos (-149)) as P.
  assert (Hm : (mb < ma)%Z).
  { destruct (Z_lt_le_dec mb ma) as [H|H]; [exact H|]. exfalso. apply Hne.
    apply Qle_antisym; [|exact Hle]. rewrite Ea, Eb.
    apply Qmult_le_compat_r; [|now apply Qlt_le_weak]. rewrite <- Zle_Qle. exact H. }
  assert (Hu : (Torch.pow2 (-149) <= a - b)%Q).
  { rewrite Ea, Eb.
    setoid_replace (inject_Z ma * Torch.pow2 (-149) - inject_Z mb * Torch.pow2 (-149))%Q
      with (inject_Z (ma - mb) * Torch.pow2 (-149))%Q
      by (unfold Z.sub; rewrite inject_Z_plus, inject_Z_opp; ring).
    rewrite <- (Qmult_1_l (Torch.pow2 (-149))) at 1.
    apply Qmult_le_compat_r; [|now apply Qlt_le_weak].
    rewrite <- (Zle_Qle 1). lia. }
  destruct (FloatFacts.round32_mono (Torch.pow2 (-149)) (a - b) d
              (Qlt_le_weak _ _ P) Hu E) as [q [Eq [_ Hq]]].
  assert (Eu : exists u, Torch.round32 (Torch.pow2 (-149)) = Torch.Fin u /\ (0 < u)%Q).
  { eexists. split; [vm_compute; reflexivity|reflexivity]. }
  destruct Eu as [u [Eu Pu]]. rewrite Eu in Eq. inversion Eq; subst q.
  eapply Qlt_le_trans; [exact Pu|exact Hq].
Qed.
(** ** The loader/transformer *)

Lemma in_range_cons (n : nat) (s : list nat) (i : nat) (idx : list nat) :
  Tensor.in_range (n :: s) (i :: idx) <-> i < n /\ Tensor.in_range s idx.
Proof.
  unfold Tensor.in_range. simpl. rewrite in_flat_map. split.
  - intros [j [Hj Hin]]. apply in_map_iff in Hin. destruct Hin as [t [Heq Ht]].
    inversion Heq; subst. apply in_seq in Hj. split; [lia|assumption].
  - intros [Hi Hin]. exists i. split; [apply in_seq; lia|]. now apply in_map.
Qed.

Lemma in_range_nil_cons (n : nat) (s : list nat) : ~ Tensor.in_range (n :: s) [].
Proof.
  unfold Tensor.in_range. simpl. rewrite in_flat_map. intros [j [_ Hin]].
  apply in_map_iff in Hin. destruct Hin as [t [Heq _]]. discriminate.
Qed.

Lemma in_range_3 (a b c i j k : nat) :
  Tensor.in_range [a; b; c] [i; j; k] <-> i < a /\ j < b /\ k < c.
Proof.
  rewrite !in_range_cons. unfold Tensor.in_range. simpl. intuition.
Qed.

Lemma in_range_3_inv (a b c : nat) (idx : list nat) :
  Tensor.in_range [a; b; c] idx ->
  exists i j k, idx = [i; j; k] /\ i < a /\ j < b /\ k < c.
Proof.
  intros Hin.
  destruct idx as [|i idx]; [now apply in_range_nil_cons in Hin|].
  apply in_range_cons in Hin. destruct Hin as [Hi Hin].
  destruct idx as [|j idx]; [now apply in_range_nil_cons in Hin|].
  apply in_range_cons in Hin. destruct Hin as [Hj Hin].
  destruct idx as [|k idx]; [now apply in_range_nil_cons in Hin|].
  apply in_range_cons in Hin. destruct Hin as [Hk Hin].
  unfold Tensor.in_range in Hin. cbn in Hin. destruct Hin as [<-|[]].
  exists i, j, k. repeat split; assumption.
Qed.

Lemma in_elements {A} (x : Tensor.t A) (idx : list nat) :
  Tensor.in_range (Tensor.shape x) idx -> In (Tensor.get x idx) (Tensor.elements x).
Proof. intros H. unfold Tensor.elements. now apply in_map. Qed.

(** *** [min] and [max] *)

Lemma lt_Fin (x y : Q) : Torch.lt (Torch.Fin x) (Torch.Fin y) = true <-> (x < y)%Q.
Proof.
  cbn. destruct (x ?= y)%Q eqn:E; split; intros H; try discriminate; try reflexivity.
  - apply Qeq_alt in E. rewrite E in H. now apply Qlt_irrefl in H.
  - now apply Qlt_alt.
  - apply Qgt_alt in E. exfalso. apply (Qlt_irrefl x). eapply Qlt_trans; eassumption.
Qed.

Lemma lt_Fin_false (x y : Q) : Torch.lt (Torch.Fin x) (Torch.Fin y) = false <-> (y <= x)%Q.
Proof.
  rewrite <- not_true_iff_false, lt_Fin. split.
  - apply Qnot_lt_le.
  - intros H C. apply (Qlt_irrefl x). eapply Qlt_le_trans; eassumption.
Qed.

Lemma min2_cases (a b : Torch.scalar) :
  Torch.min2 a b = Torch.NaN \/ Torch.min2 a b = a \/ Torch.min2 a b = b.
Proof.
  destruct a, b; cbn; auto; destruct (_ ?= _)%Q; auto.
Qed.

Lemma max2_cases (a b : Torch.scalar) :
  Torch.max2 a b = Torch.NaN \/ Torch.max2 a b = a \/ Torch.max2 a b = b.
Proof.
  destruct a, b; cbn; auto; destruct (_ ?= _)%Q; auto.
Qed.

Lemma min2_at_least (lo : Q) (a b : Torch.scalar) :
  Torch.at_least lo (Torch.min2 a b) -> Torch.at_least lo a /\ Torch.at_least lo b.
Proof.
  destruct a as [x| | |], b as [y| | |]; cbn [Torch.min2 Torch.at_least];
    try (cbn; tauto).
  destruct (Torch.lt (Torch.Fin y) (Torch.Fin x)) eqn:E; cbn [Torch.at_least]; intros H.
  - apply lt_Fin in E. split; [|exact H].
    apply Qle_trans with y; [exact H|now apply Qlt_le_weak].
  - apply lt_Fin_false in E. split; [exact H|]. eapply Qle_trans; eassumption.
Qed.

Lemma max2_at_most (hi : Q) (a b : Torch.scalar) :
  Torch.at_most hi (Torch.max2 a b) -> Torch.at_most hi a /\ Torch.at_most hi b.
Proof.
  destruct a as [x| | |], b as [y| | |]; cbn [Torch.max2 Torch.at_most];
    try (cbn; tauto).
  destruct (Torch.lt (Torch.Fin x) (Torch.Fin y)) eqn:E; cbn [Torch.at_most]; intros H.
  - apply lt_Fin in E. split; [|exact H].
    apply Qle_trans with y; [now apply Qlt_le_weak|exact H].
  - apply lt_Fin_false in E. split; [exact H|]. eapply Qle_trans; eassumption.
Qed.

Lemma fold_min2_Fin (l : list Torch.scalar) (a : Torch.scalar) (lo : Q) :
  fold_left Torch.min2 l a = Torch.Fin lo ->
  In (Torch.Fin lo) (a :: l) /\ forall s, In s (a :: l) -> Torch.at_least lo s.
Proof.
  revert a. induction l as [|b l IH]; intros a E; cbn [fold_left] in E.
  - subst a. split; [now left|]. intros s [<-|[]]. cbn. apply Qle_refl.
  - destruct (IH _ E) as [Hin Hall].
    destruct (min2_at_least lo a b (Hall _ (or_introl eq_refl))) as [Ha Hb].
    split.
    + destruct Hin as [Hm|Hin]; [|right; right; exact Hin].
      destruct (min2_cases a b) as [C|[C|C]]; rewrite C in Hm;
        [discriminate|left; exact Hm|right; left; exact Hm].
    + intros s [<-|[<-|Hs]]; [exact Ha|exact Hb|]. apply Hall. now right.
Qed.

Lemma fold_max2_Fin (l : list Torch.scalar) (a : Torch.scalar) (hi : Q) :
  fold_left Torch.max2 l a = Torch.Fin hi ->
  In (Torch.Fin hi) (a :: l) /\ forall s, In s (a :: l) -> Torch.at_most hi s.
Proof.
  revert a. induction l as [|b l IH]; intros a E; cbn [fold_left] in E.
  - subst a. split; [now left|]. intros s [<-|[]]. cbn. apply Qle_refl.
  - destruct (IH _ E) as [Hin Hall].
    destruct (max2_at_most hi a b (Hall _ (or_introl eq_refl))) as [Ha Hb].
    split.
    + destruct Hin as [Hm|Hin]; [|right; right; exact Hin].
      destruct (max2_cases a b) as [C|[C|C]]; rewrite C in Hm;
        [discriminate|left; exact Hm|right; left; exact Hm].
    + intros s [<-|[<-|Hs]]; [exact Ha|exact Hb|]. apply Hall. now right.
Qed.

Lemma min_is_lower_bound (x : Tensor.t Torch.scalar) (lo : Q) (idx : list nat) :
  Torch.min x = Py.Ok (Torch.Fin lo) -> Tensor.in_range (Tensor.shape x) idx ->
  Torch.at_least lo (Tensor.get x idx).
Proof.
  unfold Torch.min. intros H Hin. apply in_elements in Hin.
  destruct (Tensor.elements x) as [|a l]; [discriminate|].
  injection H as E. exact (proj2 (fold_min2_Fin l a lo E) _ Hin).
Qed.

Lemma max_is_upper_bound (x : Tensor.t Torch.scalar) (hi : Q) (idx : list nat) :
  Torch.max x = Py.Ok (Torch.Fin hi) -> Tensor.in_range (Tensor.shape x) idx ->
  Torch.at_most hi (Tensor.get x idx).
Proof.
  unfold Torch.max. intros H Hin. apply in_elements in Hin.
  destruct (Tensor.elements x) as [|a l]; [discriminate|].
  injection H as E. exact (proj2 (fold_max2_Fin l a hi E) _ Hin).
Qed.

(** With a finite minimum and a finite maximum every element is a finite
    number between them. *)
Lemma extremes_finite (x : Tensor.t Torch.scalar) (lo hi : Q) (idx : list nat) :
  Torch.min x = Py.Ok (Torch.Fin lo) -> Torch.max x = Py.Ok (Torch.Fin hi) ->
  Tensor.in_range (Tensor.shape x) idx ->
  exists v, Tensor.get x idx = Torch.Fin v /\ (lo <= v)%Q /\ (v <= hi)%Q.
Proof.
  intros Hlo Hhi Hin.
  pose proof (min_is_lower_bound x lo idx Hlo Hin) as A.
  pose proof (max_is_upper_bound x hi idx Hhi Hin) as B.
  destruct (Tensor.get x idx) as [v| | |]; cbn in A, B; try contradiction.
  exists v. auto.
Qed.

Lemma min_attained (x : Tensor.t Torch.scalar) (lo : Q) :
  Torch.min x = Py.Ok (Torch.Fin lo) ->
  exists i, Tensor.in_range (Tensor.shape x) i /\ Tensor.get x i = Torch.Fin lo.
Proof.
  unfold Torch.min, Tensor.in_range. intros H.
  assert (Hin : In (Torch.Fin lo) (Tensor.elements x)).
  { destruct (Tensor.elements x) as [|a l]; [discriminate|].
    injection H as E. exact (proj1 (fold_min2_Fin l a lo E)). }
  unfold Tensor.elements in Hin. apply in_map_iff in Hin.
  destruct Hin as [i [E Hi]]. now exists i.
Qed.

Lemma max_attained (x : Tensor.t Torch.scalar) (hi : Q) :
  Torch.max x = Py.Ok (Torch.Fin hi) ->
  exists i, Tensor.in_range (Tensor.shape x) i /\ Tensor.get x i = Torch.Fin hi.
Proof.
  unfold Torch.max, Tensor.in_range. intros H.
  assert (Hin : In (Torch.Fin hi) (Tensor.elements x)).
  { destruct (Tensor.elements x) as [|a l]; [discriminate|].
    injection H as E. exact (proj1 (fold_max2_Fin l a hi E)). }
  unfold Tensor.elements in Hin. apply in_map_iff in Hin.
  destruct Hin as [i [E Hi]]. now exists i.
Qed.

Lemma min_max_defined (x : Tensor.t Torch.scalar) :
  Tensor.elements x <> [] -> exists lo hi, Torch.min x = Py.Ok lo /\ Torch.max x = Py.Ok hi.
Proof.
  unfold Torch.min, Torch.max. destruct (Tensor.elements x) as [|a l]; [congruence|].
  intros _. eauto.
Qed.

(** A cube whose extremes coincide is constant. *)
Lemma extremes_equal_constant (x : Tensor.t Torch.scalar) (lo hi : Q) :
  Torch.min x = Py.Ok (Torch.Fin lo) -> Torch.max x = Py.Ok (Torch.Fin hi) ->
  (hi == lo)%Q -> constant_valued x.
Proof.
  intros Hlo Hhi Heq i j Hi Hj.
  destruct (extremes_finite x lo hi i Hlo Hhi Hi) as [v [-> [A1 A2]]].
  destruct (extremes_finite x lo hi j Hlo Hhi Hj) as [w [-> [B1 B2]]].
  cbn. rewrite Heq in A2, B2. apply Qle_antisym; eapply Qle_trans; eauto.
Qed.

Lemma normalize_unfold (x : Tensor.t Torch.scalar) (lo hi : Torch.scalar) :
  Torch.min x = Py.Ok lo -> Torch.max x = Py.Ok hi ->
  normalize x
  = Py.Ok (Tensor.map_elts (fun v => Torch.div (Torch.sub v lo) (Torch.sub hi lo)) x).
Proof. intros Hlo Hhi. unfold normalize. rewrite Hlo, Hhi. reflexivity. Qed.

(** Equal extremes: the divisor is the float32 zero, and every element is
    divided by it after the minimum is taken off. *)
Lemma zero_divisor (lo hi : Q) :
  (hi == lo)%Q -> Torch.sub (Torch.Fin hi) (Torch.Fin lo) = Torch.Fin 0.
Proof. intros Heq. rewrite sub_Fin. apply FloatFacts.round32_zero. rewrite Heq. ring. Qed.

Lemma quotients_nan (cube : Tensor.t Torch.scalar) (lo hi : Q) (i : list nat) :
  Torch.min cube = Py.Ok (Torch.Fin lo) -> Torch.max cube = Py.Ok (Torch.Fin hi) ->
  (hi == lo)%Q -> Tensor.in_range (Tensor.shape cube) i ->
  Torch.div (Torch.sub (Tensor.get cube i) (Torch.Fin lo))
    (Torch.sub (Torch.Fin hi) (Torch.Fin lo)) = Torch.NaN.
Proof.
  intros Hlo Hhi Heq Hi. rewrite (zero_divisor lo hi Heq).
  destruct (extremes_finite cube lo hi i Hlo Hhi Hi) as [v [-> [A B]]].
  rewrite sub_Fin, (FloatFacts.round32_zero (v - lo)); [reflexivity|].
  assert (v == lo)%Q by (apply Qle_antisym; [now rewrite <- Heq|assumption]).
  rewrite H. ring.
Qed.

(** C4: when the resized cube's global maximum equals its global minimum,
    the divisor of the normalization is zero and, nothing guarding it, every
    element of the result is the NaN of 0 / 0; no exception is raised. *)
Theorem normalize_divides_by_zero (cube : Tensor.t Torch.scalar) (lo hi : Q) :
  Torch.min cube = Py.Ok (Torch.Fin lo) -> Torch.max cube = Py.Ok (Torch.Fin hi) ->
  (hi == lo)%Q ->
  exists d out,
    normalize_divisor cube = Py.Ok (Torch.Fin d) /\ (d == 0)%Q
    /\ normalize cube = Py.Ok out
    /\ Tensor.shape out = Tensor.shape cube
    /\ forall i, Tensor.in_range (Tensor.shape cube) i -> Tensor.get out i = Torch.NaN.
Proof.
  intros Hlo Hhi Heq.
  exists 0%Q,
    (Tensor.map_elts
       (fun v => Torch.div (Torch.sub v (Torch.Fin lo))
                   (Torch.sub (Torch.Fin hi) (Torch.Fin lo))) cube).
  split; [|split; [reflexivity|split; [|split; [reflexivity|]]]].
  - unfold normalize_divisor. rewrite Hhi, Hlo. cbn [Py.bind].
    now rewrite (zero_divisor lo hi Heq).
  - now apply normalize_unfold.
  - intros i Hi. cbn [Tensor.map_elts Tensor.get].
    exact (quotients_nan cube lo hi i Hlo Hhi Heq Hi).
Qed.

Lemma normalize_divides_by_zero_witness :
  exists d out,
    normalize_divisor flat_cube = Py.Ok (Torch.Fin d) /\ (d == 0)%Q
    /\ normalize flat_cube = Py.Ok out
    /\ Tensor.shape out = Tensor.shape flat_cube
    /\ forall i, Tensor.in_range (Tensor.shape flat_cube) i -> Tensor.get out i = Torch.NaN.
Proof.
  apply (normalize_divides_by_zero flat_cube (3 # 4) (3 # 4)); reflexivity.
Defined.

(** *** The resize *)

(** The resized cube, element by element: each value is blended from four
    cells of the converted array. *)
Lemma resize_get (raw : Tensor.t Torch.scalar) (H W C : nat) :
  Tensor.shape raw = [H; W; C] -> 0 < H -> 0 < W -> 0 < C ->
  exists cube,
    resize raw = Py.Ok cube
    /\ Tensor.shape cube = [C; 32; 32]
    /\ forall c y z,
         Tensor.get cube [c; y; z]
         = Torch.add
             (Torch.mul (Torch.lambda0 (Torch.source_cell H 32 y))
                (Torch.add
                   (Torch.mul (Torch.lambda0 (Torch.source_cell W 32 z))
                      (Torch.float32
                         (Tensor.get raw [Torch.i0 (Torch.source_cell H 32 y);
                                          Torch.i0 (Torch.source_cell W 32 z); c])))
                   (Torch.mul (Torch.lambda1 (Torch.source_cell W 32 z))
                      (Torch.float32
                         (Tensor.get raw [Torch.i0 (Torch.source_cell H 32 y);
                                          Torch.i1 (Torch.source_cell W 32 z); c])))))
             (Torch.mul (Torch.lambda1 (Torch.source_cell H 32 y))
                (Torch.add
                   (Torch.mul (Torch.lambda0 (Torch.source_cell W 32 z))
                      (Torch.float32
                         (Tensor.get raw [Torch.i1 (Torch.source_cell H 32 y);
                                          Torch.i0 (Torch.source_cell W 32 z); c])))
                   (Torch.mul (Torch.lambda1 (Torch.source_cell W 32 z))
                      (Torch.float32
                         (Tensor.get raw [Torch.i1 (Torch.source_cell H 32 y);
                                          Torch.i1 (Torch.source_cell W 32 z); c]))))).
Proof.
  intros Hs HH HW HC. unfold resize, Torch.permute. cbn [Tensor.map_elts Tensor.shape].
  rewrite Hs.
  change (Torch.is_axis_permutation (List.length [H; W; C]) [2; 0; 1]) with true.
  cbv iota. cbn [Py.bind]. unfold Torch.interpolate_bilinear, Torch.unsqueeze0.
  cbn [Tensor.shape map nth].
  destruct (Nat.eqb (C * H * W) 0) eqn:E.
  - apply Nat.eqb_eq in E. apply Nat.eq_mul_0 in E. destruct E as [E|E]; [|lia].
    apply Nat.eq_mul_0 in E. lia.
  - cbn [Nat.eqb orb Py.bind]. eexists. split; [reflexivity|].
    split; [reflexivity|]. intros c y z. reflexivity.
Qed.

Lemma resize_returns (raw : Tensor.t Torch.scalar) (H W C : nat) :
  Tensor.shape raw = [H; W; C] -> 0 < H -> 0 < W -> 0 < C ->
  exists cube, resize raw = Py.Ok cube.
Proof.
  intros Hs HH HW HC.
  destruct (resize_get raw H W C Hs HH HW HC) as [cube [E _]]. eauto.
Qed.

Lemma resize_shape (raw cube : Tensor.t Torch.scalar) (H W C : nat) :
  Tensor.shape raw = [H; W; C] -> resize raw = Py.Ok cube ->
  Tensor.shape cube = [C; 32; 32].
Proof.
  intros Hs. unfold resize, Torch.permute. cbn [Tensor.map_elts Tensor.shape].
  rewrite Hs. cbn.
  destruct (Nat.eqb (C * H * W) 0); cbn; [discriminate|].
  intros E. inversion E. reflexivity.
Qed.

(** Every finite value of the resized cube is a float32. *)
Lemma resize_rounded (raw cube : Tensor.t Torch.scalar) (H W C : nat) (idx : list nat)
    (q : Q) :
  Tensor.shape raw = [H; W; C] -> 0 < H -> 0 < W -> 0 < C ->
  resize raw = Py.Ok cube -> Tensor.in_range (Tensor.shape cube) idx ->
  Tensor.get cube idx = Torch.Fin q -> Torch.round32 q = Torch.Fin q.
Proof.
  intros Hs HH HW HC Hcube Hin E.
  destruct (resize_get raw H W C Hs HH HW HC) as [cube' [Hcube' [Hshape Hget]]].
  rewrite Hcube in Hcube'. inversion Hcube'; subst cube'.
  rewrite Hshape in Hin. apply in_range_3_inv in Hin.
  destruct Hin as [c [y [z [-> _]]]]. rewrite Hget in E.
  exact (add_rounded _ _ q E).
Qed.

Lemma list_getitem_same_length {A B} (l : list A) (l' : list B) (idx : Z) (a : A) :
  List.length l = List.length l' -> Py.list_getitem l idx = Py.Ok a ->
  exists b, Py.list_getitem l' idx = Py.Ok b.
Proof.
  unfold Py.list_getitem. intros Hlen. rewrite <- Hlen.
  set (i := if (idx <? 0)%Z then (Z.of_nat (List.length l) + idx)%Z else idx).
  destruct ((0 <=? i)%Z && (i <? Z.of_nat (List.length l))%Z) eqn:Hr; [|discriminate].
  intros _. apply andb_prop in Hr.
  destruct (nth_error l' (Z.to_nat i)) as [b|] eqn:Hn; [now exists b|].
  apply nth_error_None in Hn. lia.
Qed.

Lemma resize_resized (raw cube : Tensor.t Torch.scalar) :
  resize raw = Py.Ok cube -> cube = resized raw.
Proof. intros E. unfold resized. rewrite E. reflexivity. Qed.

(** *** The normalization *)

(** Between a finite minimum and a finite maximum whose float32 difference
    is a positive number, the normalized value is a float32 in [0, 1]; the
    numerators keep the order of the values. *)
Lemma normalized_fraction (v w lo hi d : Q) :
  (lo <= v)%Q -> (v <= w)%Q -> (w <= hi)%Q ->
  Torch.sub (Torch.Fin hi) (Torch.Fin lo) = Torch.Fin d -> (0 < d)%Q ->
  exists p q,
    Torch.div (Torch.sub (Torch.Fin v) (Torch.Fin lo)) (Torch.Fin d) = Torch.Fin p
    /\ Torch.div (Torch.sub (Torch.Fin w) (Torch.Fin lo)) (Torch.Fin d) = Torch.Fin q
    /\ (0 <= p)%Q /\ (p <= q)%Q /\ (q <= 1)%Q.
Proof.
  intros Hlo Hvw Hhi Ed Hd. rewrite sub_Fin in Ed. rewrite !sub_Fin.
  assert (Hw0 : (0 <= w - lo)%Q) by lra.
  destruct (FloatFacts.round32_mono (w - lo) (hi - lo) d Hw0 ltac:(lra) Ed)
    as [nw [Ew [Hw1 Hw2]]].
  destruct (FloatFacts.round32_mono (v - lo) (w - lo) nw ltac:(lra) ltac:(lra) Ew)
    as [nv [Ev [Hv1 Hv2]]].
  rewrite Ew, Ev. cbn [Torch.div].
  assert (Hz : Qeq_bool d 0 = false).
  { apply not_true_iff_false. intros C. apply Qeq_bool_iff in C. rewrite C in Hd.
    discriminate. }
  rewrite Hz.
  assert (Q1 : (nw / d <= 1)%Q).
  { apply Qle_shift_div_r; [exact Hd|]. now rewrite Qmult_1_l. }
  assert (Q2 : (nv / d <= nw / d)%Q).
  { unfold Qdiv. apply Qmult_le_compat_r; [exact Hv2|].
    now apply Qlt_le_weak, Qinv_lt_0_compat. }
  assert (Q3 : (0 <= nv / d)%Q).
  { apply Qle_shift_div_l; [exact Hd|]. now rewrite Qmult_0_l. }
  destruct (FloatFacts.round32_mono (nw / d) 1 1 ltac:(lra) Q1 eq_refl)
    as [q [Eq [Hq1 Hq2]]].
  destruct (FloatFacts.round32_mono (nv / d) (nw / d) q Q3 Q2 Eq) as [p [Ep [Hp1 Hp2]]].
  exists p, q. auto.
Qed.

(** C2 (as the code has it): for a sample of the constructed dataset whose
    raw array has shape (H, W, C), is not empty, and whose cube after the
    conversion to float32 and the resize holds only finite values, is not
    constant, and has a difference max - min that does not overflow,
    [__getitem__] returns a tensor of shape (C, 32, 32), whatever H and W,
    with every value in [0, 1], paired with the entry's class index. *)
Theorem getitem_normalized (env : Env) (dir : string) (idx : Z) (path : string)
    (raw : Tensor.t Torch.scalar) (H W C : nat) :
  let self := HyperspectralDataset_init env dir in
  Py.list_getitem (file_paths self) idx = Py.Ok path ->
  np_load env path = Py.Ok raw ->
  Tensor.shape raw = [H; W; C] -> 0 < H -> 0 < W -> 0 < C ->
  (forall cube, resize raw = Py.Ok cube ->
     exists lo hi,
       Torch.min cube = Py.Ok (Torch.Fin lo) /\ Torch.max cube = Py.Ok (Torch.Fin hi)
       /\ ~ (hi == lo)%Q
       /\ Torch.sub (Torch.Fin hi) (Torch.Fin lo) <> Torch.PosInf) ->
  exists out label,
    HyperspectralDataset_getitem env self idx = Py.Ok (out, label)
    /\ Tensor.shape out = [C; 32; 32]
    /\ (forall i, Tensor.in_range [C; 32; 32] i -> Torch.in_unit_interval (Tensor.get out i))
    /\ Py.list_getitem (labels self) idx = Py.Ok label.
Proof.
  intros self Hpath Hload Hs HH HW HC Hvar.
  destruct (resize_returns raw H W C Hs HH HW HC) as [cube Hcube].
  pose proof (resize_shape raw cube H W C Hs Hcube) as Hshape.
  destruct (list_getitem_same_length (file_paths self) (labels self) idx path) as [label Hlabel].
  { apply init_lengths. }
  { exact Hpath. }
  destruct (Hvar cube Hcube) as [lo [hi [Hlo [Hhi [Hne Hfin]]]]].
  destruct (min_attained cube lo Hlo) as [il [Hil El]].
  destruct (max_attained cube hi Hhi) as [ih [Hih Eh]].
  assert (Hle : (lo <= hi)%Q).
  { destruct (extremes_finite cube lo hi il Hlo Hhi Hil) as [v [E [A B]]].
    rewrite El in E. inversion E; subst v. exact B. }
  assert (Hd : exists d, Torch.sub (Torch.Fin hi) (Torch.Fin lo) = Torch.Fin d /\ (0 < d)%Q).
  { destruct (FloatFacts.round32_cases (hi - lo)) as [O|[d E]].
    - exfalso. apply Hfin. rewrite sub_Fin, O. unfold Torch.overflow.
      replace (Qle_bool 0 (hi - lo)) with true; [reflexivity|].
      symmetry. apply Qle_bool_iff. lra.
    - exists d. rewrite sub_Fin. split; [exact E|].
      apply (float32_difference hi lo d).
      + exact (resize_rounded raw cube H W C ih hi Hs HH HW HC Hcube Hih Eh).
      + exact (resize_rounded raw cube H W C il lo Hs HH HW HC Hcube Hil El).
      + exact Hle.
      + exact Hne.
      + now rewrite sub_Fin. }
  destruct Hd as [d [Ed Hd]].
  exists (Tensor.map_elts
            (fun v => Torch.div (Torch.sub v (Torch.Fin lo))
                        (Torch.sub (Torch.Fin hi) (Torch.Fin lo))) cube), label.
  repeat split.
  - unfold HyperspectralDataset_getitem. rewrite Hpath. cbn [Py.bind].
    rewrite Hload. cbn [Py.bind]. rewrite Hcube. cbn [Py.bind].
    rewrite (normalize_unfold cube _ _ Hlo Hhi). cbn [Py.bind].
    fold self. rewrite Hlabel. reflexivity.
  - exact Hshape.
  - intros i Hi. rewrite <- Hshape in Hi. cbn [Tensor.map_elts Tensor.get].
    destruct (extremes_finite cube lo hi i Hlo Hhi Hi) as [v [-> [A B]]].
    rewrite Ed.
    destruct (normalized_fraction v v lo hi d A (Qle_refl v) B Ed Hd)
      as [p [q [Ep [_ [Hp [Hpq Hq]]]]]].
    rewrite Ep. cbn. split; [exact Hp|]. eapply Qle_trans; eassumption.
  - exact Hlabel.
Qed.

Lemma getitem_normalized_witness :
  exists out label,
    HyperspectralDataset_getitem two_sample_env
      (HyperspectralDataset_init two_sample_env "data") 1 = Py.Ok (out, label)
    /\ Tensor.shape out = [1; 32; 32]
    /\ (forall i, Tensor.in_range [1; 32; 32] i -> Torch.in_unit_interval (Tensor.get out i))
    /\ Py.list_getitem (labels (HyperspectralDataset_init two_sample_env "data")) 1
       = Py.Ok label.
Proof.
  apply (getitem_normalized two_sample_env "data" 1 "data/kochia_2.npy" ramp 2 2 1);
    try reflexivity; try lia.
  intros cube Hcube. apply resize_resized in Hcube. subst cube.
  exists 0%Q, 3%Q. split; [vm_compute; reflexivity|]. split; [vm_compute; reflexivity|].
  split; [discriminate|]. vm_compute. discriminate.
Defined.

(** C2, counterexample: a raw array that is not constant-valued (a row of
    alternating 0 and 1, 64 wide) resizes to the constant 1/2, and the loader
    returns NaN, which is outside [0, 1]. *)
Lemma striped_sample_leaves_unit_interval :
  Tensor.shape stripes = [1; 64; 1]
  /\ ~ constant_valued stripes
  /\ exists out,
       HyperspectralDataset_getitem two_sample_env
         (HyperspectralDataset_init two_sample_env "data") 0 = Py.Ok (out, 0%Z)
       /\ Tensor.get out [0; 0; 0] = Torch.NaN
       /\ ~ Torch.in_unit_interval (Tensor.get out [0; 0; 0]).
Proof.
  split; [reflexivity|]. split.
  - intros Hc. specialize (Hc [0; 0; 0] [0; 1; 0]).
    assert (Hne : ~ (0 == 1)%Q) by discriminate.
    apply Hne. apply Hc; apply in_range_3; simpl; lia.
  - eexists. split; [reflexivity|].
    assert (E : forall v, v = Torch.NaN -> v = Torch.NaN /\ ~ Torch.in_unit_interval v).
    { intros v ->. split; [reflexivity|]. simpl. tauto. }
    apply E. vm_compute. reflexivity.
Qed.

(** ** The classifier's shapes *)

(** What [flatten] yields for a batch of [b] cubes of shape (bands, 32, 32):
    the kernel (3, 3, 10) meets the axes (band, height, width) in that
    order. *)
Lemma flattened_shape_cases (k b bands : N) :
  flattened_shape (HyperspectralCNN_init k) [b; bands; 32; 32]%N
  = if (bands <? 3)%N
    then Py.Raise (Py.RuntimeError "Kernel size can't be greater than actual input size")
    else if (bands - 3 + 1 <? 2)%N
    then Py.Raise (Py.RuntimeError "Output size is too small")
    else if ((bands - 3 + 1 - 2) / 2 + 1 <? 3)%N
    then Py.Raise (Py.RuntimeError "Kernel size can't be greater than actual input size")
    else Py.Ok [b; 64 * (((bands - 3 + 1 - 2) / 2 + 1 - 3 + 1) * (13 * (2 * 1)))]%N.
Proof.
  unfold flattened_shape, HyperspectralCNN_init.
  cbn [nn.unsqueeze1_shape Py.bind conv1 pool1 conv2 nn.conv3d_shape nn.in_channels
       nn.out_channels N.eqb Pos.eqb].
  unfold nn.conv3d_spatial. cbn [nn.kernel_size nn.stride]. unfold nn.conv_out at 1.
  rewrite N.div_1_r.
  destruct (bands <? 3)%N; [reflexivity|].
  cbn [Py.bind]. change (nn.conv_out 32 3 1) with (Py.Ok 30%N : Py.result N).
  change (nn.conv_out 32 10 1) with (Py.Ok 23%N : Py.result N).
  cbn [Py.bind nn.maxpool3d_shape]. unfold nn.pool3d_spatial. cbn [nn.pool_kernel].
  unfold nn.pool_out at 1.
  destruct (bands - 3 + 1 <? 2)%N; [reflexivity|].
  cbn [Py.bind]. change (nn.pool_out 30 2) with (Py.Ok 15%N : Py.result N).
  change (nn.pool_out 23 2) with (Py.Ok 11%N : Py.result N).
  cbn [Py.bind nn.conv3d_shape nn.in_channels N.eqb Pos.eqb].
  unfold nn.conv3d_spatial. cbn [nn.kernel_size nn.stride nn.out_channels].
  unfold nn.conv_out at 1. rewrite N.div_1_r.
  destruct ((bands - 3 + 1 - 2) / 2 + 1 <? 3)%N; [reflexivity|].
  cbn [Py.bind]. change (nn.conv_out 15 3 1) with (Py.Ok 13%N : Py.result N).
  change (nn.conv_out 11 10 1) with (Py.Ok 2%N : Py.result N).
  reflexivity.
Qed.

(** C6 (the code departs from it): with 224 bands the flattened feature
    count is 64 * 109 * 13 * 2 = 181376, not 64 * 15 * 15 * 53 = 763200; no
    band count makes the two agree, so [forward] always raises, at [fc1] when
    not before. *)
Theorem fc1_in_features_mismatch :
  derived_features 224 = Py.Ok 181376%N
  /\ fc1_in_features = 763200%N
  /\ forward_shape (HyperspectralCNN_init 7) [4; 224; 32; 32]%N
     = Py.Raise (Py.RuntimeError "mat1 and mat2 shapes cannot be multiplied")
  /\ forall k b bands : N,
       Py.raises (forward_shape (HyperspectralCNN_init k) [b; bands; 32; 32]%N).
Proof.
  split; [vm_compute; reflexivity|]. split; [vm_compute; reflexivity|].
  split; [vm_compute; reflexivity|].
  intros k b bands. unfold forward_shape. rewrite flattened_shape_cases.
  destruct (bands <? 3)%N; [exact I|].
  destruct (bands - 3 + 1 <? 2)%N; [exact I|].
  destruct ((bands - 3 + 1 - 2) / 2 + 1 <? 3)%N; [exact I|].
  cbn [Py.bind]. unfold nn.linear_shape. cbn [rev app fc1 HyperspectralCNN_init nn.in_features].
  set (d := ((bands - 3 + 1 - 2) / 2 + 1 - 3 + 1)%N).
  destruct (N.eqb (64 * (d * (13 * (2 * 1)))) fc1_in_features) eqn:E; [|exact I].
  apply N.eqb_eq in E. unfold fc1_in_features in E. exfalso. lia.
Qed.

(** ** The training loop *)

Section TrainingLoop.

Variable F : Framework.

Lemma batch_step_state (ph : phase) (s : state F) (l : Q) (c : corrects) (b : batch F) :
  fst (fst (batch_step ph (s, l, c) b)) = after_batch ph s b.
Proof.
  unfold after_batch, batch_step.
  destruct (model_call F (training s) (params s) (gen s) b) as [outputs r].
  destruct (phase_eqb ph Train); [|reflexivity].
  destruct (optimizer_step F (opt s) (params s)
              (backward F (params s) (gen s) b (zero_grad F (grads s)))).
  reflexivity.
Qed.

Lemma batch_step_loss (ph : phase) (s : state F) (l : Q) (c : corrects) (b : batch F) :
  snd (fst (batch_step ph (s, l, c) b))
  = (l + criterion F (fst (model_call F (training s) (params s) (gen s) b)) b
         * Torch.Qnat (batch_size F b))%Q.
Proof.
  unfold batch_step.
  destruct (model_call F (training s) (params s) (gen s) b) as [outputs r].
  reflexivity.
Qed.

Lemma batch_step_corrects (ph : phase) (s : state F) (l : Q) (c : corrects) (b : batch F) :
  snd (batch_step ph (s, l, c) b)
  = LongTensor (corrects_value c
                + count_correct F (fst (model_call F (training s) (params s) (gen s) b)) b).
Proof.
  unfold batch_step.
  destruct (model_call F (training s) (params s) (gen s) b) as [outputs r].
  reflexivity.
Qed.

(** The batch loop: the state it leaves and the two sums it accumulates. *)
Lemma batch_loop (ph : phase) (bs : list (batch F)) (s : state F) (l : Q) (c : corrects) :
  let out := fold_left (batch_step ph) bs (s, l, c) in
  fst (fst out) = fold_left (after_batch ph) bs s
  /\ (snd (fst out) == l + scaled_loss_sum (batch_records ph s bs))%Q
  /\ corrects_value (snd out) = (corrects_value c + correct_sum (batch_records ph s bs))%Z
  /\ (bs <> [] -> snd out = LongTensor (corrects_value (snd out))).
Proof.
  revert s l c. induction bs as [|b bs IH]; intros s l c; cbn [fold_left batch_records].
  - cbn. repeat split; try ring. congruence.
  - pose proof (batch_step_state ph s l c b) as Hs.
    pose proof (batch_step_loss ph s l c b) as Hl.
    pose proof (batch_step_corrects ph s l c b) as Hc.
    destruct (batch_step ph (s, l, c) b) as [[s1 l1] c1]. cbn [fst snd] in Hs, Hl, Hc.
    subst s1 l1 c1.
    destruct (IH (after_batch ph s b)
                 (l + criterion F (fst (model_call F (training s) (params s) (gen s) b)) b
                      * Torch.Qnat (batch_size F b))%Q
                 (LongTensor (corrects_value c
                    + count_correct F (fst (model_call F (training s) (params s) (gen s) b)) b)))
      as [IHs [IHl [IHc IHt]]].
    cbv zeta. split; [exact IHs|]. split; [|split].
    + rewrite IHl. unfold scaled_loss_sum. cbn [fold_right fst snd]. ring.
    + rewrite IHc. unfold correct_sum. cbn [fold_right fst snd corrects_value]. lia.
    + intros _. destruct bs as [|b' bs'].
      * reflexivity.
      * apply IHt. discriminate.
Qed.

(** One phase returns, with the metrics the specification words. *)
Lemma run_phase_metrics (ph : phase) (s : state F) (loader : DataLoader F) (epoch : nat) :
  0 < dataset_len loader -> batches loader epoch <> [] ->
  exists epoch_loss epoch_acc,
    run_phase ph s loader epoch = Py.Ok (after_phase ph s loader epoch, epoch_loss, epoch_acc)
    /\ (epoch_loss == epoch_loss_of ph s loader epoch)%Q
    /\ (epoch_acc == epoch_acc_of ph s loader epoch)%Q.
Proof.
  intros Hlen Hbs. unfold run_phase, epoch_loss_of, epoch_acc_of, after_phase.
  set (s0 := set_training (phase_eqb ph Train) s).
  destruct (batch_loop ph (batches loader epoch) s0 0%Q (PyInt 0)) as [Hs [Hl [Hc Ht]]].
  destruct (fold_left (batch_step ph) (batches loader epoch) (s0, 0%Q, PyInt 0))
    as [[s1 l1] c1].
  cbn [fst snd] in Hs, Hl, Hc, Ht. specialize (Ht Hbs).
  unfold float_div. destruct (Nat.eqb (dataset_len loader) 0) eqn:E.
  { apply Nat.eqb_eq in E. lia. }
  cbn [Py.bind]. rewrite Ht. cbn [corrects_double Py.bind].
  eexists. eexists. split; [rewrite Hs; reflexivity|]. split.
  - rewrite Hl. rewrite Qplus_0_l. reflexivity.
  - rewrite Hc. cbn [corrects_value]. rewrite Z.add_0_l. reflexivity.
Qed.


Lemma epoch_step_metrics (dataloaders : phase -> DataLoader F) (s : state F)
    (train_loss val_acc : list Q) (epoch : nat) :
  (forall ph, 0 < dataset_len (dataloaders ph)) ->
  (forall ph, batches (dataloaders ph) epoch <> []) ->
  exists epoch_loss epoch_acc,
    epoch_step dataloaders (Py.Ok (s, train_loss, val_acc)) epoch
    = Py.Ok (after_phase Val (after_phase Train s (dataloaders Train) epoch)
               (dataloaders Val) epoch,
             train_loss ++ [epoch_loss], val_acc ++ [epoch_acc])
    /\ (epoch_loss == epoch_loss_of Train s (dataloaders Train) epoch)%Q
    /\ (epoch_acc == epoch_acc_of Val (after_phase Train s (dataloaders Train) epoch)
                       (dataloaders Val) epoch)%Q.
Proof.
  intros Hlen Hbs. unfold epoch_step. cbn [fold_left].
  destruct (run_phase_metrics Train s (dataloaders Train) epoch (Hlen Train) (Hbs Train))
    as [l1 [a1 [E1 [Hl1 _]]]].
  destruct (run_phase_metrics Val (after_phase Train s (dataloaders Train) epoch)
              (dataloaders Val) epoch (Hlen Val) (Hbs Val))
    as [l2 [a2 [E2 [_ Ha2]]]].
  exists l1, a2. split; [|split; assumption].
  unfold phase_step at 2. cbn [Py.bind]. rewrite E1. cbn [Py.bind phase_eqb].
  unfold phase_step. cbn [Py.bind]. rewrite E2. reflexivity.
Qed.

Lemma epoch_loop (model : state F) (dataloaders : phase -> DataLoader F) (n : nat) :
  (forall ph, 0 < dataset_len (dataloaders ph)) ->
  (forall ph e, e < n -> batches (dataloaders ph) e <> []) ->
  exists train_loss val_acc,
    fold_left (epoch_step dataloaders) (seq 0 n) (Py.Ok (model, [], []))
    = Py.Ok (epoch_start model dataloaders n, train_loss, val_acc)
    /\ Forall2 Qeq train_loss
         (map (fun e => epoch_loss_of Train (epoch_start model dataloaders e)
                          (dataloaders Train) e) (seq 0 n))
    /\ Forall2 Qeq val_acc
         (map (fun e => epoch_acc_of Val
                          (after_phase Train (epoch_start model dataloaders e)
                             (dataloaders Train) e)
                          (dataloaders Val) e) (seq 0 n)).
Proof.
  intros Hlen. induction n as [|n IH]; intros Hbs.
  - exists [], []. repeat split; constructor.
  - destruct IH as [tl [va [E [Htl Hva]]]].
    { intros ph e He. apply Hbs. lia. }
    destruct (epoch_step_metrics dataloaders (epoch_start model dataloaders n) tl va n Hlen)
      as [l [a [E' [Hl Ha]]]].
    { intros ph. apply Hbs. lia. }
    exists (tl ++ [l]), (va ++ [a]).
    rewrite seq_S, fold_left_app, E. cbn [fold_left Nat.add]. rewrite E'.
    rewrite !map_app. cbn [map epoch_start].
    repeat split; apply Forall2_app; try assumption; repeat constructor; assumption.
Qed.

(** C7: in every epoch and for each phase the epoch loss is the running
    loss (each batch's loss scaled by its batch size, summed) divided by the
    subset size and the epoch accuracy is the running correct count divided
    by the subset size; the train phase appends its epoch loss to the loss
    history, the val phase its epoch accuracy to the accuracy history, and
    both histories are returned with one entry per epoch. *)
Theorem train_model_histories (model : state F) (dataloaders : phase -> DataLoader F)
    (num_epochs : nat) :
  (forall ph, 0 < dataset_len (dataloaders ph)) ->
  (forall ph e, e < num_epochs -> batches (dataloaders ph) e <> []) ->
  (forall ph s train_loss val_acc e, e < num_epochs ->
     exists epoch_loss epoch_acc,
       run_phase ph s (dataloaders ph) e
       = Py.Ok (after_phase ph s (dataloaders ph) e, epoch_loss, epoch_acc)
       /\ (epoch_loss == epoch_loss_of ph s (dataloaders ph) e)%Q
       /\ (epoch_acc == epoch_acc_of ph s (dataloaders ph) e)%Q
       /\ phase_step dataloaders e (Py.Ok (s, train_loss, val_acc)) ph
          = Py.Ok (after_phase ph s (dataloaders ph) e,
                   match ph with Train => train_loss ++ [epoch_loss] | Val => train_loss end,
                   match ph with Train => val_acc | Val => val_acc ++ [epoch_acc] end))
  /\ exists train_loss val_acc,
       train_model model dataloaders num_epochs
       = Py.Ok (epoch_start model dataloaders num_epochs, train_loss, val_acc)
       /\ List.length train_loss = num_epochs
       /\ List.length val_acc = num_epochs
       /\ Forall2 Qeq train_loss
            (map (fun e => epoch_loss_of Train (epoch_start model dataloaders e)
                             (dataloaders Train) e) (seq 0 num_epochs))
       /\ Forall2 Qeq val_acc
            (map (fun e => epoch_acc_of Val
                             (after_phase Train (epoch_start model dataloaders e)
                                (dataloaders Train) e)
                             (dataloaders Val) e) (seq 0 num_epochs)).
Proof.
  intros Hlen Hbs. split.
  - intros ph s tl va e He.
    destruct (run_phase_metrics ph s (dataloaders ph) e (Hlen ph) (Hbs ph e He))
      as [l [a [E [Hl Ha]]]].
    exists l, a. repeat split; try assumption.
    unfold phase_step. cbn [Py.bind]. rewrite E. destruct ph; reflexivity.
  - destruct (epoch_loop model dataloaders num_epochs Hlen Hbs) as [tl [va [E [Htl Hva]]]].
    exists tl, va. unfold train_model, Py.range. rewrite Nat.sub_0_r.
    split; [exact E|].
    split; [rewrite (Forall2_length Htl), length_map, length_seq; reflexivity|].
    split; [rewrite (Forall2_length Hva), length_map, length_seq; reflexivity|].
    split; assumption.
Qed.

(** C8: the val phase leaves the parameter values as it found them, batch
    by batch, phase by phase and epoch by epoch; in the train phase they are
    what the optimizer step returns. *)
Theorem validation_preserves_parameters :
  (forall (s : state F) (b : batch F), params (after_batch Val s b) = params s)
  /\ (forall (s : state F) (loader : DataLoader F) (epoch : nat),
        params (after_phase Val s loader epoch) = params s
        /\ match run_phase Val s loader epoch with
           | Py.Ok (s', _, _) => params s' = params s
           | Py.Raise _ => True
           end)
  /\ (forall (model : state F) (dataloaders : phase -> DataLoader F) (e : nat),
        params (epoch_start model dataloaders (S e))
        = params (after_phase Train (epoch_start model dataloaders e)
                    (dataloaders Train) e))
  /\ (forall (s : state F) (b : batch F),
        params (after_batch Train s b)
        = fst (optimizer_step F (opt s) (params s)
                 (backward F (params s) (gen s) b (zero_grad F (grads s))))).
Proof.
  assert (Hbatch : forall (s : state F) (b : batch F), params (after_batch Val s b) = params s).
  { intros s b. unfold after_batch, batch_step.
    destruct (model_call F (training s) (params s) (gen s) b). reflexivity. }
  assert (Hloop : forall (bs : list (batch F)) (s : state F),
             params (fold_left (after_batch Val) bs s) = params s).
  { induction bs as [|b bs IH]; intros s; cbn [fold_left]; [reflexivity|].
    rewrite IH. apply Hbatch. }
  assert (Hphase : forall (s : state F) (loader : DataLoader F) (epoch : nat),
             params (after_phase Val s loader epoch) = params s).
  { intros s loader epoch. unfold after_phase. rewrite Hloop. reflexivity. }
  split; [exact Hbatch|]. split; [|split].
  - intros s loader epoch. split; [apply Hphase|].
    unfold run_phase.
    pose proof (batch_loop Val (batches loader epoch) (set_training (phase_eqb Val Train) s)
                  0%Q (PyInt 0)) as [Hs _].
    destruct (fold_left (batch_step Val) (batches loader epoch)
                (set_training (phase_eqb Val Train) s, 0%Q, PyInt 0)) as [[s1 l1] c1].
    cbn [fst] in Hs. subst s1.
    destruct (float_div l1 (dataset_len loader)); [|exact I]. cbn [Py.bind].
    destruct (corrects_double c1); [|exact I]. cbn [Py.bind].
    rewrite Hloop. reflexivity.
  - intros model dataloaders e. cbn [epoch_start]. apply Hphase.
  - intros s b. unfold after_batch, batch_step.
    destruct (model_call F (training s) (params s) (gen s) b). cbn [phase_eqb].
    destruct (optimizer_step F (opt s) (params s)
                (backward F (params s) (gen s) b (zero_grad F (grads s)))).
    reflexivity.
Qed.

End TrainingLoop.

Lemma train_model_histories_witness :
  (forall ph s train_loss val_acc e, e < 2 ->
     exists epoch_loss epoch_acc,
       run_phase ph s (toy_loaders ph) e
       = Py.Ok (after_phase ph s (toy_loaders ph) e, epoch_loss, epoch_acc)
       /\ (epoch_loss == epoch_loss_of ph s (toy_loaders ph) e)%Q
       /\ (epoch_acc == epoch_acc_of ph s (toy_loaders ph) e)%Q
       /\ phase_step toy_loaders e (Py.Ok (s, train_loss, val_acc)) ph
          = Py.Ok (after_phase ph s (toy_loaders ph) e,
                   match ph with Train => train_loss ++ [epoch_loss] | Val => train_loss end,
                   match ph with Train => val_acc | Val => val_acc ++ [epoch_acc] end))
  /\ exists train_loss val_acc,
       train_model toy_model toy_loaders 2
       = Py.Ok (epoch_start toy_model toy_loaders 2, train_loss, val_acc)
       /\ List.length train_loss = 2
       /\ List.length val_acc = 2
       /\ Forall2 Qeq train_loss
            (map (fun e => epoch_loss_of Train (epoch_start toy_model toy_loaders e)
                             (toy_loaders Train) e) (seq 0 2))
       /\ Forall2 Qeq val_acc
            (map (fun e => epoch_acc_of Val
                             (after_phase Train (epoch_start toy_model toy_loaders e)
                                (toy_loaders Train) e)
                             (toy_loaders Val) e) (seq 0 2)).
Proof.
  apply (train_model_histories toy_framework toy_model toy_loaders 2).
  - intros [|]; simpl; lia.
  - intros [|] e _; discriminate.
Defined.

(** ** The stratified split *)

Module SplitFacts.

Import Sklearn.

(** *** [unique]: the distinct values *)

Lemma insert_unique_in (x z : Z) (l : list Z) :
  In z (insert_unique x l) <-> z = x \/ In z l.
Proof.
  induction l as [|y t IH]; cbn [insert_unique].
  - cbn. intuition.
  - destruct (x <? y)%Z eqn:E1; [cbn; intuition|].
    destruct (x =? y)%Z eqn:E2.
    + apply Z.eqb_eq in E2. subst y. cbn. intuition.
    + cbn [In]. rewrite IH. intuition.
Qed.

Lemma insert_unique_sorted (x : Z) (l : list Z) :
  StronglySorted Z.lt l -> StronglySorted Z.lt (insert_unique x l).
Proof.
  induction l as [|y t IH]; intros Hs; cbn [insert_unique].
  - repeat constructor.
  - inversion Hs as [|? ? Ht Hall]; subst.
    destruct (x <? y)%Z eqn:E1.
    + apply Z.ltb_lt in E1. constructor; [exact Hs|].
      constructor; [exact E1|]. rewrite Forall_forall in *. intros z Hz.
      specialize (Hall z Hz). lia.
    + destruct (x =? y)%Z eqn:E2; [exact Hs|].
      apply Z.ltb_ge in E1. apply Z.eqb_neq in E2.
      constructor; [apply IH, Ht|].
      rewrite Forall_forall in *. intros z Hz. apply insert_unique_in in Hz.
      destruct Hz as [->|Hz]; [lia|now apply Hall].
Qed.

Lemma unique_in (z : Z) (l : list Z) : In z (unique l) <-> In z l.
Proof.
  unfold unique. induction l as [|a l IH]; cbn [fold_right]; [reflexivity|].
  rewrite insert_unique_in, IH. cbn. intuition.
Qed.

Lemma unique_sorted (l : list Z) : StronglySorted Z.lt (unique l).
Proof.
  unfold unique. induction l as [|a l IH]; cbn [fold_right]; [constructor|].
  now apply insert_unique_sorted.
Qed.

Lemma sorted_lt_NoDup (l : list Z) : StronglySorted Z.lt l -> NoDup l.
Proof.
  induction 1 as [|a l Hs IH Hall]; constructor; [|exact IH].
  intros Hin. rewrite Forall_forall in Hall. specialize (Hall a Hin). lia.
Qed.

Lemma unique_NoDup (l : list Z) : NoDup (unique l).
Proof. apply sorted_lt_NoDup, unique_sorted. Qed.

(** *** Grouping positions by value *)

Lemma filter_filter_implied {A} (p q : A -> bool) (l : list A) :
  (forall x, q x = true -> p x = true) ->
  filter q (filter p l) = filter q l.
Proof.
  intros Himp. induction l as [|a l IH]; cbn [filter]; [reflexivity|].
  destruct (p a) eqn:Ep; cbn [filter].
  - now rewrite IH.
  - destruct (q a) eqn:Eq; [|exact IH]. apply Himp in Eq. congruence.
Qed.

Lemma filter_split_perm {A} (p : A -> bool) (l : list A) :
  Permutation l (filter p l ++ filter (fun x => negb (p x)) l).
Proof.
  induction l as [|a l IH]; cbn [filter]; [constructor|].
  destruct (p a); cbn [negb app].
  - now constructor.
  - now apply Permutation_cons_app.
Qed.

(** Grouping a list by the distinct values of a key loses and repeats
    nothing. *)
Lemma group_by_key_perm (key : nat -> Z) (vs : list Z) (l : list nat) :
  NoDup vs -> (forall i, In i l -> In (key i) vs) ->
  Permutation (List.concat (map (fun v => filter (fun i => (key i =? v)%Z) l) vs)) l.
Proof.
  intros Hnd. revert l. induction Hnd as [|v vs Hv Hnd IH]; intros l Hcov.
  - destruct l as [|i l]; [constructor|]. destruct (Hcov i); now left.
  - cbn [map List.concat].
    apply Permutation_trans
      with (filter (fun i => (key i =? v)%Z) l ++ filter (fun i => negb (key i =? v)%Z) l);
      [apply Permutation_app_head|symmetry; apply filter_split_perm].
    assert (E : map (fun v0 => filter (fun i => (key i =? v0)%Z) l) vs
              = map (fun v0 => filter (fun i => (key i =? v0)%Z)
                                 (filter (fun i => negb (key i =? v)%Z) l)) vs).
    { apply map_ext_in. intros v0 Hv0. symmetry. apply filter_filter_implied.
      intros i Hi. apply Z.eqb_eq in Hi. apply negb_true_iff, Z.eqb_neq.
      intros Heq. apply Hv. rewrite <- Heq, Hi. exact Hv0. }
    rewrite E. apply IH.
    intros i Hi. apply filter_In in Hi. destruct Hi as [Hi Hne].
    apply negb_true_iff, Z.eqb_neq in Hne.
    destruct (Hcov i Hi) as [Heq|Hin]; [congruence|exact Hin].
Qed.

Lemma where_eq_groups (a : list Z) (vs : list Z) :
  NoDup vs -> (forall z, In z a -> In z vs) ->
  Permutation (List.concat (map (where_eq a) vs)) (seq 0 (List.length a)).
Proof.
  intros Hnd Hcov. unfold where_eq.
  apply (group_by_key_perm (fun i => nth i a 0%Z)); [exact Hnd|].
  intros i Hi. apply in_seq in Hi. apply Hcov, nth_In. lia.
Qed.

Lemma where_eq_count_from (a : list Z) (v : Z) (s : nat) :
  List.length (filter (fun i => (nth (i - s) a 0 =? v)%Z) (seq s (List.length a)))
  = count_eq a v.
Proof.
  revert s. induction a as [|x a IH]; intros s; [reflexivity|].
  unfold count_eq. cbn [List.length seq filter]. rewrite Nat.sub_diag. cbn [nth].
  rewrite (filter_ext_in _ (fun i => (nth (i - S s) a 0 =? v)%Z)).
  - destruct (x =? v)%Z; cbn [List.length]; rewrite IH; reflexivity.
  - intros i Hi. apply in_seq in Hi.
    replace (i - s) with (S (i - S s)) by lia. reflexivity.
Qed.

Lemma where_eq_length (a : list Z) (v : Z) :
  List.length (where_eq a v) = count_eq a v.
Proof.
  unfold where_eq. rewrite <- (where_eq_count_from a v 0).
  f_equal. apply filter_ext. intros i. now rewrite Nat.sub_0_r.
Qed.

Lemma where_eq_NoDup (a : list Z) (v : Z) : NoDup (where_eq a v).
Proof. unfold where_eq. apply NoDup_filter, seq_NoDup. Qed.

Lemma where_eq_in (a : list Z) (v : Z) (i : nat) :
  In i (where_eq a v) <-> i < List.length a /\ nth i a 0%Z = v.
Proof.
  unfold where_eq. rewrite filter_In, in_seq, Z.eqb_eq. intuition lia.
Qed.

Lemma length_concat_sum {A} (ls : list (list A)) :
  List.length (List.concat ls) = sum (map (@List.length A) ls).
Proof.
  induction ls as [|l ls IH]; [reflexivity|].
  cbn [List.concat map sum fold_right]. rewrite length_app, IH. reflexivity.
Qed.

(** The class counts add up to the number of samples. *)
Lemma class_counts_sum (y : list Z) :
  sum (map (count_eq y) (unique y)) = List.length y.
Proof.
  transitivity (List.length (seq 0 (List.length y))); [|apply length_seq].
  rewrite <- (Permutation_length (where_eq_groups y (unique y) (unique_NoDup y)
                                    (fun z Hz => proj2 (unique_in z y) Hz))).
  rewrite length_concat_sum, map_map. f_equal. apply map_ext.
  intros c. symmetry. apply where_eq_length.
Qed.


(** *** [increment_at] *)

Lemma increment_at_length (inds a : list nat) :
  List.length (increment_at inds a) = List.length a.
Proof.
  unfold increment_at. rewrite length_map, length_combine, length_seq. apply Nat.min_id.
Qed.

Lemma increment_from_nth (inds a : list nat) (s i : nat) :
  i < List.length a ->
  nth i (map (fun p => if existsb (Nat.eqb (fst p)) inds then S (snd p) else snd p)
           (combine (seq s (List.length a)) a)) 0
  = if existsb (Nat.eqb (s + i)) inds then S (nth i a 0) else nth i a 0.
Proof.
  revert s i. induction a as [|x a IH]; intros s i Hi; [cbn in Hi; lia|].
  cbn [List.length seq combine map]. destruct i as [|i].
  - cbn [nth fst snd]. now rewrite Nat.add_0_r.
  - cbn [nth]. rewrite IH by (cbn in Hi; lia).
    now replace (S s + i) with (s + S i) by lia.
Qed.

Lemma increment_at_nth (inds a : list nat) (i : nat) :
  i < List.length a ->
  nth i (increment_at inds a) 0
  = if existsb (Nat.eqb i) inds then S (nth i a 0) else nth i a 0.
Proof. intros Hi. unfold increment_at. now rewrite increment_from_nth. Qed.

Lemma existsb_eqb_In (i : nat) (l : list nat) : existsb (Nat.eqb i) l = true <-> In i l.
Proof.
  rewrite existsb_exists. split.
  - intros [x [Hx E]]. apply Nat.eqb_eq in E. now subst.
  - intros H. exists i. split; [exact H|apply Nat.eqb_refl].
Qed.

Lemma increment_from_sum (inds a : list nat) (s : nat) :
  sum (map (fun p => if existsb (Nat.eqb (fst p)) inds then S (snd p) else snd p)
         (combine (seq s (List.length a)) a))
  = sum a + List.length (filter (fun i => existsb (Nat.eqb i) inds) (seq s (List.length a))).
Proof.
  revert s. induction a as [|x a IH]; intros s; [reflexivity|].
  cbn [List.length seq combine map filter sum fold_right fst snd].
  fold (sum a).
  fold (sum (map (fun p => if existsb (Nat.eqb (fst p)) inds then S (snd p) else snd p)
               (combine (seq (S s) (List.length a)) a))).
  rewrite IH. destruct (existsb (Nat.eqb s) inds); cbn [List.length]; lia.
Qed.

Lemma increment_at_sum (inds a : list nat) :
  NoDup inds -> (forall i, In i inds -> i < List.length a) ->
  sum (increment_at inds a) = sum a + List.length inds.
Proof.
  intros Hnd Hin. unfold increment_at. rewrite increment_from_sum. f_equal.
  apply Permutation_length, NoDup_Permutation.
  - apply NoDup_filter, seq_NoDup.
  - exact Hnd.
  - intros i. rewrite filter_In, in_seq, existsb_eqb_In. split; [tauto|].
    intros Hi. split; [|exact Hi]. specialize (Hin i Hi). lia.
Qed.

(** *** [_approximate_mode] *)

Lemma floor_sum_bounds (l : list nat) (n T : nat) :
  0 < T ->
  T * sum (map (fun c => c * n / T) l) <= n * sum l
  /\ n * sum l <= T * sum (map (fun c => c * n / T) l) + T * List.length l.
Proof.
  intros HT. induction l as [|c l [IH1 IH2]]; [cbn; lia|].
  cbn [map sum fold_right List.length].
  fold (sum l). fold (sum (map (fun c => c * n / T) l)).
  pose proof (Nat.Div0.mul_div_le (c * n) T) as H1.
  pose proof (Nat.mul_succ_div_gt (c * n) T ltac:(lia)) as H2.
  split; nia.
Qed.

Section ApproximateMode.

Variable G : RandomGen.
Hypothesis Gok : RandomGen_ok G.

Lemma add_round_spec (rem : list Z) (fl : list nat) (need : nat) (r : rng G) (v : Z) :
  List.length fl = List.length rem -> need <> 0 ->
  let out := add_round G rem (fl, need, r) v in
  let add_now := Nat.min (List.length (where_eq rem v)) need in
  List.length (fst (fst out)) = List.length fl
  /\ snd (fst out) = need - add_now
  /\ sum (fst (fst out)) = sum fl + add_now
  /\ forall i, i < List.length fl ->
       nth i (fst (fst out)) 0 = nth i fl 0
       \/ (nth i (fst (fst out)) 0 = S (nth i fl 0) /\ nth i rem 0%Z = v).
Proof.
  intros Hlen Hneed. cbv zeta. unfold add_round.
  destruct (Nat.eqb need 0) eqn:E; [apply Nat.eqb_eq in E; contradiction|].
  set (k := Nat.min (List.length (where_eq rem v)) need).
  destruct (choice_ok G Gok r (where_eq rem v) k (Nat.le_min_l _ _) (where_eq_NoDup rem v))
    as [Hk [Hnd Hincl]].
  destruct (choice G r (where_eq rem v) k) as [inds r'] eqn:Ec. cbn [fst snd] in *.
  assert (Hlt : forall i, In i inds -> i < List.length fl).
  { intros i Hi. apply Hincl, where_eq_in in Hi. lia. }
  repeat split.
  - apply increment_at_length.
  - rewrite increment_at_sum by assumption. now rewrite Hk.
  - intros i Hi. rewrite increment_at_nth by exact Hi.
    destruct (existsb (Nat.eqb i) inds) eqn:Ei; [right|left; reflexivity].
    split; [reflexivity|]. apply existsb_eqb_In in Ei.
    apply Hincl, where_eq_in in Ei. tauto.
Qed.

Lemma add_rounds_spec (rem : list Z) (vs : list Z) :
  NoDup vs ->
  forall (fl : list nat) (need : nat) (r : rng G),
  List.length fl = List.length rem ->
  need <= sum (map (fun v => List.length (where_eq rem v)) vs) ->
  let out := fold_left (add_round G rem) vs (fl, need, r) in
  snd (fst out) = 0
  /\ List.length (fst (fst out)) = List.length fl
  /\ sum (fst (fst out)) = sum fl + need
  /\ forall i, i < List.length fl ->
       nth i (fst (fst out)) 0 = nth i fl 0
       \/ (nth i (fst (fst out)) 0 = S (nth i fl 0) /\ In (nth i rem 0%Z) vs).
Proof.
  induction 1 as [|v vs Hv Hnd IH]; intros fl need r Hlen Hneed; cbv zeta.
  - cbn in Hneed. cbn [fold_left fst snd]. repeat split; try lia; intros; now left.
  - cbn [fold_left]. cbn [map sum fold_right] in Hneed.
    fold (sum (map (fun v => List.length (where_eq rem v)) vs)) in Hneed.
    destruct (Nat.eq_dec need 0) as [->|Hne].
    + unfold add_round at 2. cbn [Nat.eqb].
      destruct (IH fl 0 r Hlen ltac:(lia)) as [H1 [H2 [H3 H4]]].
      repeat split; try assumption.
      intros i Hi. destruct (H4 i Hi) as [H|[H H']]; [now left|right].
      split; [exact H|now right].
    + destruct (add_round_spec rem fl need r v Hlen Hne) as [A1 [A2 [A3 A4]]].
      destruct (add_round G rem (fl, need, r) v) as [[fl1 need1] r1].
      cbn [fst snd] in A1, A2, A3, A4.
      destruct (IH fl1 need1 r1 ltac:(lia) ltac:(lia)) as [H1 [H2 [H3 H4]]].
      repeat split.
      * exact H1.
      * lia.
      * lia.
      * intros i Hi. destruct (A4 i Hi) as [Ha|[Ha Hav]];
          destruct (H4 i ltac:(lia)) as [Hb|[Hb Hbv]].
        -- left. congruence.
        -- right. split; [congruence|now right].
        -- right. split; [congruence|now left].
        -- exfalso. apply Hv. now rewrite <- Hav.
Qed.

(** The draw assigns exactly [n_draws] samples, at most one above each
    class's floor. *)
Lemma approximate_mode_spec (class_counts : list nat) (n_draws : nat) (r : rng G) :
  0 < sum class_counts -> n_draws <= sum class_counts ->
  let out := fst (approximate_mode G class_counts n_draws r) in
  List.length out = List.length class_counts
  /\ sum out = n_draws
  /\ forall i, i < List.length class_counts ->
       nth i out 0 <= nth i class_counts 0 * n_draws / sum class_counts + 1.
Proof.
  intros HT Hn. cbv zeta. unfold approximate_mode.
  set (T := sum class_counts) in *.
  set (floored := map (fun c => c * n_draws / T) class_counts).
  destruct (floor_sum_bounds class_counts n_draws T HT) as [B1 B2].
  fold T in B1, B2. fold floored in B1, B2.
  assert (Hfl : sum floored <= n_draws) by nia.
  assert (Hneed : n_draws - sum floored <= List.length class_counts) by nia.
  assert (Hnth : forall i, i < List.length class_counts ->
            nth i floored 0 = nth i class_counts 0 * n_draws / T).
  { intros i Hi. unfold floored.
    rewrite (nth_indep _ 0 (0 * n_draws / T)) by now rewrite length_map.
    exact (map_nth (fun c => c * n_draws / T) class_counts 0 i). }
  destruct (0 <? n_draws - sum floored) eqn:E.
  - set (rem := map (fun c => Z.of_nat ((c * n_draws) mod T)) class_counts).
    assert (Hlen : List.length floored = List.length rem).
    { unfold floored, rem. now rewrite !length_map. }
    assert (Hcover : sum (map (fun v => List.length (where_eq rem v)) (rev (unique rem)))
                     = List.length rem).
    { rewrite <- (map_map (where_eq rem) (@List.length nat)), <- length_concat_sum.
      rewrite (Permutation_length (where_eq_groups rem (rev (unique rem))
                 (NoDup_rev (unique_NoDup rem))
                 (fun z Hz => proj1 (in_rev _ _) (proj2 (unique_in z rem) Hz)))).
      apply length_seq. }
    destruct (add_rounds_spec rem (rev (unique rem)) (NoDup_rev (unique_NoDup rem))
                floored (n_draws - sum floored) r Hlen) as [H1 [H2 [H3 H4]]].
    { rewrite Hcover, <- Hlen. unfold floored. rewrite length_map. exact Hneed. }
    destruct (fold_left (add_round G rem) (rev (unique rem))
                (floored, n_draws - sum floored, r)) as [[fl need] r'].
    cbn [fst snd] in *. unfold floored in H2. rewrite length_map in H2.
    repeat split.
    + exact H2.
    + lia.
    + intros i Hi. rewrite <- Hnth by exact Hi.
      destruct (H4 i) as [H|[H _]]; [unfold floored; now rewrite length_map|lia|lia].
  - apply Nat.ltb_ge in E. cbn [fst]. repeat split.
    + unfold floored. apply length_map.
    + lia.
    + intros i Hi. rewrite Hnth by exact Hi. lia.
Qed.

(** Drawing as many samples as there are returns the counts themselves. *)
Lemma approximate_mode_all (class_counts : list nat) (r : rng G) :
  0 < sum class_counts ->
  approximate_mode G class_counts (sum class_counts) r = (class_counts, r).
Proof.
  intros HT. unfold approximate_mode.
  assert (E : map (fun c => c * sum class_counts / sum class_counts) class_counts
              = class_counts).
  { transitivity (map (fun c => c) class_counts); [|apply map_id].
    apply map_ext. intros c. apply Nat.div_mul. lia. }
  rewrite E, Nat.sub_diag. reflexivity.
Qed.

End ApproximateMode.


(** *** The sizes of the two subsets *)

Lemma n_test_fifth (n : nat) :
  Z.to_nat (Qceiling ((1 # 5) * Torch.Qnat n)) = (n + 4) / 5.
Proof.
  unfold Qceiling, Qfloor, Torch.Qnat, Qmult, Qopp, inject_Z. cbn [Qnum Qden Pos.mul].
  change (Z.pos (1 + 4)) with 5%Z.
  pose proof (Nat.div_mod_eq (n + 4) 5) as Hq.
  pose proof (Nat.mod_upper_bound (n + 4) 5 ltac:(lia)) as Hm.
  revert Hq Hm. generalize ((n + 4) / 5) ((n + 4) mod 5). intros q m Hq Hm. Z.div_mod_to_equations. lia.
Qed.

(** The exact ceiling is the library's binary64 one at the script's 0.2, for
    every number of samples up to the 140 candidates; at other fractions the
    two can differ. *)
Example n_test_of_script :
  forallb (fun n => Nat.eqb (Sklearn.n_test_float64 n (1 # 5)) ((n + 4) / 5)) (seq 0 141)
  = true
  /\ Sklearn.n_test_float64 100 (7 # 100) = 8
  /\ Z.to_nat (Qceiling ((7 # 100) * Torch.Qnat 100)) = 7.
Proof. vm_compute. repeat split. Qed.

Lemma fifth_bounds (n : nat) :
  2 <= n -> 0 < (n + 4) / 5 < n /\ (n + 4) / 5 <= n - (n + 4) / 5.
Proof.
  intros Hn.
  pose proof (Nat.div_mod_eq (n + 4) 5) as Hq.
  pose proof (Nat.mod_upper_bound (n + 4) 5 ltac:(lia)) as Hm.
  revert Hq Hm. generalize ((n + 4) / 5) ((n + 4) mod 5). intros q m Hq Hm. lia.
Qed.

Lemma validate_fifth (n : nat) :
  2 <= n ->
  validate_shuffle_split n (1 # 5) = Py.Ok (n - (n + 4) / 5, (n + 4) / 5)
  /\ 0 < (n + 4) / 5 < n /\ (n + 4) / 5 <= n - (n + 4) / 5.
Proof.
  intros Hn. unfold validate_shuffle_split.
  change (negb (Qle_bool (1 # 5) 0) && negb (Qle_bool 1 (1 # 5))) with true.
  cbv iota. rewrite n_test_fifth.
  pose proof (fifth_bounds n Hn) as H.
  split; [|exact H].
  destruct (Nat.eqb (n - (n + 4) / 5) 0) eqn:E; [|reflexivity].
  apply Nat.eqb_eq in E. lia.
Qed.

(** *** The per-class loop *)

Lemma map_nth_seq (l : list nat) :
  map (fun i => nth i l 0) (seq 0 (List.length l)) = l.
Proof.
  apply (nth_ext _ _ 0 0).
  - now rewrite length_map, length_seq.
  - intros i Hi. rewrite length_map, length_seq in Hi.
    rewrite (nth_indep _ 0 (nth 0 l 0)) by now rewrite length_map, length_seq.
    rewrite (map_nth (fun i => nth i l 0) (seq 0 (List.length l)) 0 i).
    now rewrite seq_nth.
Qed.

Lemma take_clip_perm (a p : list nat) :
  Permutation (seq 0 (List.length a)) p -> Permutation (take_clip a p) a.
Proof.
  intros Hp. unfold take_clip.
  rewrite <- (Permutation_map _ Hp).
  rewrite (map_ext_in _ (fun i => nth i a 0)).
  - now rewrite map_nth_seq.
  - intros i Hi. apply in_seq in Hi. f_equal. lia.
Qed.

Lemma slices_cover {A} (p : list A) (n t : nat) :
  n + t = List.length p -> slice p 0 n ++ slice p n (n + t) = p.
Proof.
  intros H. unfold slice. cbn [skipn]. rewrite Nat.sub_0_r.
  replace (n + t - n) with t by lia.
  rewrite (firstn_all2 (n := t) (skipn n p)) by (rewrite length_skipn; lia).
  apply firstn_skipn.
Qed.

Lemma sum_remaining (cs ns : list nat) :
  Forall2 le ns cs ->
  sum (map (fun p => fst p - snd p) (combine cs ns)) + sum ns = sum cs.
Proof.
  induction 1 as [|n c ns cs Hle _ IH]; [reflexivity|].
  cbn [combine map sum fold_right fst snd].
  fold (sum ns). fold (sum cs).
  fold (sum (map (fun p => fst p - snd p) (combine cs ns))). lia.
Qed.

Lemma Forall2_of_nth (R : nat -> nat -> Prop) (l1 l2 : list nat) :
  List.length l1 = List.length l2 ->
  (forall i, i < List.length l2 -> R (nth i l1 0) (nth i l2 0)) ->
  Forall2 R l1 l2.
Proof.
  revert l2. induction l1 as [|a l1 IH]; intros [|b l2] Hlen Hnth;
    try discriminate; constructor.
  - apply (Hnth 0). cbn. lia.
  - apply IH; [cbn in Hlen; lia|]. intros i Hi. apply (Hnth (S i)). cbn. lia.
Qed.

Section SplitLoop.

Variable G : RandomGen.
Hypothesis Gok : RandomGen_ok G.

Lemma split_class_step (train test : list nat) (r : rng G) (g : list nat) (c n t : nat) :
  split_class G (train, test, r) (g, c, n, t)
  = (train ++ slice (take_clip g (fst (permutation G r (seq 0 c)))) 0 n,
     test ++ slice (take_clip g (fst (permutation G r (seq 0 c)))) n (n + t),
     snd (permutation G r (seq 0 c))).
Proof. unfold split_class. destruct (permutation G r (seq 0 c)). reflexivity. Qed.

Lemma split_loop (ns : list nat) (groups : list (list nat)) :
  Forall2 (fun n g => n <= List.length g) ns groups ->
  forall (train test : list nat) (r : rng G),
  let counts := map (@List.length nat) groups in
  let out := fold_left (split_class G)
               (combine (combine (combine groups counts) ns)
                  (map (fun p => fst p - snd p) (combine counts ns)))
               (train, test, r) in
  Permutation (fst (fst out) ++ snd (fst out)) (train ++ test ++ List.concat groups).
Proof.
  induction 1 as [|n g ns groups Hle _ IH]; intros train test r; cbv zeta.
  - cbn. now rewrite app_nil_r.
  - cbn [map combine fold_left fst snd List.concat].
    rewrite split_class_step.
    pose proof (permutation_ok G Gok r (seq 0 (List.length g))) as Hp.
    set (perm := fst (permutation G r (seq 0 (List.length g)))) in *.
    eapply Permutation_trans; [apply IH|].
    assert (Hcover : slice (take_clip g perm) 0 n
                     ++ slice (take_clip g perm) n (n + (List.length g - n))
                     = take_clip g perm).
    { apply slices_cover. unfold take_clip. rewrite length_map.
      rewrite <- (Permutation_length Hp), length_seq. lia. }
    pose proof (take_clip_perm g perm Hp) as Hg. rewrite <- Hcover in Hg.
    set (s1 := slice (take_clip g perm) 0 n) in *.
    set (s2 := slice (take_clip g perm) n (n + (List.length g - n))) in *.
    rewrite <- Hg. rewrite <- !app_assoc. apply Permutation_app_head.
    rewrite !app_assoc. apply Permutation_app_tail.
    rewrite <- !app_assoc. rewrite (Permutation_app_comm s1 (test ++ s2)).
    rewrite <- !app_assoc. apply Permutation_app_head, Permutation_app_comm.
Qed.

End SplitLoop.


Lemma Forall2_map_right {A B C} (R : A -> C -> Prop) (f : B -> C) (l : list A) (l' : list B) :
  Forall2 R l (map f l') -> Forall2 (fun a b => R a (f b)) l l'.
Proof.
  revert l. induction l' as [|b l' IH]; intros l H; inversion H; subst; constructor.
  - assumption.
  - now apply IH.
Qed.

Section Split.

Variable G : RandomGen.
Hypothesis Gok : RandomGen_ok G.

(** One draw of the stratified shuffle split returns, and its two index
    arrays together are a rearrangement of all positions. *)
Lemma stratified_shuffle_split_perm (y : list Z) (n_train n_test : nat) (r : rng G) :
  0 < n_test -> 0 < n_train -> n_train + n_test = List.length y ->
  (forall c, In c y -> 2 <= count_eq y c) ->
  List.length (unique y) <= n_train -> List.length (unique y) <= n_test ->
  exists train test r',
    stratified_shuffle_split G n_train n_test y r = Py.Ok (train, test, r')
    /\ Permutation (train ++ test) (seq 0 (List.length y)).
Proof.
  intros Htest Htrain Hsum Hcount Hk1 Hk2. unfold stratified_shuffle_split.
  replace ((0 <? n_test) && (n_test <? List.length y) && (0 <? n_train)
           && (n_train <? List.length y) && (n_train + n_test <=? List.length y))
    with true.
  2:{ symmetry. rewrite !andb_true_iff, !Nat.ltb_lt, Nat.leb_le. lia. }
  cbn [negb].
  set (classes := unique y).
  set (cs := map (count_eq y) classes).
  assert (Hall : Forall (fun c => 2 <= c) cs).
  { apply Forall_forall. intros c Hc. apply in_map_iff in Hc.
    destruct Hc as [z [<- Hz]]. apply Hcount, unique_in, Hz. }
  replace (existsb (fun c => c <? 2) cs) with false.
  2:{ symmetry. apply not_true_iff_false. intros E. apply existsb_exists in E.
      destruct E as [c [Hc E]]. apply Nat.ltb_lt in E.
      rewrite Forall_forall in Hall. specialize (Hall c Hc). lia. }
  replace (n_train <? List.length classes) with false
    by (symmetry; apply Nat.ltb_ge; exact Hk1).
  replace (n_test <? List.length classes) with false
    by (symmetry; apply Nat.ltb_ge; exact Hk2).
  set (groups := map (where_eq y) classes).
  assert (Hcs : cs = map (@List.length nat) groups).
  { unfold cs, groups. rewrite map_map. apply map_ext. intros c.
    symmetry. apply where_eq_length. }
  assert (HT : sum cs = List.length y) by apply class_counts_sum.
  destruct (approximate_mode_spec G Gok cs n_train r ltac:(lia) ltac:(lia))
    as [Hlen [Hsumn Hnth]].
  destruct (approximate_mode G cs n_train r) as [n_i r1]. cbn [fst] in Hlen, Hsumn, Hnth.
  assert (Hle : Forall2 le n_i cs).
  { apply Forall2_of_nth; [exact Hlen|]. intros i Hi.
    specialize (Hnth i Hi). rewrite HT in Hnth.
    assert (Hc : 2 <= nth i cs 0).
    { rewrite Forall_forall in Hall. apply Hall, nth_In, Hi. }
    assert (nth i cs 0 * n_train / List.length y < nth i cs 0).
    { apply Nat.Div0.div_lt_upper_bound. nia. }
    lia. }
  pose proof (sum_remaining cs n_i Hle) as Hrem.
  set (remaining := map (fun p => fst p - snd p) (combine cs n_i)) in *.
  replace n_test with (sum remaining) by lia.
  rewrite (approximate_mode_all G remaining r1) by lia.
  rewrite Hcs in Hle. apply Forall2_map_right in Hle.
  pose proof (split_loop G Gok n_i groups Hle [] [] r1) as Hloop.
  cbv zeta in Hloop. unfold remaining. rewrite Hcs.
  destruct (fold_left (split_class G)
              (combine (combine (combine groups (map (@List.length nat) groups)) n_i)
                 (map (fun p => fst p - snd p)
                    (combine (map (@List.length nat) groups) n_i)))
              ([], [], r1)) as [[train test] r2].
  cbn [fst snd app] in Hloop.
  pose proof (permutation_ok G Gok r2 train) as Hp1.
  destruct (permutation G r2 train) as [train' r3]. cbn [fst] in Hp1.
  pose proof (permutation_ok G Gok r3 test) as Hp2.
  destruct (permutation G r3 test) as [test' r4]. cbn [fst] in Hp2.
  exists train', test', r4. split; [reflexivity|].
  rewrite <- Hp1, <- Hp2, Hloop. unfold groups.
  apply where_eq_groups; [apply unique_NoDup|].
  intros z Hz. apply unique_in, Hz.
Qed.

(** With fewer test samples than classes the draw is refused. *)
Lemma stratified_shuffle_split_refuses (y : list Z) (n_train n_test : nat) (r : rng G) :
  0 < n_test -> 0 < n_train -> n_train + n_test = List.length y ->
  n_test < List.length (unique y) ->
  Py.raises (stratified_shuffle_split G n_train n_test y r).
Proof.
  intros Htest Htrain Hsum Hk. unfold stratified_shuffle_split.
  destruct (negb ((0 <? n_test) && (n_test <? List.length y) && (0 <? n_train)
                  && (n_train <? List.length y) && (n_train + n_test <=? List.length y)));
    [exact I|].
  destruct (existsb (fun c => c <? 2) (map (count_eq y) (unique y))); [exact I|].
  destruct (n_train <? List.length (unique y)); [exact I|].
  replace (n_test <? List.length (unique y)) with true
    by (symmetry; apply Nat.ltb_lt; exact Hk).
  exact I.
Qed.

End Split.

(** Every refusal of the draw is a ValueError. *)
Lemma stratified_shuffle_split_error (G : RandomGen) (y : list Z) (n_train n_test : nat)
    (r : rng G) (e : Py.exn) :
  stratified_shuffle_split G n_train n_test y r = Py.Raise e ->
  exists m, e = Py.ValueError m.
Proof.
  unfold stratified_shuffle_split.
  destruct (negb ((0 <? n_test) && (n_test <? List.length y) && (0 <? n_train)
                  && (n_train <? List.length y) && (n_train + n_test <=? List.length y)));
    [intros E; inversion E; eauto|].
  destruct (existsb (fun c => c <? 2) (map (count_eq y) (unique y)));
    [intros E; inversion E; eauto|].
  destruct (n_train <? List.length (unique y)); [intros E; inversion E; eauto|].
  destruct (n_test <? List.length (unique y)); [intros E; inversion E; eauto|].
  destruct (approximate_mode G (map (count_eq y) (unique y)) n_train r) as [n_i r1].
  destruct (approximate_mode G _ n_test r1) as [t_i r2].
  destruct (fold_left (split_class G) _ _) as [[train test] r3].
  destruct (permutation G r3 train) as [train' r4].
  destruct (permutation G r4 test) as [test' r5]. discriminate.
Qed.

End SplitFacts.

Lemma reversing_gen_ok : Sklearn.RandomGen_ok Sklearn.reversing_gen.
Proof.
  constructor.
  - intros r l. cbn. apply Permutation_rev.
  - intros r l k Hk Hnd. cbn. repeat split.
    + rewrite length_firstn. lia.
    + rewrite <- (firstn_skipn k l) in Hnd. now apply NoDup_app_remove_r in Hnd.
    + intros x Hx. rewrite <- (firstn_skipn k l). apply in_or_app. now left.
Qed.

Lemma NoDup_app_disjoint {A} (l1 l2 : list A) (a : A) :
  NoDup (l1 ++ l2) -> In a l1 -> In a l2 -> False.
Proof.
  intros Hnd H1 H2. apply in_split in H1. destruct H1 as [u [v ->]].
  rewrite <- app_assoc in Hnd. cbn [app] in Hnd. apply NoDup_remove_2 in Hnd.
  apply Hnd. rewrite app_assoc. apply in_or_app. now right.
Qed.

Lemma counts_checked (y : list Z) :
  forallb (fun c => 2 <=? Sklearn.count_eq y c) y = true ->
  forall c, In c y -> 2 <= Sklearn.count_eq y c.
Proof.
  intros H c Hc. rewrite forallb_forall in H. apply Nat.leb_le, H, Hc.
Qed.

(** C3 (as the code has it): for sample labels in which every class has at
    least 2 samples, the split with validation fraction 0.2 returns two index
    arrays that together are a rearrangement of [0, N) (their union is
    [0, N) and they share no index) when the number of classes does not
    exceed ceil(0.2 N), and raises ValueError otherwise. *)
Theorem train_test_split_partitions (G : Sklearn.RandomGen) (y : list Z)
    (random_state : option Z) (global : Sklearn.rng G) :
  Sklearn.RandomGen_ok G ->
  y <> [] ->
  (forall c, In c y -> 2 <= Sklearn.count_eq y c) ->
  let n_test := Z.to_nat (Qceiling ((1 # 5) * Torch.Qnat (List.length y))) in
  let result :=
    fst (Sklearn.train_test_split G (List.length y) (1 # 5) y random_state global) in
  (List.length (Sklearn.unique y) <= n_test ->
   exists train test,
     result = Py.Ok (train, test)
     /\ Permutation (train ++ test) (seq 0 (List.length y))
     /\ (forall j, j < List.length y <-> In j train \/ In j test)
     /\ (forall j, ~ (In j train /\ In j test)))
  /\ (n_test < List.length (Sklearn.unique y) ->
      exists message, result = Py.Raise (Py.ValueError message)).
Proof.
  intros Gok Hne Hcount. cbv zeta. rewrite SplitFacts.n_test_fifth.
  assert (Hn : 2 <= List.length y).
  { destruct y as [|c y']; [congruence|].
    specialize (Hcount c (or_introl eq_refl)).
    pose proof (filter_length_le (fun z => (z =? c)%Z) (c :: y')) as Hb.
    unfold Sklearn.count_eq in Hcount. lia. }
  destruct (SplitFacts.validate_fifth (List.length y) Hn) as [Hv [Hb1 Hb2]].
  unfold Sklearn.train_test_split. rewrite Hv, Nat.eqb_refl. cbn [negb].
  split; intros Hk.
  - destruct (SplitFacts.stratified_shuffle_split_perm G Gok y
                (List.length y - (List.length y + 4) / 5) ((List.length y + 4) / 5)
                (Sklearn.check_random_state G random_state global))
      as [train [test [r' [E Hperm]]]]; try lia; try assumption.
    exists train, test. rewrite E. cbn [fst].
    split; [reflexivity|]. split; [exact Hperm|]. split.
    + intros j. rewrite <- in_app_iff.
      split; intros H.
      * apply (Permutation_in j (Permutation_sym Hperm)). apply in_seq. lia.
      * apply (Permutation_in j Hperm) in H. apply in_seq in H. lia.
    + intros j [H1 H2].
      assert (Hnd : NoDup (train ++ test)).
      { apply (Permutation_NoDup (Permutation_sym Hperm)), seq_NoDup. }
      exact (NoDup_app_disjoint train test j Hnd H1 H2).
  - pose proof (SplitFacts.stratified_shuffle_split_refuses G y
                  (List.length y - (List.length y + 4) / 5) ((List.length y + 4) / 5)
                  (Sklearn.check_random_state G random_state global)
                  ltac:(lia) ltac:(lia) ltac:(lia) Hk) as Hr.
    destruct (Sklearn.stratified_shuffle_split G
                (List.length y - (List.length y + 4) / 5) ((List.length y + 4) / 5) y
                (Sklearn.check_random_state G random_state global))
      as [[[train test] r']|e] eqn:E; [destruct Hr|].
    destruct (SplitFacts.stratified_shuffle_split_error G y _ _ _ e E) as [m ->].
    exists m. reflexivity.
Qed.

Lemma train_test_split_partitions_witness :
  let y := balanced_labels 5 in
  let n_test := Z.to_nat (Qceiling ((1 # 5) * Torch.Qnat (List.length y))) in
  let result :=
    fst (Sklearn.train_test_split Sklearn.reversing_gen (List.length y) (1 # 5) y
           (Some 42%Z) tt) in
  (List.length (Sklearn.unique y) <= n_test ->
   exists train test,
     result = Py.Ok (train, test)
     /\ Permutation (train ++ test) (seq 0 (List.length y))
     /\ (forall j, j < List.length y <-> In j train \/ In j test)
     /\ (forall j, ~ (In j train /\ In j test)))
  /\ (n_test < List.length (Sklearn.unique y) ->
      exists message, result = Py.Raise (Py.ValueError message)).
Proof.
  apply (train_test_split_partitions Sklearn.reversing_gen (balanced_labels 5)
           (Some 42%Z) tt).
  - exact reversing_gen_ok.
  - discriminate.
  - apply counts_checked. vm_compute. reflexivity.
Defined.

(** C3, counterexample: 14 labels, 2 per class for each of the 7 classes;
    ceil(0.2 * 14) = 3 is below the 7 classes and the split raises. *)
Lemma fourteen_samples_are_refused :
  List.length (balanced_labels 2) = 14
  /\ Forall (fun c => 2 <= Sklearn.count_eq (balanced_labels 2) c) (balanced_labels 2)
  /\ fst (Sklearn.train_test_split Sklearn.reversing_gen 14 (1 # 5) (balanced_labels 2)
            (Some 42%Z) tt)
     = Py.Raise (Py.ValueError
         "The test_size should be greater or equal to the number of classes").
Proof.
  split; [reflexivity|]. split.
  - apply Forall_forall, counts_checked. vm_compute. reflexivity.
  - vm_compute. reflexivity.
Qed.

(** C9: with a seed the split does not read the process-wide generator and
    leaves it as it was, so any two calls with the same labels, fraction and
    seed (0.2 and 42 in the script) return the same two index arrays. *)
Theorem train_test_split_deterministic (G : Sklearn.RandomGen) (n : nat) (test_size : Q)
    (stratify : list Z) (seed : Z) (global1 global2 : Sklearn.rng G)
    (env : Env) (dir : string) :
  fst (Sklearn.train_test_split G n test_size stratify (Some seed) global1)
  = fst (Sklearn.train_test_split G n test_size stratify (Some seed) global2)
  /\ snd (Sklearn.train_test_split G n test_size stratify (Some seed) global1) = global1
  /\ fst (Sklearn.train_test_split G n test_size stratify (Some seed)
            (snd (Sklearn.train_test_split G n test_size stratify (Some seed) global1)))
     = fst (Sklearn.train_test_split G n test_size stratify (Some seed) global1)
  /\ fst (script env G dir global1) = fst (script env G dir global2).
Proof.
  assert (H1 : forall g1 g2,
             fst (Sklearn.train_test_split G n test_size stratify (Some seed) g1)
             = fst (Sklearn.train_test_split G n test_size stratify (Some seed) g2)).
  { intros g1 g2. unfold Sklearn.train_test_split, Sklearn.check_random_state.
    destruct (Sklearn.validate_shuffle_split n test_size) as [[n_train n_test]|e];
      [|reflexivity].
    destruct (negb (Nat.eqb n (List.length stratify))); [reflexivity|].
    destruct (Sklearn.stratified_shuffle_split G n_train n_test stratify
                (Sklearn.RandomState G seed)) as [[[train test] r']|e]; reflexivity. }
  split; [apply H1|]. split; [|split; [apply H1|]].
  - unfold Sklearn.train_test_split, Sklearn.check_random_state.
    destruct (Sklearn.validate_shuffle_split n test_size) as [[n_train n_test]|e];
      [|reflexivity].
    destruct (negb (Nat.eqb n (List.length stratify))); [reflexivity|].
    destruct (Sklearn.stratified_shuffle_split G n_train n_test stratify
                (Sklearn.RandomState G seed)) as [[[train test] r']|e]; reflexivity.
  - unfold script.
    destruct (Nat.eqb (HyperspectralDataset_len (HyperspectralDataset_init env dir)) 0);
      [reflexivity|].
    unfold Sklearn.train_test_split, Sklearn.check_random_state.
    destruct (Sklearn.validate_shuffle_split
                (HyperspectralDataset_len (HyperspectralDataset_init env dir)) (1 # 5))
      as [[n_train n_test]|e]; [|reflexivity].
    destruct (negb (Nat.eqb (HyperspectralDataset_len (HyperspectralDataset_init env dir))
                      (List.length (labels (HyperspectralDataset_init env dir)))));
      [reflexivity|].
    destruct (Sklearn.stratified_shuffle_split G n_train n_test
                (labels (HyperspectralDataset_init env dir)) (Sklearn.RandomState G 42))
      as [[[train test] r']|e]; reflexivity.
Qed.

(** * Further properties *)

(** ** The dataset: indexing *)

Lemma list_getitem_out_of_range {A} (l : list A) (idx : Z) :
  (Z.of_nat (List.length l) <= idx \/ idx < - Z.of_nat (List.length l))%Z ->
  Py.list_getitem l idx = Py.Raise Py.IndexError.
Proof.
  intros H. unfold Py.list_getitem.
  destruct (idx <? 0)%Z eqn:E.
  - apply Z.ltb_lt in E.
    replace ((0 <=? Z.of_nat (List.length l) + idx)%Z
             && (Z.of_nat (List.length l) + idx <? Z.of_nat (List.length l))%Z)
      with false; [reflexivity|].
    symmetry. apply andb_false_iff. left. apply Z.leb_gt. lia.
  - apply Z.ltb_ge in E.
    replace ((0 <=? idx)%Z && (idx <? Z.of_nat (List.length l))%Z) with false;
      [reflexivity|].
    symmetry. apply andb_false_iff. right. apply Z.ltb_ge. lia.
Qed.

Lemma list_getitem_negative {A} (l : list A) (idx : Z) :
  (- Z.of_nat (List.length l) <= idx < 0)%Z ->
  Py.list_getitem l idx = Py.list_getitem l (Z.of_nat (List.length l) + idx).
Proof.
  intros H. unfold Py.list_getitem.
  replace (idx <? 0)%Z with true by (symmetry; apply Z.ltb_lt; lia).
  replace (Z.of_nat (List.length l) + idx <? 0)%Z with false
    by (symmetry; apply Z.ltb_ge; lia).
  reflexivity.
Qed.

(** X1: [__getitem__] follows Python's list indexing: an index at or beyond
    the length, or below minus the length, raises IndexError (nothing is
    loaded), and a negative index in range addresses the same sample as the
    length plus that index. *)
Theorem getitem_index_semantics (env : Env) (dir : string) (idx : Z) :
  let self := HyperspectralDataset_init env dir in
  let n := Z.of_nat (HyperspectralDataset_len self) in
  ((n <= idx \/ idx < - n)%Z ->
   HyperspectralDataset_getitem env self idx = Py.Raise Py.IndexError)
  /\ ((- n <= idx < 0)%Z ->
      HyperspectralDataset_getitem env self idx
      = HyperspectralDataset_getitem env self (n + idx)).
Proof.
  cbv zeta. unfold HyperspectralDataset_len, HyperspectralDataset_getitem. split.
  - intros H. rewrite list_getitem_out_of_range by exact H. reflexivity.
  - intros H. rewrite (list_getitem_negative (file_paths _)) by exact H.
    rewrite (list_getitem_negative (labels _)) by (rewrite <- init_lengths; exact H).
    rewrite <- init_lengths. reflexivity.
Qed.

Lemma permute_wrong_rank {A} (x : Tensor.t A) :
  List.length (Tensor.shape x) <> 3 -> Py.raises (Torch.permute [2; 0; 1] x).
Proof.
  intros H. unfold Torch.permute, Torch.is_axis_permutation. cbn [List.length].
  destruct (Nat.eqb 3 (List.length (Tensor.shape x))) eqn:E.
  - apply Nat.eqb_eq in E. congruence.
  - exact I.
Qed.

Lemma resize_malformed (raw : Tensor.t Torch.scalar) :
  List.length (Tensor.shape raw) <> 3 \/ In 0 (Tensor.shape raw) ->
  Py.raises (resize raw).
Proof.
  intros H. unfold resize.
  destruct (Nat.eq_dec (List.length (Tensor.shape raw)) 3) as [E3|N3].
  - destruct H as [H|H]; [contradiction|].
    destruct (Tensor.shape raw) as [|h [|w [|c [|? ?]]]] eqn:Es; try discriminate.
    unfold Torch.permute. cbn [Tensor.map_elts Tensor.shape]. rewrite Es. cbn.
    replace (Nat.eqb (c * h * w) 0) with true; [exact I|].
    symmetry. apply Nat.eqb_eq. cbn in H.
    destruct H as [->|[->|[->|[]]]]; nia.
  - pose proof (permute_wrong_rank (Tensor.map_elts Torch.float32 raw) N3) as Hp.
    destruct (Torch.permute [2; 0; 1] (Tensor.map_elts Torch.float32 raw));
      [destruct Hp|exact I].
Qed.

(** X2: a sample that cannot be used stops [__getitem__]: the exception of
    [np.load] is passed on unchanged, and an array that is not
    three-dimensional or has an axis of size 0 makes it raise; no tensor is
    returned and no sample is skipped. *)
Theorem getitem_malformed_sample (env : Env) (self : HyperspectralDataset) (idx : Z)
    (path : string) :
  Py.list_getitem (file_paths self) idx = Py.Ok path ->
  (forall e, np_load env path = Py.Raise e ->
     HyperspectralDataset_getitem env self idx = Py.Raise e)
  /\ (forall raw, np_load env path = Py.Ok raw ->
        List.length (Tensor.shape raw) <> 3 \/ In 0 (Tensor.shape raw) ->
        Py.raises (HyperspectralDataset_getitem env self idx)).
Proof.
  intros Hpath. unfold HyperspectralDataset_getitem. rewrite Hpath. cbn [Py.bind]. split.
  - intros e He. rewrite He. reflexivity.
  - intros raw Hraw Hbad. rewrite Hraw. cbn [Py.bind].
    pose proof (resize_malformed raw Hbad) as Hr.
    destruct (resize raw); [destruct Hr|exact I].
Qed.

Lemma getitem_malformed_sample_witness :
  (forall e, np_load broken_env "data/kochia_2.npy" = Py.Raise e ->
     HyperspectralDataset_getitem broken_env (HyperspectralDataset_init broken_env "data") 1
     = Py.Raise e)
  /\ (forall raw, np_load broken_env "data/kochia_2.npy" = Py.Ok raw ->
        List.length (Tensor.shape raw) <> 3 \/ In 0 (Tensor.shape raw) ->
        Py.raises (HyperspectralDataset_getitem broken_env
                     (HyperspectralDataset_init broken_env "data") 1)).
Proof.
  apply (getitem_malformed_sample broken_env (HyperspectralDataset_init broken_env "data")
           1 "data/kochia_2.npy").
  reflexivity.
Defined.

(** ** The dataset: what the index holds *)

Lemma list_getitem_position {A} (l : list A) (idx : Z) (a : A) :
  Py.list_getitem l idx = Py.Ok a ->
  exists i, i < List.length l /\ nth_error l i = Some a
    /\ Z.of_nat i = (if (idx <? 0)%Z then Z.of_nat (List.length l) + idx else idx)%Z.
Proof.
  unfold Py.list_getitem.
  set (j := (if (idx <? 0)%Z then Z.of_nat (List.length l) + idx else idx)%Z).
  destruct ((0 <=? j)%Z && (j <? Z.of_nat (List.length l))%Z) eqn:Hr; [|discriminate].
  apply andb_prop in Hr. destruct Hr as [H0 H1].
  apply Z.leb_le in H0. apply Z.ltb_lt in H1.
  destruct (nth_error l (Z.to_nat j)) as [b|] eqn:Hn; [|discriminate].
  intros E. inversion E; subst b. exists (Z.to_nat j). split; [lia|]. split; [exact Hn|lia].
Qed.

Lemma nth_error_fst_snd {A B} (l : list (A * B)) (i : nat) (a : A) (b : B) :
  nth_error (map fst l) i = Some a -> nth_error (map snd l) i = Some b -> In (a, b) l.
Proof.
  revert i. induction l as [|[x y] l IH]; intros [|i]; cbn; try discriminate.
  - intros Ha Hb. inversion Ha; inversion Hb; subst. now left.
  - intros Ha Hb. right. eapply IH; eassumption.
Qed.

(** X3: at every index the stored label is the class of the stored file:
    what [__getitem__] reads as path and label at [idx] is an existing file
    [{name}_{i}.npy] of the directory, with 1 <= i <= 20, and the label is
    the position of [name] among the class names. *)
Theorem label_matches_file_name (env : Env) (dir : string) (idx : Z) (path : string)
    (label : Z) :
  let self := HyperspectralDataset_init env dir in
  Py.list_getitem (file_paths self) idx = Py.Ok path ->
  Py.list_getitem (labels self) idx = Py.Ok label ->
  path_exists env path = true
  /\ exists name i,
       nth_error class_labels (Z.to_nat label) = Some name
       /\ (0 <= label)%Z /\ 1 <= i <= 20
       /\ path = path_join env dir (sample_name name i).
Proof.
  intros self Hp Hl. subst self.
  apply list_getitem_position in Hp. destruct Hp as [i [_ [Hi Ei]]].
  apply list_getitem_position in Hl. destruct Hl as [j [_ [Hj Ej]]].
  assert (Hij : i = j) by (rewrite <- init_lengths in Ej; lia).
  subst j. rewrite init_file_paths in Hi. rewrite init_labels in Hj.
  exact (proj1 (in_indexed_samples env dir path label)
           (nth_error_fst_snd (indexed_samples env dir) i path label Hi Hj)).
Qed.

Lemma label_matches_file_name_witness :
  path_exists two_sample_env "data/kochia_2.npy" = true
  /\ exists name i,
       nth_error class_labels (Z.to_nat 3) = Some name
       /\ (0 <= 3)%Z /\ 1 <= i <= 20
       /\ "data/kochia_2.npy"%string = path_join two_sample_env "data" (sample_name name i).
Proof.
  apply (label_matches_file_name two_sample_env "data" (-1) "data/kochia_2.npy" 3);
    reflexivity.
Defined.

(** The probed names are pairwise different. *)
Lemma distinctb_NoDup (l : list string) : distinctb l = true -> NoDup l.
Proof.
  induction l as [|a l IH]; intros H; [constructor|].
  cbn [distinctb] in H. apply andb_prop in H. destruct H as [Ha Hl].
  constructor; [|now apply IH].
  intros Hin. apply negb_true_iff in Ha.
  assert (existsb (String.eqb a) l = true); [|congruence].
  apply existsb_exists. exists a. split; [exact Hin|apply String.eqb_refl].
Qed.

Lemma probed_names_NoDup : NoDup probed_names.
Proof. apply distinctb_NoDup. vm_compute. reflexivity. Qed.

Lemma NoDup_map_injective {A B} (f : A -> B) (l : list A) :
  (forall a b, In a l -> In b l -> f a = f b -> a = b) ->
  NoDup l -> NoDup (map f l).
Proof.
  intros Hinj Hnd. induction Hnd as [|a l Ha Hnd IH]; cbn [map]; constructor.
  - intros Hin. apply in_map_iff in Hin. destruct Hin as [b [Hb Hin]].
    assert (b = a) by (apply Hinj; [now right|now left|exact Hb]). now subst.
  - apply IH. intros x y Hx Hy. apply Hinj; now right.
Qed.

Lemma NoDup_map_filter {A B} (keep : A -> bool) (f : A -> B) (l : list A)
    (Hnd : NoDup (map f l)) :
  NoDup (map f (filter keep l)).
Proof.
  revert Hnd. induction l as [|a l IH]; cbn [map filter]; intros H; [constructor|].
  inversion H as [|? ? Ha Hl]; subst.
  destruct (keep a); cbn [map]; [|now apply IH].
  constructor; [|now apply IH].
  intros Hin. apply Ha. apply in_map_iff in Hin. destruct Hin as [x [Hx Hin]].
  apply filter_In in Hin. apply in_map_iff. exists x. tauto.
Qed.

Lemma candidate_paths (env : Env) (dir : string) :
  map fst (candidates env dir) = map (path_join env dir) probed_names.
Proof.
  unfold candidates, probed_names, Py.enumerate.
  cbn [class_labels List.length seq map combine flat_map app fst snd].
  reflexivity.
Qed.

(** X4: when [os.path.join] with the directory sends different file names
    to different paths, no file is indexed twice: the paths of the dataset
    are pairwise different. *)
Theorem file_paths_distinct (env : Env) (dir : string) :
  (forall a b, path_join env dir a = path_join env dir b -> a = b) ->
  NoDup (file_paths (HyperspectralDataset_init env dir)).
Proof.
  intros Hinj. rewrite init_file_paths. unfold indexed_samples.
  apply NoDup_map_filter. rewrite candidate_paths.
  apply NoDup_map_injective; [|exact probed_names_NoDup].
  intros a b _ _. apply Hinj.
Qed.

Lemma append_cancel_l (a b c : string) : (a ++ b = a ++ c)%string -> b = c.
Proof.
  induction a as [|ch a IH]; cbn [String.append]; intros H; [exact H|].
  inversion H. now apply IH.
Qed.

Lemma posix_join_injective (dir a b : string) :
  posix_join dir a = posix_join dir b -> a = b.
Proof.
  unfold posix_join. intros H. apply append_cancel_l in H.
  cbn [String.append] in H. now inversion H.
Qed.

Lemma file_paths_distinct_witness :
  NoDup (file_paths (HyperspectralDataset_init full_env "data")).
Proof.
  apply (file_paths_distinct full_env "data").
  intros a b. apply posix_join_injective.
Defined.

Section ClassCounts.

Variable env : Env.
Variable dir : string.
Variable k : Z.

Let found (e : string * Z) : bool := path_exists env (fst e).
Let class_entries (e : Z * string) : list (string * Z) :=
  map (fun i => (path_join env dir (sample_name (snd e) i), fst e)) (seq 1 20).

Lemma count_eq_app (l1 l2 : list Z) :
  Sklearn.count_eq (l1 ++ l2) k = Sklearn.count_eq l1 k + Sklearn.count_eq l2 k.
Proof. unfold Sklearn.count_eq. now rewrite filter_app, length_app. Qed.

Lemma count_in_class (e : Z * string) (idxs : list nat) :
  Sklearn.count_eq
    (map snd (filter found
       (map (fun i => (path_join env dir (sample_name (snd e) i), fst e)) idxs))) k
  = if (fst e =? k)%Z
    then List.length (filter found
           (map (fun i => (path_join env dir (sample_name (snd e) i), fst e)) idxs))
    else 0.
Proof.
  unfold Sklearn.count_eq.
  induction idxs as [|i idxs IH]; cbn [map filter]; [now destruct (fst e =? k)%Z|].
  destruct (found (path_join env dir (sample_name (snd e) i), fst e)); [|exact IH].
  cbn [map filter snd]. destruct (fst e =? k)%Z; cbn [List.length]; now rewrite IH.
Qed.

Lemma count_in_classes (es : list (Z * string)) :
  Sklearn.count_eq (map snd (filter found (flat_map class_entries es))) k
  = Sklearn.sum (map (fun e => if (fst e =? k)%Z
                              then List.length (filter found (class_entries e))
                              else 0) es).
Proof.
  induction es as [|e es IH]; [reflexivity|].
  cbn [flat_map map Sklearn.sum fold_right].
  rewrite filter_app, map_app, count_eq_app, IH.
  unfold class_entries at 1. rewrite count_in_class. reflexivity.
Qed.

Lemma class_entries_length (e : Z * string) :
  List.length (filter found (class_entries e)) <= 20.
Proof.
  eapply Nat.le_trans; [apply filter_length_le|].
  unfold class_entries. now rewrite length_map, length_seq.
Qed.

(** X5: a class never has more than 20 samples in the dataset, and the
    number of labels equal to a class index is the number of that class's
    20 probed files that exist. *)
Theorem per_class_counts :
  let d := HyperspectralDataset_init env dir in
  Sklearn.count_eq (labels d) k <= 20
  /\ forall name, nth_error class_labels (Z.to_nat k) = Some name -> (0 <= k)%Z ->
       Sklearn.count_eq (labels d) k
       = List.length (filter (path_exists env)
           (map (fun i => path_join env dir (sample_name name i)) (seq 1 20))).
Proof.
  intros d. subst d. rewrite init_labels.
  change (indexed_samples env dir)
    with (filter found (flat_map class_entries (Py.enumerate class_labels))).
  rewrite count_in_classes.
  assert (Hlen : forall e, List.length (filter found (class_entries e))
                 = List.length (filter (path_exists env)
                     (map (fun i => path_join env dir (sample_name (snd e) i)) (seq 1 20)))).
  { intros e. unfold class_entries, found.
    rewrite !filter_map_swap, !length_map. reflexivity. }
  pose proof class_entries_length as Hb.
  unfold Py.enumerate.
  cbn [class_labels List.length seq map combine Sklearn.sum fold_right fst snd].
  split.
  - destruct (Z.of_nat 0 =? k)%Z eqn:E0; destruct (Z.of_nat 1 =? k)%Z eqn:E1;
      destruct (Z.of_nat 2 =? k)%Z eqn:E2; destruct (Z.of_nat 3 =? k)%Z eqn:E3;
      destruct (Z.of_nat 4 =? k)%Z eqn:E4; destruct (Z.of_nat 5 =? k)%Z eqn:E5;
      destruct (Z.of_nat 6 =? k)%Z eqn:E6;
      try (apply Z.eqb_eq in E0); try (apply Z.eqb_eq in E1); try (apply Z.eqb_eq in E2);
      try (apply Z.eqb_eq in E3); try (apply Z.eqb_eq in E4); try (apply Z.eqb_eq in E5);
      try (apply Z.eqb_eq in E6); try lia;
      rewrite ?Nat.add_0_r, ?Nat.add_0_l; try apply Hb.
  - intros name Hn Hk.
    assert (Hlt : Z.to_nat k < List.length class_labels).
    { apply nth_error_Some. rewrite Hn. discriminate. }
    change (List.length class_labels) with 7 in Hlt.
    assert (Ek : k = Z.of_nat (Z.to_nat k)) by lia.
    rewrite Ek. rewrite Ek in Hn. rewrite Nat2Z.id in Hn. clear Ek.
    destruct (Z.to_nat k) as [|[|[|[|[|[|[|n]]]]]]]; try lia;
      cbn [nth_error class_labels] in Hn; inversion Hn; subst name;
      cbn [Z.of_nat Pos.of_succ_nat Pos.succ Z.eqb Pos.eqb];
      rewrite ?Nat.add_0_r, ?Nat.add_0_l; apply Hlen.
Qed.

End ClassCounts.

(** ** The dataset: what the constructor reads *)

Lemma candidates_from_probed (env : Env) (dir : string) :
  candidates env dir = map (fun p => (path_join env dir (fst p), snd p)) probed.
Proof.
  unfold candidates, probed.
  induction (Py.enumerate class_labels) as [|e es IH]; [reflexivity|].
  cbn [flat_map]. rewrite map_app, IH, map_map. reflexivity.
Qed.

Lemma probed_fst : map fst probed = probed_names.
Proof. reflexivity. Qed.

(** X6: the constructor reads nothing but the existence of the 140 probed
    names: two file systems that agree on where those names lie and on which
    of them exist give the same paths and labels, whatever else the
    directory holds and whatever the files contain. *)
Theorem init_reads_only_probed_names (env1 env2 : Env) (dir : string) :
  (forall name, In name probed_names ->
     path_join env1 dir name = path_join env2 dir name
     /\ path_exists env1 (path_join env1 dir name)
        = path_exists env2 (path_join env2 dir name)) ->
  HyperspectralDataset_init env1 dir = HyperspectralDataset_init env2 dir.
Proof.
  intros H.
  assert (E : indexed_samples env1 dir = indexed_samples env2 dir).
  { unfold indexed_samples. rewrite !candidates_from_probed, !filter_map_swap.
    cbn [fst].
    rewrite (filter_ext_in (fun p => path_exists env1 (path_join env1 dir (fst p)))
               (fun p => path_exists env2 (path_join env2 dir (fst p)))).
    - apply map_ext_in. intros p Hp. apply filter_In in Hp. destruct Hp as [Hp _].
      destruct (H (fst p)) as [Hj _]; [rewrite <- probed_fst; now apply in_map|].
      now rewrite Hj.
    - intros p Hp.
      destruct (H (fst p)) as [_ He]; [rewrite <- probed_fst; now apply in_map|].
      exact He. }
  unfold HyperspectralDataset_init. rewrite !init_contents, E. reflexivity.
Qed.

Lemma init_reads_only_probed_names_witness :
  HyperspectralDataset_init two_sample_env "data"
  = HyperspectralDataset_init cluttered_env "data".
Proof.
  apply (init_reads_only_probed_names two_sample_env cluttered_env "data").
  assert (Hall : forallb (fun name =>
            Bool.eqb (path_exists two_sample_env (posix_join "data" name))
                     (path_exists cluttered_env (posix_join "data" name)))
            probed_names = true) by (vm_compute; reflexivity).
  rewrite forallb_forall in Hall. intros name Hname. split; [reflexivity|].
  apply Bool.eqb_prop, Hall, Hname.
Defined.

(** ** The classifier: which inputs [forward] accepts *)

Lemma flattened_shape_unfold (k b d h w : N) :
  flattened_shape (HyperspectralCNN_init k) [b; d; h; w]%N
  = (d1 <- nn.conv_out d 3 1 ;; h1 <- nn.conv_out h 3 1 ;; w1 <- nn.conv_out w 10 1 ;;
     d2 <- nn.pool_out d1 2 ;; h2 <- nn.pool_out h1 2 ;; w2 <- nn.pool_out w1 2 ;;
     d3 <- nn.conv_out d2 3 1 ;; h3 <- nn.conv_out h2 3 1 ;; w3 <- nn.conv_out w2 10 1 ;;
     Py.Ok [b; 64 * (d3 * (h3 * (w3 * 1)))])%N.
Proof.
  unfold flattened_shape, HyperspectralCNN_init.
  cbn [nn.unsqueeze1_shape Py.bind conv1 pool1 conv2 nn.conv3d_shape nn.in_channels
       nn.out_channels N.eqb Pos.eqb].
  unfold nn.conv3d_spatial at 1. cbn [nn.kernel_size nn.stride].
  destruct (nn.conv_out d 3 1) as [d1|e]; [|reflexivity]. cbn [Py.bind].
  destruct (nn.conv_out h 3 1) as [h1|e]; [|reflexivity]. cbn [Py.bind].
  destruct (nn.conv_out w 10 1) as [w1|e]; [|reflexivity].
  cbn [Py.bind nn.maxpool3d_shape]. unfold nn.pool3d_spatial. cbn [nn.pool_kernel].
  destruct (nn.pool_out d1 2) as [d2|e]; [|reflexivity]. cbn [Py.bind].
  destruct (nn.pool_out h1 2) as [h2|e]; [|reflexivity]. cbn [Py.bind].
  destruct (nn.pool_out w1 2) as [w2|e]; [|reflexivity].
  cbn [Py.bind nn.conv3d_shape nn.in_channels N.eqb Pos.eqb].
  unfold nn.conv3d_spatial. cbn [nn.kernel_size nn.stride nn.out_channels].
  destruct (nn.conv_out d2 3 1) as [d3|e]; [|reflexivity]. cbn [Py.bind].
  destruct (nn.conv_out h2 3 1) as [h3|e]; [|reflexivity]. cbn [Py.bind].
  destruct (nn.conv_out w2 10 1) as [w3|e]; reflexivity.
Qed.


Lemma pooled_size (s : N) : (2 <= s)%N -> ((s - 2) / 2 + 1 = s / 2)%N.
Proof.
  intros H. replace s with ((s - 2) + 1 * 2)%N at 2 by lia.
  rewrite N.div_add by lia. reflexivity.
Qed.

(** One axis through convolution, pooling, convolution with kernel [k]. *)
Lemma axis_steps (k x : N) :
  (2 <= k)%N -> (3 * k - 1 <= x)%N ->
  nn.conv_out x k 1 = Py.Ok (x - k + 1)%N
  /\ nn.pool_out (x - k + 1) 2 = Py.Ok ((x - k + 1) / 2)%N
  /\ nn.conv_out ((x - k + 1) / 2) k 1 = Py.Ok ((x - k + 1) / 2 - k + 1)%N.
Proof.
  intros Hk Hx.
  assert (Hq : (k <= (x - k + 1) / 2)%N) by (apply N.div_le_lower_bound; lia).
  unfold nn.conv_out, nn.pool_out. rewrite !N.div_1_r.
  destruct (N.ltb_spec x k); [lia|].
  destruct (N.ltb_spec (x - k + 1) 2); [lia|].
  destruct (N.ltb_spec ((x - k + 1) / 2) k); [lia|].
  rewrite pooled_size by lia. repeat split.
Qed.

Lemma axis_refused (k x : N) (s1 s2 s3 : N) :
  (2 <= k)%N -> (x < 3 * k - 1)%N ->
  nn.conv_out x k 1 = Py.Ok s1 -> nn.pool_out s1 2 = Py.Ok s2 ->
  nn.conv_out s2 k 1 = Py.Ok s3 -> False.
Proof.
  intros Hk Hx. unfold nn.conv_out, nn.pool_out. rewrite !N.div_1_r.
  destruct (N.ltb_spec x k); [discriminate|]. intros E1. inversion E1; subst s1.
  destruct (N.ltb_spec (x - k + 1) 2); [discriminate|]. intros E2. inversion E2; subst s2.
  rewrite pooled_size by lia.
  assert (Hq : ((x - k + 1) / 2 < k)%N) by (apply N.Div0.div_lt_upper_bound; lia).
  destruct (N.ltb_spec ((x - k + 1) / 2) k); [discriminate|lia].
Qed.

Lemma flattened_shape_general (k b d h w : N) :
  ((8 <= d /\ 8 <= h /\ 29 <= w)%N ->
   flattened_shape (HyperspectralCNN_init k) [b; d; h; w]%N
   = Py.Ok [b; 64 * (((d - 2) / 2 - 2) * (((h - 2) / 2 - 2) * ((w - 9) / 2 - 9)))]%N)
  /\ ((d < 8 \/ h < 8 \/ w < 29)%N ->
      Py.raises (flattened_shape (HyperspectralCNN_init k) [b; d; h; w]%N)).
Proof.
  rewrite flattened_shape_unfold. split.
  - intros [Hd [Hh Hw]].
    destruct (axis_steps 3 d ltac:(lia) ltac:(lia)) as [D1 [D2 D3]].
    destruct (axis_steps 3 h ltac:(lia) ltac:(lia)) as [H1 [H2 H3]].
    destruct (axis_steps 10 w ltac:(lia) ltac:(lia)) as [W1 [W2 W3]].
    rewrite D1, H1, W1. cbn [Py.bind]. rewrite D2, H2, W2. cbn [Py.bind].
    rewrite D3, H3, W3. cbn [Py.bind].
    assert (Ed : ((d - 3 + 1) / 2 - 3 + 1 = (d - 2) / 2 - 2)%N).
    { assert (3 <= (d - 3 + 1) / 2)%N by (apply N.div_le_lower_bound; lia).
      replace (d - 3 + 1)%N with (d - 2)%N in * by lia. lia. }
    assert (Eh : ((h - 3 + 1) / 2 - 3 + 1 = (h - 2) / 2 - 2)%N).
    { assert (3 <= (h - 3 + 1) / 2)%N by (apply N.div_le_lower_bound; lia).
      replace (h - 3 + 1)%N with (h - 2)%N in * by lia. lia. }
    assert (Ew : ((w - 10 + 1) / 2 - 10 + 1 = (w - 9) / 2 - 9)%N).
    { assert (10 <= (w - 10 + 1) / 2)%N by (apply N.div_le_lower_bound; lia).
      replace (w - 10 + 1)%N with (w - 9)%N in * by lia. lia. }
    rewrite Ed, Eh, Ew, N.mul_1_r. reflexivity.
  - intros Hbad.
    destruct (nn.conv_out d 3 1) as [d1|] eqn:D1; [|exact I]. cbn [Py.bind].
    destruct (nn.conv_out h 3 1) as [h1|] eqn:H1; [|exact I]. cbn [Py.bind].
    destruct (nn.conv_out w 10 1) as [w1|] eqn:W1; [|exact I]. cbn [Py.bind].
    destruct (nn.pool_out d1 2) as [d2|] eqn:D2; [|exact I]. cbn [Py.bind].
    destruct (nn.pool_out h1 2) as [h2|] eqn:H2; [|exact I]. cbn [Py.bind].
    destruct (nn.pool_out w1 2) as [w2|] eqn:W2; [|exact I]. cbn [Py.bind].
    destruct (nn.conv_out d2 3 1) as [d3|] eqn:D3; [|exact I]. cbn [Py.bind].
    destruct (nn.conv_out h2 3 1) as [h3|] eqn:H3; [|exact I]. cbn [Py.bind].
    destruct (nn.conv_out w2 10 1) as [w3|] eqn:W3; [|exact I]. cbn [Py.bind].
    destruct Hbad as [Hd|[Hh|Hw]].
    + exact (axis_refused 3 d d1 d2 d3 ltac:(lia) ltac:(lia) D1 D2 D3).
    + exact (axis_refused 3 h h1 h2 h3 ltac:(lia) ltac:(lia) H1 H2 H3).
    + exact (axis_refused 10 w w1 w2 w3 ltac:(lia) ltac:(lia) W1 W2 W3).
Qed.

(** X7: for a batch of [b] cubes of shape (d, h, w), the features that
    reach [fc1] number 64 * ((d-2)/2 - 2) * ((h-2)/2 - 2) * ((w-9)/2 - 9) per
    cube when d >= 8, h >= 8 and w >= 29; a smaller cube makes a convolution
    or the pooling raise. *)
Theorem flattened_features (k b d h w : N) :
  ((8 <= d /\ 8 <= h /\ 29 <= w)%N ->
   flattened_shape (HyperspectralCNN_init k) [b; d; h; w]%N
   = Py.Ok [b; 64 * (((d - 2) / 2 - 2) * (((h - 2) / 2 - 2) * ((w - 9) / 2 - 9)))]%N)
  /\ ((d < 8 \/ h < 8 \/ w < 29)%N ->
      Py.raises (flattened_shape (HyperspectralCNN_init k) [b; d; h; w]%N)).
Proof. exact (flattened_shape_general k b d h w). Qed.

Lemma fc_layers (k b f : N) :
  (x <- nn.linear_shape (fc1 (HyperspectralCNN_init k)) [b; f] ;;
   nn.linear_shape (fc2 (HyperspectralCNN_init k)) x)
  = if N.eqb f fc1_in_features then Py.Ok [b; k]
    else Py.Raise (Py.RuntimeError "mat1 and mat2 shapes cannot be multiplied").
Proof.
  unfold nn.linear_shape. cbn [rev app fc1 fc2 HyperspectralCNN_init nn.in_features
                               nn.out_features].
  destruct (N.eqb f fc1_in_features); reflexivity.
Qed.

(** X8: [forward] returns scores of shape (b, num_classes) exactly for the
    cubes (d, h, w) with d >= 8, h >= 8, w >= 29 whose three reduced sizes
    multiply to 15 * 15 * 53 = 11925 (a cube of shape (112, 36, 57) is one);
    on every other cube it raises. *)
Theorem forward_accepts (k b d h w : N) :
  let features :=
    (((d - 2) / 2 - 2) * (((h - 2) / 2 - 2) * ((w - 9) / 2 - 9)))%N in
  ((8 <= d /\ 8 <= h /\ 29 <= w /\ features = 11925)%N ->
   forward_shape (HyperspectralCNN_init k) [b; d; h; w]%N = Py.Ok [b; k])
  /\ ((d < 8 \/ h < 8 \/ w < 29 \/ features <> 11925)%N ->
      Py.raises (forward_shape (HyperspectralCNN_init k) [b; d; h; w]%N))
  /\ forward_shape (HyperspectralCNN_init k) [b; 112; 36; 57]%N = Py.Ok [b; k].
Proof.
  intros features.
  assert (Hok : (8 <= d /\ 8 <= h /\ 29 <= w /\ features = 11925)%N ->
                forward_shape (HyperspectralCNN_init k) [b; d; h; w]%N = Py.Ok [b; k]).
  { intros [Hd [Hh [Hw Hf]]]. unfold forward_shape.
    rewrite (proj1 (flattened_shape_general k b d h w)) by tauto.
    cbn [Py.bind]. rewrite fc_layers. fold features. rewrite Hf. reflexivity. }
  split; [exact Hok|]. split.
  - intros Hbad. unfold forward_shape.
    destruct (N.ltb_spec d 8) as [Hd|Hd].
    { pose proof (proj2 (flattened_shape_general k b d h w) (or_introl Hd)) as Hr.
      destruct (flattened_shape (HyperspectralCNN_init k) [b; d; h; w]%N);
        [destruct Hr|exact I]. }
    destruct (N.ltb_spec h 8) as [Hh|Hh].
    { pose proof (proj2 (flattened_shape_general k b d h w) (or_intror (or_introl Hh))) as Hr.
      destruct (flattened_shape (HyperspectralCNN_init k) [b; d; h; w]%N);
        [destruct Hr|exact I]. }
    destruct (N.ltb_spec w 29) as [Hw|Hw].
    { pose proof (proj2 (flattened_shape_general k b d h w) (or_intror (or_intror Hw))) as Hr.
      destruct (flattened_shape (HyperspectralCNN_init k) [b; d; h; w]%N);
        [destruct Hr|exact I]. }
    rewrite (proj1 (flattened_shape_general k b d h w)) by tauto.
    cbn [Py.bind]. rewrite fc_layers. fold features.
    destruct (N.eqb (64 * features) fc1_in_features) eqn:E; [|exact I].
    apply N.eqb_eq in E. unfold fc1_in_features in E.
    destruct Hbad as [H|[H|[H|H]]]; try lia.
  - vm_compute. reflexivity.
Qed.

(** ** The training loop: edges *)

Section TrainingEdges.

Variable F : Framework.

Lemma epoch_step_raise (dataloaders : phase -> DataLoader F) (e : Py.exn) (epoch : nat) :
  epoch_step dataloaders (Py.Raise e) epoch = Py.Raise e.
Proof. reflexivity. Qed.

Lemma epochs_raise (dataloaders : phase -> DataLoader F) (e : Py.exn) (l : list nat) :
  fold_left (epoch_step dataloaders) l (Py.Raise e) = Py.Raise e.
Proof. induction l as [|x l IH]; [reflexivity|]. cbn [fold_left]. exact IH. Qed.

Lemma run_phase_empty (ph : phase) (s : state F) (loader : DataLoader F) (epoch : nat) :
  dataset_len loader = 0 \/ batches loader epoch = [] ->
  run_phase ph s loader epoch = Py.Raise Py.ZeroDivisionError
  \/ run_phase ph s loader epoch = Py.Raise (Py.AttributeError no_double_message).
Proof.
  intros H. unfold run_phase.
  destruct (Nat.eq_dec (dataset_len loader) 0) as [E|E].
  - left. destruct (fold_left (batch_step ph) (batches loader epoch) _) as [[s1 l1] c1].
    unfold float_div. rewrite E. reflexivity.
  - right. destruct H as [H|H]; [contradiction|]. rewrite H. cbn [fold_left].
    unfold float_div. apply Nat.eqb_neq in E. rewrite E. reflexivity.
Qed.

Lemma run_phase_state (ph : phase) (s s' : state F) (loader : DataLoader F) (epoch : nat)
    (l a : Q) :
  run_phase ph s loader epoch = Py.Ok (s', l, a) -> s' = after_phase ph s loader epoch.
Proof.
  unfold run_phase, after_phase.
  pose proof (batch_loop F ph (batches loader epoch)
                (set_training (phase_eqb ph Train) s) 0%Q (PyInt 0)) as [Hs _].
  destruct (fold_left (batch_step ph) (batches loader epoch) _) as [[s1 l1] c1].
  cbn [fst] in Hs. subst s1.
  destruct (float_div l1 (dataset_len loader)); [|discriminate]. cbn [Py.bind].
  destruct (corrects_double c1); [|discriminate]. cbn [Py.bind].
  intros E. inversion E. reflexivity.
Qed.

Lemma epoch_step_empty (dataloaders : phase -> DataLoader F) (s : state F)
    (tl va : list Q) (epoch : nat) (ph : phase) :
  dataset_len (dataloaders ph) = 0 \/ batches (dataloaders ph) epoch = [] ->
  empty_loader_error F (epoch_step dataloaders (Py.Ok (s, tl, va)) epoch).
Proof.
  intros H. unfold epoch_step, empty_loader_error. cbn [fold_left].
  unfold phase_step. cbn [Py.bind phase_eqb].
  destruct (run_phase Train s (dataloaders Train) epoch) as [[[s1 l1] a1]|e] eqn:E1.
  - cbn [Py.bind]. destruct ph.
    + destruct (run_phase_empty Train s (dataloaders Train) epoch H) as [E|E];
        congruence.
    + destruct (run_phase_empty Val s1 (dataloaders Val) epoch H) as [E|E];
        rewrite E; cbn [Py.bind]; [left|right]; reflexivity.
  - cbn [Py.bind].
    assert (He : e = Py.ZeroDivisionError \/ e = Py.AttributeError no_double_message).
    { revert E1. unfold run_phase.
      destruct (fold_left (batch_step Train) (batches (dataloaders Train) epoch) _)
        as [[s1 l1] c1].
      unfold float_div. destruct (Nat.eqb (dataset_len (dataloaders Train)) 0).
      - cbn [Py.bind]. intros E. inversion E. now left.
      - cbn [Py.bind]. destruct c1; cbn [corrects_double Py.bind]; intros E;
          inversion E. now right. }
    destruct He as [-> | ->]; [left|right]; reflexivity.
Qed.

Lemma epoch_step_result (dataloaders : phase -> DataLoader F) (s : state F)
    (tl va : list Q) (epoch : nat) :
  empty_loader_error F (epoch_step dataloaders (Py.Ok (s, tl, va)) epoch)
  \/ exists l a,
       epoch_step dataloaders (Py.Ok (s, tl, va)) epoch
       = Py.Ok (after_phase Val (after_phase Train s (dataloaders Train) epoch)
                  (dataloaders Val) epoch, tl ++ [l], va ++ [a]).
Proof.
  destruct (Nat.eq_dec (dataset_len (dataloaders Train)) 0) as [E1|E1].
  { left. apply (epoch_step_empty dataloaders s tl va epoch Train). now left. }
  destruct (Nat.eq_dec (dataset_len (dataloaders Val)) 0) as [E2|E2].
  { left. apply (epoch_step_empty dataloaders s tl va epoch Val). now left. }
  destruct (batches (dataloaders Train) epoch) as [|b1 bs1] eqn:B1.
  { left. apply (epoch_step_empty dataloaders s tl va epoch Train). now right. }
  destruct (batches (dataloaders Val) epoch) as [|b2 bs2] eqn:B2.
  { left. apply (epoch_step_empty dataloaders s tl va epoch Val). now right. }
  right.
  destruct (epoch_step_metrics F dataloaders s tl va epoch) as [l [a [E _]]].
  - intros [|]; lia.
  - intros [|]; congruence.
  - exists l, a. exact E.
Qed.

Lemma epochs_result (dataloaders : phase -> DataLoader F) (model : state F) (n : nat) :
  empty_loader_error F (fold_left (epoch_step dataloaders) (seq 0 n) (Py.Ok (model, [], [])))
  \/ exists tl va,
       fold_left (epoch_step dataloaders) (seq 0 n) (Py.Ok (model, [], []))
       = Py.Ok (epoch_start model dataloaders n, tl, va).
Proof.
  induction n as [|n IH].
  - right. exists [], []. reflexivity.
  - rewrite seq_S, fold_left_app. cbn [Nat.add fold_left].
    destruct IH as [[E|E]|[tl [va E]]]; rewrite E.
    + left. left. reflexivity.
    + left. right. reflexivity.
    + destruct (epoch_step_result dataloaders (epoch_start model dataloaders n) tl va n)
        as [H|[l [a H]]]; [left; exact H|].
      right. exists (tl ++ [l]), (va ++ [a]). exact H.
Qed.

(** X9: a loader that has an empty dataset or yields no batch stops
    training: if in some epoch below [num_epochs] either phase's loader is
    so, [train_model] raises ZeroDivisionError (empty dataset) or
    AttributeError (no batch: [running_corrects] is still the integer 0 when
    [.double()] is called on it) and returns no history. *)
Theorem train_model_empty_loader (model : state F) (dataloaders : phase -> DataLoader F)
    (num_epochs epoch : nat) (ph : phase) :
  epoch < num_epochs ->
  dataset_len (dataloaders ph) = 0 \/ batches (dataloaders ph) epoch = [] ->
  train_model model dataloaders num_epochs = Py.Raise Py.ZeroDivisionError
  \/ train_model model dataloaders num_epochs
     = Py.Raise (Py.AttributeError no_double_message).
Proof.
  intros He Hbad. unfold train_model, Py.range. rewrite Nat.sub_0_r.
  replace num_epochs with (epoch + S (num_epochs - S epoch)) by lia.
  rewrite seq_app, fold_left_app. cbn [Nat.add seq fold_left].
  destruct (epochs_result dataloaders model epoch) as [[E|E]|[tl [va E]]]; rewrite E.
  - left. rewrite epoch_step_raise. apply epochs_raise.
  - right. rewrite epoch_step_raise. apply epochs_raise.
  - destruct (epoch_step_empty dataloaders (epoch_start model dataloaders epoch) tl va
                epoch ph Hbad) as [E'|E']; rewrite E'; [left|right]; apply epochs_raise.
Qed.

Lemma after_batch_training (ph : phase) (s : state F) (b : batch F) :
  training (after_batch ph s b) = training s.
Proof.
  unfold after_batch, batch_step.
  destruct (model_call F (training s) (params s) (gen s) b).
  destruct (phase_eqb ph Train); [|reflexivity].
  destruct (optimizer_step F (opt s) (params s) _). reflexivity.
Qed.

Lemma after_batches_training (ph : phase) (bs : list (batch F)) (s : state F) :
  training (fold_left (after_batch ph) bs s) = training s.
Proof.
  revert s. induction bs as [|b bs IH]; intros s; [reflexivity|].
  cbn [fold_left]. rewrite IH. apply after_batch_training.
Qed.

(** X10: the mode flag is the phase's after any number of the phase's
    batches (training mode in the train phase, evaluation mode in the val
    phase, whatever it was before), and a model returned after at least one
    epoch is in evaluation mode. *)
Theorem model_mode_follows_phase (model : state F) (dataloaders : phase -> DataLoader F) :
  (forall (ph : phase) (s : state F) (done : list (batch F)),
     training (fold_left (after_batch ph) done (set_training (phase_eqb ph Train) s))
     = phase_eqb ph Train)
  /\ (forall (n : nat) (s : state F) (train_loss val_acc : list Q),
        train_model model dataloaders (S n) = Py.Ok (s, train_loss, val_acc) ->
        training s = false).
Proof.
  split.
  - intros ph s done. rewrite after_batches_training. reflexivity.
  - intros n s tl va E. unfold train_model, Py.range in E. rewrite Nat.sub_0_r in E.
    destruct (epochs_result dataloaders model (S n)) as [[H|H]|[tl' [va' H]]];
      rewrite H in E; try discriminate.
    inversion E. cbn [epoch_start]. unfold after_phase at 1.
    rewrite after_batches_training. reflexivity.
Qed.

(** X11: the histories only grow: when [train_model] returns for one more
    epoch, it also returns for the epochs before, and the longer run's
    histories are the shorter run's with one value appended each. *)
Theorem histories_append_only (model : state F) (dataloaders : phase -> DataLoader F)
    (n : nat) (s' : state F) (train_loss' val_acc' : list Q) :
  train_model model dataloaders (S n) = Py.Ok (s', train_loss', val_acc') ->
  exists s train_loss val_acc epoch_loss epoch_acc,
    train_model model dataloaders n = Py.Ok (s, train_loss, val_acc)
    /\ train_loss' = train_loss ++ [epoch_loss]
    /\ val_acc' = val_acc ++ [epoch_acc]
    /\ s' = after_phase Val (after_phase Train s (dataloaders Train) n)
              (dataloaders Val) n.
Proof.
  unfold train_model, Py.range. rewrite !Nat.sub_0_r, seq_S, fold_left_app.
  cbn [Nat.add fold_left].
  destruct (epochs_result dataloaders model n) as [[H|H]|[tl [va H]]]; rewrite H;
    try (rewrite epoch_step_raise; discriminate).
  destruct (epoch_step_result dataloaders (epoch_start model dataloaders n) tl va n)
    as [[H'|H']|[l [a H']]]; rewrite H'; try discriminate.
  intros E. inversion E. exists (epoch_start model dataloaders n), tl, va, l, a.
  repeat split.
Qed.

End TrainingEdges.

Lemma train_model_empty_loader_witness :
  train_model toy_model toy_loaders_no_val 3 = Py.Raise Py.ZeroDivisionError
  \/ train_model toy_model toy_loaders_no_val 3
     = Py.Raise (Py.AttributeError no_double_message).
Proof.
  apply (train_model_empty_loader toy_framework toy_model toy_loaders_no_val 3 0 Val).
  - lia.
  - right. reflexivity.
Defined.

Lemma histories_append_only_witness :
  exists s train_loss val_acc epoch_loss epoch_acc,
    train_model toy_model toy_loaders 1 = Py.Ok (s, train_loss, val_acc)
    /\ [15 # 3; 15 # 3]%Q = train_loss ++ [epoch_loss]
    /\ [1 # 2; 1 # 2]%Q = val_acc ++ [epoch_acc]
    /\ Build_state toy_framework 0%Z 0%Z 4 false 4
       = after_phase Val (after_phase Train s (toy_loaders Train) 1) (toy_loaders Val) 1.
Proof.
  apply (histories_append_only toy_framework toy_model toy_loaders 1).
  vm_compute. reflexivity.
Defined.

(** ** The training loop: the range of the metrics *)

Section MetricRanges.

Variable F : Framework.
Hypothesis count_bounded : forall out b,
  (0 <= count_correct F out b <= Z.of_nat (batch_size F b))%Z.
Hypothesis loss_nonneg : forall out b, (0 <= criterion F out b)%Q.

Lemma records_bounds (ph : phase) (bs : list (batch F)) (s : state F) :
  (0 <= scaled_loss_sum (batch_records ph s bs))%Q
  /\ (0 <= correct_sum (batch_records ph s bs)
      <= Z.of_nat (list_sum (map (batch_size F) bs)))%Z.
Proof.
  revert s. induction bs as [|b bs IH]; intros s.
  - cbn. split; [apply Qle_refl|lia].
  - cbn [batch_records map].
    change (list_sum (batch_size F b :: map (batch_size F) bs))
      with (batch_size F b + list_sum (map (batch_size F) bs)).
    destruct (IH (after_batch ph s b)) as [IHl IHc].
    unfold scaled_loss_sum, correct_sum in *. cbn [fold_right fst snd]. split.
    + apply (Qplus_le_compat 0 _ 0); [|exact IHl].
      apply Qmult_le_0_compat; [apply loss_nonneg|].
      unfold Torch.Qnat. rewrite <- (Zle_Qle 0). lia.
    + pose proof (count_bounded
        (fst (model_call F (training s) (params s) (gen s) b)) b). lia.
Qed.

(** X12: when the loss of a batch is never negative, its correct count
    lies between 0 and the batch size, and the sizes of the batches a loader
    yields add up to at most the size of its dataset, every phase that
    returns has an epoch loss of at least 0 and an epoch accuracy in
    [0, 1]. *)
Theorem epoch_metrics_in_range (ph : phase) (s s' : state F) (loader : DataLoader F)
    (epoch : nat) (epoch_loss epoch_acc : Q) :
  list_sum (map (batch_size F) (batches loader epoch)) <= dataset_len loader ->
  run_phase ph s loader epoch = Py.Ok (s', epoch_loss, epoch_acc) ->
  (0 <= epoch_loss)%Q /\ (0 <= epoch_acc)%Q /\ (epoch_acc <= 1)%Q.
Proof.
  intros Hsize. unfold run_phase.
  pose proof (batch_loop F ph (batches loader epoch)
                (set_training (phase_eqb ph Train) s) 0%Q (PyInt 0)) as [_ [Hl [Hc _]]].
  destruct (records_bounds ph (batches loader epoch)
              (set_training (phase_eqb ph Train) s)) as [Bl Bc].
  destruct (fold_left (batch_step ph) (batches loader epoch) _) as [[s1 l1] c1].
  cbn [fst snd corrects_value] in Hl, Hc. rewrite Z.add_0_l in Hc.
  unfold float_div. destruct (Nat.eqb (dataset_len loader) 0) eqn:E; [discriminate|].
  apply Nat.eqb_neq in E. cbn [Py.bind].
  destruct c1 as [n|n]; [discriminate|]. cbn [corrects_double Py.bind corrects_value] in *.
  intros R. inversion R; subst. clear R.
  assert (Hpos : (0 < Torch.Qnat (dataset_len loader))%Q).
  { unfold Torch.Qnat. rewrite <- (Zlt_Qlt 0). lia. }
  split; [|split].
  - apply Qle_shift_div_l; [exact Hpos|]. rewrite Qmult_0_l, Hl, Qplus_0_l. exact Bl.
  - apply Qle_shift_div_l; [exact Hpos|]. rewrite Qmult_0_l.
    rewrite <- (Zle_Qle 0). lia.
  - apply Qle_shift_div_r; [exact Hpos|]. rewrite Qmult_1_l.
    unfold Torch.Qnat. rewrite <- Zle_Qle. lia.
Qed.

End MetricRanges.

Lemma toy_count_bounded (out : logits toy_framework) (b : batch toy_framework) :
  (0 <= count_correct toy_framework out b <= Z.of_nat (batch_size toy_framework b))%Z.
Proof.
  cbn [count_correct batch_size toy_framework]. split; [lia|].
  apply Nat2Z.inj_le. eapply Nat.le_trans; [apply filter_length_le|].
  rewrite length_combine. apply Nat.le_min_r.
Qed.

Lemma toy_loss_nonneg (out : logits toy_framework) (b : batch toy_framework) :
  (0 <= criterion toy_framework out b)%Q.
Proof.
  cbn [criterion toy_framework]. rewrite <- (Zle_Qle 0).
  induction (combine out b) as [|p l IH]; cbn [map fold_right]; lia.
Qed.

Lemma epoch_metrics_in_range_witness :
  (0 <= 15 # 3)%Q /\ (0 <= 0 # 3)%Q /\ (0 # 3 <= 1)%Q.
Proof.
  apply (epoch_metrics_in_range toy_framework toy_count_bounded toy_loss_nonneg
           Train toy_model
           (Build_state toy_framework 0%Z 3%Z 2 true 2) (toy_loaders Train) 0).
  - vm_compute. lia.
  - vm_compute. reflexivity.
Defined.

(** ** The loader on a sample of the nominal size *)

Lemma mul_one (q : Q) :
  Torch.round32 q = Torch.Fin q -> Torch.mul (Torch.Fin 1) (Torch.Fin q) = Torch.Fin q.
Proof.
  intros E. cbn [Torch.mul]. rewrite (FloatFacts.round32_comp (1 * q) q); [exact E|ring].
Qed.

Lemma mul_zero (q : Q) : Torch.mul (Torch.Fin 0) (Torch.Fin q) = Torch.Fin 0.
Proof. cbn [Torch.mul]. apply FloatFacts.round32_zero. ring. Qed.

Lemma add_zero (q : Q) :
  Torch.round32 q = Torch.Fin q -> Torch.add (Torch.Fin q) (Torch.Fin 0) = Torch.Fin q.
Proof.
  intros E. cbn [Torch.add]. rewrite (FloatFacts.round32_comp (q + 0) q); [exact E|ring].
Qed.

Lemma float32_rounded (v : Torch.scalar) (q : Q) :
  Torch.float32 v = Torch.Fin q -> Torch.round32 q = Torch.Fin q.
Proof.
  destruct v as [x| | |]; try discriminate. cbn [Torch.float32].
  apply FloatFacts.round32_idempotent.
Qed.

Lemma is_finite_Fin (v : Torch.scalar) :
  Torch.is_finite v = true -> exists q, v = Torch.Fin q.
Proof. destruct v; try discriminate. eauto. Qed.

(** At 32 x 32 the resize copies: a finite value comes out as it went in. *)
Lemma resize_same_size (raw : Tensor.t Torch.scalar) (C : nat) :
  Tensor.shape raw = [32; 32; C] -> 0 < C ->
  exists cube,
    resize raw = Py.Ok cube
    /\ Tensor.shape cube = [C; 32; 32]
    /\ forall c y z,
         Torch.is_finite (Torch.float32 (Tensor.get raw [y; z; c])) = true ->
         Tensor.get cube [c; y; z] = Torch.float32 (Tensor.get raw [y; z; c]).
Proof.
  intros Hs HC.
  destruct (resize_get raw 32 32 C Hs ltac:(lia) ltac:(lia) HC)
    as [cube [Hcube [Hshape Hget]]].
  exists cube. split; [exact Hcube|]. split; [exact Hshape|].
  intros c y z Hfin. rewrite Hget.
  change (Torch.source_cell 32 32 y)
    with {| Torch.i0 := y; Torch.i1 := y;
            Torch.lambda0 := Torch.Fin 1; Torch.lambda1 := Torch.Fin 0 |}.
  change (Torch.source_cell 32 32 z)
    with {| Torch.i0 := z; Torch.i1 := z;
            Torch.lambda0 := Torch.Fin 1; Torch.lambda1 := Torch.Fin 0 |}.
  cbn [Torch.i0 Torch.i1 Torch.lambda0 Torch.lambda1].
  destruct (is_finite_Fin _ Hfin) as [q Eq]. rewrite Eq.
  pose proof (float32_rounded _ q Eq) as R.
  rewrite (mul_one q R), (mul_zero q), (add_zero q R), (mul_one q R), (mul_zero q).
  exact (add_zero q R).
Qed.

(** X14: a raw array that is already 32 x 32 goes through the resize
    unchanged but for the conversion to float32: the cube has the bands
    first and, at every band and pixel whose value is finite, the float32
    nearest to the value the raw array has there. *)
Theorem resize_keeps_32_by_32 (raw : Tensor.t Torch.scalar) (C : nat) :
  Tensor.shape raw = [32; 32; C] -> 0 < C ->
  exists cube,
    resize raw = Py.Ok cube
    /\ Tensor.shape cube = [C; 32; 32]
    /\ forall c y z,
         Torch.is_finite (Torch.float32 (Tensor.get raw [y; z; c])) = true ->
         Tensor.get cube [c; y; z] = Torch.float32 (Tensor.get raw [y; z; c]).
Proof. exact (resize_same_size raw C). Qed.

Lemma resize_keeps_32_by_32_witness :
  exists cube,
    resize square_sample = Py.Ok cube
    /\ Tensor.shape cube = [2; 32; 32]
    /\ forall c y z,
         Torch.is_finite (Torch.float32 (Tensor.get square_sample [y; z; c])) = true ->
         Tensor.get cube [c; y; z] = Torch.float32 (Tensor.get square_sample [y; z; c]).
Proof.
  apply (resize_keeps_32_by_32 square_sample 2); [reflexivity|lia].
Defined.

(** ** The loader: the extremes of the normalization *)

(** X16: for a cube with a finite minimum and maximum whose float32
    difference is a finite number other than zero, the normalization returns
    0 at a place of the minimum and 1 at a place of the maximum, keeps the
    order of the values, and stays in [0, 1]. *)
Theorem normalize_spans_unit_interval (cube : Tensor.t Torch.scalar) (lo hi d : Q) :
  Torch.min cube = Py.Ok (Torch.Fin lo) -> Torch.max cube = Py.Ok (Torch.Fin hi) ->
  Torch.sub (Torch.Fin hi) (Torch.Fin lo) = Torch.Fin d -> ~ (d == 0)%Q ->
  exists out,
    normalize cube = Py.Ok out
    /\ (exists i, Tensor.in_range (Tensor.shape cube) i
          /\ Tensor.get cube i = Torch.Fin lo /\ Tensor.get out i = Torch.Fin 0)
    /\ (exists i, Tensor.in_range (Tensor.shape cube) i
          /\ Tensor.get cube i = Torch.Fin hi /\ Tensor.get out i = Torch.Fin 1)
    /\ forall i j v w,
         Tensor.in_range (Tensor.shape cube) i -> Tensor.in_range (Tensor.shape cube) j ->
         Tensor.get cube i = Torch.Fin v -> Tensor.get cube j = Torch.Fin w -> (v <= w)%Q ->
         exists p q, Tensor.get out i = Torch.Fin p /\ Tensor.get out j = Torch.Fin q
                     /\ (0 <= p)%Q /\ (p <= q)%Q /\ (q <= 1)%Q.
Proof.
  intros Hlo Hhi Ed Hne.
  destruct (min_attained cube lo Hlo) as [il [Hil El]].
  destruct (max_attained cube hi Hhi) as [ih [Hih Eh]].
  assert (Hle : (lo <= hi)%Q).
  { destruct (extremes_finite cube lo hi il Hlo Hhi Hil) as [v [E [A B]]].
    rewrite El in E. inversion E; subst v. exact B. }
  assert (Hd : (0 < d)%Q).
  { pose proof Ed as Ed'. rewrite sub_Fin in Ed'.
    destruct (FloatFacts.round32_mono 0 (hi - lo) d (Qle_refl 0) ltac:(lra) Ed')
      as [z [_ [Hz1 Hz2]]].
    apply Qle_lt_or_eq in Hz1. apply Qle_lt_or_eq in Hz2.
    destruct Hz2 as [H|H]; [lra|]. destruct Hz1 as [H'|H']; [lra|].
    exfalso. apply Hne. rewrite <- H. symmetry. exact H'. }
  assert (Hz : Qeq_bool d 0 = false).
  { apply not_true_iff_false. intros C. apply Qeq_bool_iff in C. contradiction. }
  exists (Tensor.map_elts
            (fun v => Torch.div (Torch.sub v (Torch.Fin lo))
                        (Torch.sub (Torch.Fin hi) (Torch.Fin lo))) cube).
  split; [now apply normalize_unfold|].
  cbn [Tensor.map_elts Tensor.get]. rewrite Ed. split; [|split].
  - exists il. split; [exact Hil|]. split; [exact El|]. rewrite El, sub_Fin.
    rewrite (FloatFacts.round32_zero (lo - lo)) by ring. cbn [Torch.div]. rewrite Hz.
    apply FloatFacts.round32_zero. field. exact Hne.
  - exists ih. split; [exact Hih|]. split; [exact Eh|]. rewrite Eh, Ed.
    cbn [Torch.div]. rewrite Hz. apply FloatFacts.round32_one. field. exact Hne.
  - intros i j v w Hi Hj Ei Ej Hvw. rewrite Ei, Ej.
    destruct (extremes_finite cube lo hi i Hlo Hhi Hi) as [v' [E1 [A1 B1]]].
    destruct (extremes_finite cube lo hi j Hlo Hhi Hj) as [w' [E2 [A2 B2]]].
    rewrite Ei in E1. rewrite Ej in E2. inversion E1; inversion E2; subst v' w'.
    exact (normalized_fraction v w lo hi d A1 Hvw B2 Ed Hd).
Qed.

Lemma normalize_spans_unit_interval_witness :
  exists out,
    normalize graded_cube = Py.Ok out
    /\ (exists i, Tensor.in_range (Tensor.shape graded_cube) i
          /\ Tensor.get graded_cube i = Torch.Fin 0 /\ Tensor.get out i = Torch.Fin 0)
    /\ (exists i, Tensor.in_range (Tensor.shape graded_cube) i
          /\ Tensor.get graded_cube i = Torch.Fin 3 /\ Tensor.get out i = Torch.Fin 1)
    /\ forall i j v w,
         Tensor.in_range (Tensor.shape graded_cube) i ->
         Tensor.in_range (Tensor.shape graded_cube) j ->
         Tensor.get graded_cube i = Torch.Fin v -> Tensor.get graded_cube j = Torch.Fin w ->
         (v <= w)%Q ->
         exists p q, Tensor.get out i = Torch.Fin p /\ Tensor.get out j = Torch.Fin q
                     /\ (0 <= p)%Q /\ (p <= q)%Q /\ (q <= 1)%Q.
Proof.
  apply (normalize_spans_unit_interval graded_cube 0 3 3); try reflexivity.
  discriminate.
Defined.

(** ** The stratified split: sizes and class shares *)

Module StratifyFacts.

Import Sklearn.
Import SplitFacts.

Lemma in_slice {A} (p : list A) (a b : nat) (x : A) : In x (slice p a b) -> In x p.
Proof.
  unfold slice. intros H.
  rewrite <- (firstn_skipn a p). apply in_or_app. right.
  rewrite <- (firstn_skipn (b - a) (skipn a p)). apply in_or_app. now left.
Qed.

Lemma slice_front_length {A} (p : list A) (n : nat) :
  n <= List.length p -> List.length (slice p 0 n) = n.
Proof.
  intros H. unfold slice. cbn [skipn]. rewrite Nat.sub_0_r. now apply firstn_length_le.
Qed.

Lemma slice_back_length {A} (p : list A) (n : nat) :
  n <= List.length p ->
  List.length (slice p n (n + (List.length p - n))) = List.length p - n.
Proof.
  intros H. unfold slice.
  replace (n + (List.length p - n) - n) with (List.length p - n) by lia.
  apply firstn_length_le. rewrite length_skipn. lia.
Qed.

Lemma count_eq_split (v : Z) (l1 l2 : list Z) :
  count_eq (l1 ++ l2) v = count_eq l1 v + count_eq l2 v.
Proof. unfold count_eq. now rewrite filter_app, length_app. Qed.

Lemma count_eq_perm (v : Z) (l l' : list Z) :
  Permutation l l' -> count_eq l v = count_eq l' v.
Proof.
  unfold count_eq. induction 1 as [|x l l' _ IH|x x' l|l l' l'' _ IH1 _ IH2].
  - reflexivity.
  - cbn [filter]. destruct (x =? v)%Z; cbn [List.length]; now rewrite IH.
  - cbn [filter]. destruct (x =? v)%Z, (x' =? v)%Z; reflexivity.
  - now rewrite IH1.
Qed.

Lemma labels_at_app (y : list Z) (l1 l2 : list nat) :
  labels_at y (l1 ++ l2) = labels_at y l1 ++ labels_at y l2.
Proof. apply map_app. Qed.

(** Indices that all carry the label [c] count for [c] and for nothing
    else. *)
Lemma count_one_class (y : list Z) (c v : Z) (s : list nat) :
  (forall i, In i s -> nth i y 0%Z = c) ->
  count_eq (labels_at y s) v = if (c =? v)%Z then List.length s else 0.
Proof.
  intros H. unfold count_eq, labels_at.
  induction s as [|i s IH]; [now destruct (c =? v)%Z|].
  cbn [map filter]. rewrite (H i (or_introl eq_refl)).
  pose proof (IH (fun j Hj => H j (or_intror Hj))) as IH'.
  destruct (c =? v)%Z; cbn [List.length]; now rewrite IH'.
Qed.

Section Shares.

Variable G : RandomGen.
Hypothesis Gok : RandomGen_ok G.

(** Every class ends at its floor or one above it. *)
Lemma approximate_mode_floor (class_counts : list nat) (n_draws : nat) (r : rng G) :
  0 < sum class_counts -> n_draws <= sum class_counts ->
  forall i, i < List.length class_counts ->
    nth i class_counts 0 * n_draws / sum class_counts
    <= nth i (fst (approximate_mode G class_counts n_draws r)) 0.
Proof.
  intros HT Hn i Hi. unfold approximate_mode.
  set (T := sum class_counts) in *.
  set (floored := map (fun c => c * n_draws / T) class_counts).
  destruct (floor_sum_bounds class_counts n_draws T HT) as [B1 B2].
  fold T in B1, B2. fold floored in B1, B2.
  assert (Hneed : n_draws - sum floored <= List.length class_counts) by nia.
  assert (Hnth : nth i floored 0 = nth i class_counts 0 * n_draws / T).
  { unfold floored.
    rewrite (nth_indep _ 0 (0 * n_draws / T)) by now rewrite length_map.
    exact (map_nth (fun c => c * n_draws / T) class_counts 0 i). }
  destruct (0 <? n_draws - sum floored) eqn:E.
  - set (rem := map (fun c => Z.of_nat ((c * n_draws) mod T)) class_counts).
    assert (Hlen : List.length floored = List.length rem).
    { unfold floored, rem. now rewrite !length_map. }
    assert (Hcover : sum (map (fun v => List.length (where_eq rem v)) (rev (unique rem)))
                     = List.length rem).
    { rewrite <- (map_map (where_eq rem) (@List.length nat)), <- length_concat_sum.
      rewrite (Permutation_length (where_eq_groups rem (rev (unique rem))
                 (NoDup_rev (unique_NoDup rem))
                 (fun z Hz => proj1 (in_rev _ _) (proj2 (unique_in z rem) Hz)))).
      apply length_seq. }
    destruct (add_rounds_spec G Gok rem (rev (unique rem)) (NoDup_rev (unique_NoDup rem))
                floored (n_draws - sum floored) r Hlen) as [H1 [H2 [H3 H4]]].
    { rewrite Hcover, <- Hlen. unfold floored. rewrite length_map. exact Hneed. }
    destruct (fold_left (add_round G rem) (rev (unique rem))
                (floored, n_draws - sum floored, r)) as [[fl need] r'].
    cbn [fst snd] in *. rewrite <- Hnth.
    destruct (H4 i) as [H|[H _]]; [unfold floored; now rewrite length_map|lia|lia].
  - cbn [fst]. rewrite Hnth. lia.
Qed.

Variable y : list Z.

(** The per-class loop, class by class: how many indices each side
    receives, and of which label. *)
Lemma split_loop_shares (v : Z) (ns : list nat) (classes : list Z) :
  Forall2 (fun n c => n <= List.length (where_eq y c)) ns classes ->
  NoDup classes ->
  forall (train test : list nat) (r : rng G),
  let groups := map (where_eq y) classes in
  let counts := map (@List.length nat) groups in
  let out := fold_left (split_class G)
               (combine (combine (combine groups counts) ns)
                  (map (fun p => fst p - snd p) (combine counts ns)))
               (train, test, r) in
  List.length (fst (fst out)) = List.length train + sum ns
  /\ List.length (snd (fst out)) + sum ns = List.length test + sum counts
  /\ (~ In v classes ->
      count_eq (labels_at y (fst (fst out))) v = count_eq (labels_at y train) v
      /\ count_eq (labels_at y (snd (fst out))) v = count_eq (labels_at y test) v)
  /\ (forall j, j < List.length classes -> nth j classes 0%Z = v ->
      count_eq (labels_at y (fst (fst out))) v
      = count_eq (labels_at y train) v + nth j ns 0
      /\ count_eq (labels_at y (snd (fst out))) v + nth j ns 0
         = count_eq (labels_at y test) v + List.length (where_eq y v)).
Proof.
  induction 1 as [|n c ns classes Hle _ IH]; intros Hnd train test r; cbv zeta.
  - cbn [map combine fold_left fst snd sum fold_right List.length].
    repeat split; try lia; try (intros j Hj; inversion Hj).
  - inversion Hnd as [|c' l' Hc Hnd']; subst.
    cbn [map combine fold_left fst snd]. rewrite split_class_step.
    set (g := where_eq y c) in *.
    pose proof (permutation_ok G Gok r (seq 0 (List.length g))) as Hp.
    set (perm := fst (permutation G r (seq 0 (List.length g)))) in *.
    pose proof (take_clip_perm g perm Hp) as Hg.
    assert (Hlen : List.length (take_clip g perm) = List.length g)
      by exact (Permutation_length Hg).
    set (tc := take_clip g perm) in *.
    assert (Hkey : forall s a b i, s = slice tc a b -> In i s -> nth i y 0%Z = c).
    { intros s a b i -> Hi. apply in_slice in Hi.
      apply (Permutation_in i Hg) in Hi. now apply where_eq_in in Hi. }
    pose proof (slice_front_length tc n ltac:(lia)) as L1.
    pose proof (slice_back_length tc n ltac:(lia)) as L2. rewrite Hlen in L2.
    pose proof (fun i => Hkey (slice tc 0 n) 0 n i eq_refl) as K1.
    pose proof (fun i => Hkey (slice tc n (n + (List.length g - n))) n _ i eq_refl) as K2.
    set (s1 := slice tc 0 n) in *.
    set (s2 := slice tc n (n + (List.length g - n))) in *.
    destruct (IH Hnd' (train ++ s1) (test ++ s2) (snd (permutation G r (seq 0 (List.length g)))))
      as [A1 [A2 [A3 A4]]].
    cbv zeta in A1, A2, A3, A4.
    set (out := fold_left (split_class G) _ _) in *.
    rewrite !length_app in *. rewrite !labels_at_app, !count_eq_split in *.
    pose proof (count_one_class y c v s1 K1) as C1.
    pose proof (count_one_class y c v s2 K2) as C2.
    cbn [sum fold_right]. fold (sum ns).
    fold (sum (map (@List.length nat) (map (where_eq y) classes))).
    split; [lia|]. split; [lia|]. split.
    + intros Hv.
      assert (Hcv : (c =? v)%Z = false).
      { apply Z.eqb_neq. intros ->. apply Hv. now left. }
      rewrite Hcv in C1, C2.
      destruct (A3 (fun H => Hv (or_intror H))) as [A3a A3b]. lia.
    + intros [|j] Hj Hjv; cbn [nth List.length] in *.
      * subst v. rewrite Z.eqb_refl in C1, C2.
        destruct (A3 Hc) as [A3a A3b]. fold g. lia.
      * assert (Hcv : (c =? v)%Z = false).
        { apply Z.eqb_neq. intros ->. apply Hc. rewrite <- Hjv. apply nth_In. lia. }
        rewrite Hcv in C1, C2.
        destruct (A4 j ltac:(lia) Hjv) as [A4a A4b]. lia.
Qed.

(** One draw of the stratified shuffle split, with the sizes of its two
    index arrays and the share of every class in them. *)
Lemma stratified_shuffle_split_shares (n_train n_test : nat) (r : rng G) :
  0 < n_test -> 0 < n_train -> n_train + n_test = List.length y ->
  (forall c, In c y -> 2 <= count_eq y c) ->
  List.length (unique y) <= n_train -> List.length (unique y) <= n_test ->
  exists train test r',
    stratified_shuffle_split G n_train n_test y r = Py.Ok (train, test, r')
    /\ List.length train = n_train
    /\ List.length test = n_test
    /\ forall c, In c y ->
         count_eq (labels_at y train) c + count_eq (labels_at y test) c = count_eq y c
         /\ count_eq y c * n_train / List.length y <= count_eq (labels_at y train) c
         /\ count_eq (labels_at y train) c <= count_eq y c * n_train / List.length y + 1.
Proof.
  intros Htest Htrain Hsum Hcount Hk1 Hk2. unfold stratified_shuffle_split.
  replace ((0 <? n_test) && (n_test <? List.length y) && (0 <? n_train)
           && (n_train <? List.length y) && (n_train + n_test <=? List.length y))
    with true.
  2:{ symmetry. rewrite !andb_true_iff, !Nat.ltb_lt, Nat.leb_le. lia. }
  cbn [negb].
  set (classes := unique y).
  set (cs := map (count_eq y) classes).
  assert (Hall : Forall (fun c => 2 <= c) cs).
  { apply Forall_forall. intros c Hc. apply in_map_iff in Hc.
    destruct Hc as [z [<- Hz]]. apply Hcount, unique_in, Hz. }
  replace (existsb (fun c => c <? 2) cs) with false.
  2:{ symmetry. apply not_true_iff_false. intros E. apply existsb_exists in E.
      destruct E as [c [Hc E]]. apply Nat.ltb_lt in E.
      rewrite Forall_forall in Hall. specialize (Hall c Hc). lia. }
  replace (n_train <? List.length classes) with false
    by (symmetry; apply Nat.ltb_ge; exact Hk1).
  replace (n_test <? List.length classes) with false
    by (symmetry; apply Nat.ltb_ge; exact Hk2).
  set (groups := map (where_eq y) classes).
  assert (Hcs : cs = map (@List.length nat) groups).
  { unfold cs, groups. rewrite map_map. apply map_ext. intros c.
    symmetry. apply where_eq_length. }
  assert (HT : sum cs = List.length y) by apply class_counts_sum.
  assert (Hcsn : forall j, j < List.length classes ->
            nth j cs 0 = count_eq y (nth j classes 0%Z)).
  { intros j Hj. unfold cs.
    rewrite (nth_indep _ 0 (count_eq y 0%Z)) by now rewrite length_map.
    apply map_nth. }
  destruct (approximate_mode_spec G Gok cs n_train r ltac:(lia) ltac:(lia))
    as [Hlen [Hsumn Hnth]].
  pose proof (approximate_mode_floor cs n_train r ltac:(lia) ltac:(lia)) as Hfloor.
  destruct (approximate_mode G cs n_train r) as [n_i r1].
  cbn [fst] in Hlen, Hsumn, Hnth, Hfloor.
  assert (Hlc : List.length cs = List.length classes) by (unfold cs; apply length_map).
  assert (Hle : Forall2 le n_i cs).
  { apply Forall2_of_nth; [exact Hlen|]. intros i Hi.
    specialize (Hnth i Hi). rewrite HT in Hnth.
    assert (Hc : 2 <= nth i cs 0).
    { rewrite Forall_forall in Hall. apply Hall, nth_In, Hi. }
    assert (nth i cs 0 * n_train / List.length y < nth i cs 0).
    { apply Nat.Div0.div_lt_upper_bound. nia. }
    lia. }
  pose proof (sum_remaining cs n_i Hle) as Hrem.
  set (remaining := map (fun p => fst p - snd p) (combine cs n_i)) in *.
  replace n_test with (sum remaining) by lia.
  rewrite (approximate_mode_all G remaining r1) by lia.
  assert (Hle' : Forall2 (fun n c => n <= List.length (where_eq y c)) n_i classes).
  { unfold cs in Hle. apply Forall2_map_right in Hle.
    eapply Forall2_impl; [|exact Hle]. intros n c Hn. cbv beta in Hn.
    now rewrite where_eq_length. }
  pose proof (fun v => split_loop_shares v n_i classes Hle' (unique_NoDup y) [] [] r1)
    as Hloop.
  cbv zeta in Hloop. fold groups in Hloop. rewrite <- Hcs in Hloop.
  fold remaining in Hloop.
  destruct (fold_left (split_class G)
              (combine (combine (combine groups cs) n_i) remaining) ([], [], r1))
    as [[train test] r2].
  cbn [fst snd List.length labels_at map count_eq filter Nat.add] in Hloop.
  pose proof (permutation_ok G Gok r2 train) as Hp1.
  destruct (permutation G r2 train) as [train' r3]. cbn [fst] in Hp1.
  pose proof (permutation_ok G Gok r3 test) as Hp2.
  destruct (permutation G r3 test) as [test' r4]. cbn [fst] in Hp2.
  exists train', test', r4. split; [reflexivity|].
  destruct (Hloop 0%Z) as [L1 [L2 _]].
  split; [rewrite <- (Permutation_length Hp1); lia|].
  split; [rewrite <- (Permutation_length Hp2); lia|].
  intros c Hc.
  rewrite <- (count_eq_perm c (labels_at y train) (labels_at y train')
                (Permutation_map (fun i => nth i y 0%Z) Hp1)).
  rewrite <- (count_eq_perm c (labels_at y test) (labels_at y test')
                (Permutation_map (fun i => nth i y 0%Z) Hp2)).
  apply unique_in in Hc. fold classes in Hc.
  destruct (In_nth classes c 0%Z Hc) as [j [Hj Hjc]].
  destruct (Hloop c) as [_ [_ [_ Hshare]]].
  destruct (Hshare j Hj Hjc) as [S1 S2]. rewrite where_eq_length in S2.
  specialize (Hnth j ltac:(lia)). specialize (Hfloor j ltac:(lia)).
  rewrite (Hcsn j Hj), Hjc, HT in Hnth, Hfloor.
  assert (Hjle : nth j n_i 0 <= count_eq y c).
  { rewrite <- Hjc, <- (Hcsn j Hj). clear - Hle Hj Hlc Hlen.
    revert j Hj. rewrite <- Hlc. clear Hlc. 
    induction Hle as [|a b l l' Hab _ IH]; intros j Hj; [inversion Hj|].
    destruct j as [|j]; [exact Hab|]. cbn [nth]. apply IH; cbn in *; lia. }
  unfold count_eq, labels_at in *. lia.
Qed.

End Shares.

(** What [_validate_shuffle_split] returns when it returns. *)
Lemma validate_shuffle_split_returns (n : nat) (test_size : Q) (n_train n_test : nat) :
  validate_shuffle_split n test_size = Py.Ok (n_train, n_test) ->
  n_test = Z.to_nat (Qceiling (test_size * Torch.Qnat n))
  /\ n_train = n - n_test /\ n_train <> 0.
Proof.
  unfold validate_shuffle_split.
  destruct (negb (Qle_bool test_size 0) && negb (Qle_bool 1 test_size)); [|discriminate].
  destruct (Nat.eqb (n - Z.to_nat (Qceiling (test_size * Torch.Qnat n))) 0) eqn:E;
    [discriminate|].
  apply Nat.eqb_neq in E. intros H. inversion H; subst. auto.
Qed.

(** The checks a draw has passed when it returns. *)
Lemma stratified_shuffle_split_checked (G : RandomGen) (n_train n_test : nat) (y : list Z)
    (r : rng G) (res : list nat * list nat * rng G) :
  stratified_shuffle_split G n_train n_test y r = Py.Ok res ->
  0 < n_test /\ 0 < n_train /\ n_train + n_test <= List.length y
  /\ (forall c, In c y -> 2 <= count_eq y c)
  /\ List.length (unique y) <= n_train /\ List.length (unique y) <= n_test.
Proof.
  unfold stratified_shuffle_split.
  destruct ((0 <? n_test) && (n_test <? List.length y) && (0 <? n_train)
            && (n_train <? List.length y) && (n_train + n_test <=? List.length y)) eqn:E1;
    [|discriminate].
  cbn [negb].
  destruct (existsb (fun c => c <? 2) (map (count_eq y) (unique y))) eqn:E2; [discriminate|].
  destruct (n_train <? List.length (unique y)) eqn:E3; [discriminate|].
  destruct (n_test <? List.length (unique y)) eqn:E4; [discriminate|].
  intros _. rewrite !andb_true_iff, !Nat.ltb_lt, Nat.leb_le in E1.
  apply Nat.ltb_ge in E3, E4.
  repeat split; try lia.
  intros c Hc. destruct (Nat.ltb (count_eq y c) 2) eqn:E5; [|apply Nat.ltb_ge in E5; exact E5].
  exfalso. apply not_true_iff_false in E2. apply E2. apply existsb_exists.
  exists (count_eq y c). split; [|exact E5].
  apply in_map, unique_in, Hc.
Qed.

(** Whenever the split returns, it has drawn the sizes it computed and
    kept every class's share. *)
Lemma train_test_split_returns (G : RandomGen) (n : nat) (test_size : Q) (y : list Z)
    (random_state : option Z) (global : rng G) (train test : list nat) :
  RandomGen_ok G ->
  fst (train_test_split G n test_size y random_state global) = Py.Ok (train, test) ->
  n = List.length y
  /\ List.length test = Z.to_nat (Qceiling (test_size * Torch.Qnat n))
  /\ List.length train = n - List.length test
  /\ 0 < List.length train /\ 0 < List.length test
  /\ Permutation (train ++ test) (seq 0 n)
  /\ forall c, In c y ->
       2 <= count_eq y c
       /\ count_eq (labels_at y train) c + count_eq (labels_at y test) c = count_eq y c
       /\ count_eq y c * List.length train / n <= count_eq (labels_at y train) c
       /\ count_eq (labels_at y train) c <= count_eq y c * List.length train / n + 1.
Proof.
  intros Gok. unfold train_test_split.
  destruct (validate_shuffle_split n test_size) as [[n_train n_test]|e] eqn:Ev;
    [|discriminate].
  apply validate_shuffle_split_returns in Ev. destruct Ev as [Ht [Hn Hne]].
  destruct (Nat.eqb n (List.length y)) eqn:En; [|discriminate].
  apply Nat.eqb_eq in En. cbn [negb].
  destruct (stratified_shuffle_split G n_train n_test y
              (check_random_state G random_state global)) as [[[tr te] r']|e] eqn:Es;
    [|discriminate].
  cbn [fst]. intros E. inversion E; subst tr te. clear E.
  destruct (stratified_shuffle_split_checked G n_train n_test y _ _ Es)
    as [C1 [C2 [C3 [C4 [C5 C6]]]]].
  assert (Hsum : n_train + n_test = List.length y) by lia.
  destruct (stratified_shuffle_split_perm G Gok y n_train n_test
              (check_random_state G random_state global) C1 C2 Hsum C4 C5 C6)
    as [tr [te [r1 [E1 Hperm]]]].
  rewrite Es in E1. inversion E1; subst tr te r1. clear E1.
  destruct (stratified_shuffle_split_shares G Gok y n_train n_test
              (check_random_state G random_state global) C1 C2 Hsum C4 C5 C6)
    as [tr [te [r1 [E1 [L1 [L2 Hshare]]]]]].
  rewrite Es in E1. inversion E1; subst tr te r1. clear E1.
  rewrite L1, L2. rewrite <- En in Hperm, Hshare.
  repeat split; try lia; try assumption; try (now apply C4); apply Hshare; assumption.
Qed.

End StratifyFacts.

(** X17: whenever the split with the script's validation fraction 0.2
    returns, the label array has as many entries as there are samples, the
    validation array holds ceil(n / 5) indices and the training array the
    remaining ones, neither is empty, and the two together are a
    rearrangement of [0, n). *)
Theorem split_sizes (G : Sklearn.RandomGen) (n : nat) (y : list Z)
    (random_state : option Z) (global : Sklearn.rng G) (train val : list nat) :
  Sklearn.RandomGen_ok G ->
  fst (Sklearn.train_test_split G n (1 # 5) y random_state global) = Py.Ok (train, val) ->
  n = List.length y
  /\ List.length val = (n + 4) / 5
  /\ List.length train = n - List.length val
  /\ 0 < List.length train /\ 0 < List.length val
  /\ Permutation (train ++ val) (seq 0 n).
Proof.
  intros Gok E.
  destruct (StratifyFacts.train_test_split_returns G n (1 # 5) y random_state global
              train val Gok E) as [H1 [H2 [H3 [H4 [H5 [H6 _]]]]]].
  rewrite SplitFacts.n_test_fifth in H2.
  repeat split; assumption.
Qed.

Lemma split_sizes_witness :
  35 = List.length (balanced_labels 5)
  /\ List.length (snd split_35) = (35 + 4) / 5
  /\ List.length (fst split_35) = 35 - List.length (snd split_35)
  /\ 0 < List.length (fst split_35) /\ 0 < List.length (snd split_35)
  /\ Permutation (fst split_35 ++ snd split_35) (seq 0 35).
Proof.
  apply (split_sizes Sklearn.reversing_gen 35 (balanced_labels 5) (Some 42%Z) tt
           (fst split_35) (snd split_35)).
  - exact reversing_gen_ok.
  - vm_compute. reflexivity.
Defined.

(** X18: whenever the split returns, it is stratified: for every class of
    the label array, the training and the validation array together hold
    all of the class's samples, and the training array holds the class's
    proportional share count * |train| / n, rounded down or one more. *)
Theorem split_keeps_class_shares (G : Sklearn.RandomGen) (n : nat) (test_size : Q)
    (y : list Z) (random_state : option Z) (global : Sklearn.rng G)
    (train val : list nat) (c : Z) :
  Sklearn.RandomGen_ok G ->
  fst (Sklearn.train_test_split G n test_size y random_state global) = Py.Ok (train, val) ->
  In c y ->
  Sklearn.count_eq (labels_at y train) c + Sklearn.count_eq (labels_at y val) c
  = Sklearn.count_eq y c
  /\ Sklearn.count_eq y c * List.length train / n <= Sklearn.count_eq (labels_at y train) c
  /\ Sklearn.count_eq (labels_at y train) c
     <= Sklearn.count_eq y c * List.length train / n + 1.
Proof.
  intros Gok E Hc.
  destruct (StratifyFacts.train_test_split_returns G n test_size y random_state global
              train val Gok E) as [_ [_ [_ [_ [_ [_ H]]]]]].
  destruct (H c Hc) as [_ H']. exact H'.
Qed.

Lemma split_keeps_class_shares_witness :
  Sklearn.count_eq (labels_at (balanced_labels 5) (fst split_35)) 3
  + Sklearn.count_eq (labels_at (balanced_labels 5) (snd split_35)) 3
  = Sklearn.count_eq (balanced_labels 5) 3
  /\ Sklearn.count_eq (balanced_labels 5) 3 * List.length (fst split_35) / 35
     <= Sklearn.count_eq (labels_at (balanced_labels 5) (fst split_35)) 3
  /\ Sklearn.count_eq (labels_at (balanced_labels 5) (fst split_35)) 3
     <= Sklearn.count_eq (balanced_labels 5) 3 * List.length (fst split_35) / 35 + 1.
Proof.
  apply (split_keeps_class_shares Sklearn.reversing_gen 35 (1 # 5) (balanced_labels 5)
           (Some 42%Z) tt (fst split_35) (snd split_35) 3).
  - exact reversing_gen_ok.
  - vm_compute. reflexivity.
  - vm_compute. tauto.
Defined.

(** ** The script: the split of the dataset *)

Lemma count_eq_positive (l : list Z) (c : Z) :
  0 < Sklearn.count_eq l c -> In c l.
Proof.
  unfold Sklearn.count_eq. intros H.
  destruct (filter (fun z => (z =? c)%Z) l) as [|z t] eqn:E; [cbn in H; lia|].
  assert (Hz : In z (filter (fun z => (z =? c)%Z) l)) by (rewrite E; now left).
  apply filter_In in Hz. destruct Hz as [Hz Hc]. apply Z.eqb_eq in Hc. now subst.
Qed.

Lemma list_getitem_nat {A} (l : list A) (j : nat) (d : A) :
  j < List.length l -> Py.list_getitem l (Z.of_nat j) = Py.Ok (nth j l d).
Proof.
  intros Hj. destruct (getitem_in_range l (Z.of_nat j) ltac:(lia)) as [a [E Hn]].
  rewrite Nat2Z.id in Hn. rewrite E. f_equal. symmetry. now apply nth_error_nth.
Qed.

(** The script's split, for any dataset whose two lists have one length. *)
Lemma split_of_dataset (G : Sklearn.RandomGen) (dataset : HyperspectralDataset)
    (global : Sklearn.rng G) (train val : list nat) :
  Sklearn.RandomGen_ok G ->
  List.length (file_paths dataset) = List.length (labels dataset) ->
  fst (Sklearn.train_test_split G (HyperspectralDataset_len dataset) (1 # 5)
         (labels dataset) (Some 42%Z) global)
  = Py.Ok (train, val) ->
  List.length val = (HyperspectralDataset_len dataset + 4) / 5
  /\ List.length train
     = HyperspectralDataset_len dataset - (HyperspectralDataset_len dataset + 4) / 5
  /\ (forall j, In j train \/ In j val ->
        Py.returns (Py.list_getitem (file_paths dataset) (Z.of_nat j))
        /\ Py.returns (Py.list_getitem (labels dataset) (Z.of_nat j)))
  /\ (forall c, In c (labels dataset) ->
        exists j, In j train /\ Py.list_getitem (labels dataset) (Z.of_nat j) = Py.Ok c).
Proof.
  destruct dataset as [d paths y]. unfold HyperspectralDataset_len.
  cbn [file_paths labels]. intros Gok Hlen E.
  remember (List.length paths) as n eqn:En.
  destruct (StratifyFacts.train_test_split_returns G n (1 # 5) y
              (Some 42%Z) global train val Gok E) as [H1 [H2 [H3 [H4 [H5 [H6 H7]]]]]].
  rewrite SplitFacts.n_test_fifth in H2.
  assert (Hrange : forall j, In j train \/ In j val -> j < n).
  { intros j Hj. apply in_or_app in Hj. apply (Permutation_in j H6) in Hj.
    apply in_seq in Hj. lia. }
  split; [exact H2|]. split; [lia|]. split.
  - intros j Hj. apply Hrange in Hj. split.
    + rewrite (list_getitem_nat paths j EmptyString) by lia. exact I.
    + rewrite (list_getitem_nat y j 0%Z) by lia. exact I.
  - intros c Hc. destruct (H7 c Hc) as [K2 [K3 [K4 K5]]].
    assert (Hn : 2 <= n).
    { pose proof (filter_length_le (fun z => (z =? c)%Z) y) as Hb.
      unfold Sklearn.count_eq in K2. lia. }
    pose proof (SplitFacts.fifth_bounds n Hn) as [_ Hhalf].
    assert (Hpos : 0 < Sklearn.count_eq (labels_at y train) c).
    { apply Nat.lt_le_trans with (Sklearn.count_eq y c * List.length train / n);
        [|exact K4].
      apply Nat.div_str_pos. split; [lia|]. rewrite H3, H2. nia. }
    apply count_eq_positive in Hpos. unfold labels_at in Hpos.
    apply in_map_iff in Hpos. destruct Hpos as [j [Hjc Hj]].
    exists j. split; [exact Hj|].
    rewrite (list_getitem_nat y j 0%Z); [now rewrite Hjc|].
    specialize (Hrange j (or_introl Hj)). lia.
Qed.

(** X19: when the script's split returns, the validation array holds
    ceil(len(dataset) / 5) indices and the training array the others; every
    index of either array addresses a file path and a label of the dataset;
    and every class that has a sample in the dataset has one in the training
    array. *)
Theorem script_split_is_usable (env : Env) (G : Sklearn.RandomGen) (dir : string)
    (global : Sklearn.rng G) (train val : list nat) :
  Sklearn.RandomGen_ok G ->
  fst (script env G dir global) = Py.Ok (train, val) ->
  let dataset := HyperspectralDataset_init env dir in
  let n := HyperspectralDataset_len dataset in
  List.length val = (n + 4) / 5
  /\ List.length train = n - (n + 4) / 5
  /\ (forall j, In j train \/ In j val ->
        Py.returns (Py.list_getitem (file_paths dataset) (Z.of_nat j))
        /\ Py.returns (Py.list_getitem (labels dataset) (Z.of_nat j)))
  /\ (forall c, In c (labels dataset) ->
        exists j, In j train /\ Py.list_getitem (labels dataset) (Z.of_nat j) = Py.Ok c).
Proof.
  intros Gok E. cbv zeta.
  apply (split_of_dataset G (HyperspectralDataset_init env dir) global train val Gok
           (init_lengths env dir)).
  revert E. unfold script.
  destruct (Nat.eqb (HyperspectralDataset_len (HyperspectralDataset_init env dir)) 0);
    [discriminate|].
  exact (fun E => E).
Qed.

Lemma script_split_is_usable_witness :
  let dataset := HyperspectralDataset_init full_env "data" in
  let n := HyperspectralDataset_len dataset in
  List.length (snd full_split) = (n + 4) / 5
  /\ List.length (fst full_split) = n - (n + 4) / 5
  /\ (forall j, In j (fst full_split) \/ In j (snd full_split) ->
        Py.returns (Py.list_getitem (file_paths dataset) (Z.of_nat j))
        /\ Py.returns (Py.list_getitem (labels dataset) (Z.of_nat j)))
  /\ (forall c, In c (labels dataset) ->
        exists j, In j (fst full_split)
                  /\ Py.list_getitem (labels dataset) (Z.of_nat j) = Py.Ok c).
Proof.
  apply (script_split_is_usable full_env Sklearn.reversing_gen "data" tt
           (fst full_split) (snd full_split)).
  - exact reversing_gen_ok.
  - vm_compute. reflexivity.
Defined.

(** ** The loader: whole samples of the nominal size *)

Lemma float32_canonical (v : Torch.scalar) (q : Q) :
  Torch.float32 v = Torch.Fin q -> Qred q = q.
Proof.
  intros E. apply float32_rounded in E. apply FloatFacts.round32_Fin_iff in E.
  destruct E as [K [_ [_ E]]]. rewrite E at 2.
  apply Qred_complete. rewrite E at 1. apply Qred_correct.
Qed.

Lemma fold_min2_finite (l : list Torch.scalar) (a : Torch.scalar) :
  (forall s, In s (a :: l) -> Torch.is_finite s = true) ->
  exists m, fold_left Torch.min2 l a = Torch.Fin m.
Proof.
  revert a. induction l as [|b l IH]; intros a H; cbn [fold_left].
  - destruct (is_finite_Fin a (H a (or_introl eq_refl))) as [m ->]. eauto.
  - apply IH. intros s [<-|Hs]; [|apply H; right; right; exact Hs].
    destruct (is_finite_Fin a (H a (or_introl eq_refl))) as [x ->].
    destruct (is_finite_Fin b (H b (or_intror (or_introl eq_refl)))) as [y ->].
    cbn [Torch.min2]. now destruct (Torch.lt (Torch.Fin y) (Torch.Fin x)).
Qed.

Lemma fold_max2_finite (l : list Torch.scalar) (a : Torch.scalar) :
  (forall s, In s (a :: l) -> Torch.is_finite s = true) ->
  exists m, fold_left Torch.max2 l a = Torch.Fin m.
Proof.
  revert a. induction l as [|b l IH]; intros a H; cbn [fold_left].
  - destruct (is_finite_Fin a (H a (or_introl eq_refl))) as [m ->]. eauto.
  - apply IH. intros s [<-|Hs]; [|apply H; right; right; exact Hs].
    destruct (is_finite_Fin a (H a (or_introl eq_refl))) as [x ->].
    destruct (is_finite_Fin b (H b (or_intror (or_introl eq_refl)))) as [y ->].
    cbn [Torch.max2]. now destruct (Torch.lt (Torch.Fin x) (Torch.Fin y)).
Qed.

Lemma elements_in_range {A} (x : Tensor.t A) (s : A) :
  In s (Tensor.elements x) ->
  exists i, Tensor.in_range (Tensor.shape x) i /\ Tensor.get x i = s.
Proof.
  unfold Tensor.elements, Tensor.in_range. intros H. apply in_map_iff in H.
  destruct H as [i [E Hi]]. eauto.
Qed.

(** Two tensors that hold the same float32 values, in whatever order, have
    the same extremes. *)
Lemma extremes_of_rearranged (x x' : Tensor.t Torch.scalar) (lo hi : Q) :
  Tensor.elements x <> [] ->
  (forall i, Tensor.in_range (Tensor.shape x) i ->
     exists i', Tensor.in_range (Tensor.shape x') i' /\ Tensor.get x i = Tensor.get x' i') ->
  (forall i', Tensor.in_range (Tensor.shape x') i' ->
     exists i, Tensor.in_range (Tensor.shape x) i /\ Tensor.get x i = Tensor.get x' i') ->
  (forall i' q, Tensor.in_range (Tensor.shape x') i' -> Tensor.get x' i' = Torch.Fin q ->
     Qred q = q) ->
  Torch.min x' = Py.Ok (Torch.Fin lo) -> Torch.max x' = Py.Ok (Torch.Fin hi) ->
  Torch.min x = Py.Ok (Torch.Fin lo) /\ Torch.max x = Py.Ok (Torch.Fin hi).
Proof.
  intros Hne H1 H2 Hcan Hlo Hhi.
  assert (Hfin : forall s, In s (Tensor.elements x) -> Torch.is_finite s = true).
  { intros s Hs. apply elements_in_range in Hs. destruct Hs as [i [Hi <-]].
    destruct (H1 i Hi) as [i' [Hi' ->]].
    destruct (extremes_finite x' lo hi i' Hlo Hhi Hi') as [v [-> _]]. reflexivity. }
  assert (Hcan' : forall i q, Tensor.in_range (Tensor.shape x) i ->
            Tensor.get x i = Torch.Fin q -> Qred q = q).
  { intros i q Hi E. destruct (H1 i Hi) as [i' [Hi' E']]. rewrite E' in E.
    exact (Hcan i' q Hi' E). }
  destruct (min_attained x' lo Hlo) as [jl [Hjl Ejl]].
  destruct (max_attained x' hi Hhi) as [jh [Hjh Ejh]].
  split.
  - assert (Hm : exists m, Torch.min x = Py.Ok (Torch.Fin m)).
    { unfold Torch.min. destruct (Tensor.elements x) as [|a l]; [congruence|].
      destruct (fold_min2_finite l a Hfin) as [m ->]. eauto. }
    destruct Hm as [m Hm]. rewrite Hm. do 2 f_equal.
    destruct (min_attained x m Hm) as [i [Hi Ei]].
    rewrite <- (Hcan' i m Hi Ei), <- (Hcan jl lo Hjl Ejl). apply Qred_complete.
    apply Qle_antisym.
    + destruct (H2 jl Hjl) as [k [Hk Ek]]. rewrite Ejl in Ek.
      pose proof (min_is_lower_bound x m k Hm Hk) as B. now rewrite Ek in B.
    + destruct (H1 i Hi) as [k' [Hk' Ek']]. rewrite Ei in Ek'.
      pose proof (min_is_lower_bound x' lo k' Hlo Hk') as B. now rewrite <- Ek' in B.
  - assert (Hm : exists m, Torch.max x = Py.Ok (Torch.Fin m)).
    { unfold Torch.max. destruct (Tensor.elements x) as [|a l]; [congruence|].
      destruct (fold_max2_finite l a Hfin) as [m ->]. eauto. }
    destruct Hm as [m Hm]. rewrite Hm. do 2 f_equal.
    destruct (max_attained x m Hm) as [i [Hi Ei]].
    rewrite <- (Hcan' i m Hi Ei), <- (Hcan jh hi Hjh Ejh). apply Qred_complete.
    apply Qle_antisym.
    + destruct (H1 i Hi) as [k' [Hk' Ek']]. rewrite Ei in Ek'.
      pose proof (max_is_upper_bound x' hi k' Hhi Hk') as B. now rewrite <- Ek' in B.
    + destruct (H2 jh Hjh) as [k [Hk Ek]]. rewrite Ejh in Ek.
      pose proof (max_is_upper_bound x m k Hm Hk) as B. now rewrite Ek in B.
Qed.

(** The resized cube of a 32 x 32 sample with finite extremes: the converted
    array with the bands first, and the same extremes. *)
Lemma resize_nominal (raw : Tensor.t Torch.scalar) (C : nat) (lo hi : Q) :
  Tensor.shape raw = [32; 32; C] -> 0 < C ->
  Torch.min (Tensor.map_elts Torch.float32 raw) = Py.Ok (Torch.Fin lo) ->
  Torch.max (Tensor.map_elts Torch.float32 raw) = Py.Ok (Torch.Fin hi) ->
  exists cube,
    resize raw = Py.Ok cube
    /\ Tensor.shape cube = [C; 32; 32]
    /\ (forall c y z, c < C -> y < 32 -> z < 32 ->
          Tensor.get cube [c; y; z] = Torch.float32 (Tensor.get raw [y; z; c]))
    /\ Torch.min cube = Py.Ok (Torch.Fin lo)
    /\ Torch.max cube = Py.Ok (Torch.Fin hi).
Proof.
  intros Hs HC Hlo Hhi.
  destruct (resize_same_size raw C Hs HC) as [cube [Hcube [Hshape Hsame]]].
  set (conv := Tensor.map_elts Torch.float32 raw) in *.
  assert (Hconv : forall c y z, c < C -> y < 32 -> z < 32 ->
            exists v, Torch.float32 (Tensor.get raw [y; z; c]) = Torch.Fin v).
  { intros c y z Hc Hy Hz.
    destruct (extremes_finite conv lo hi [y; z; c] Hlo Hhi) as [v [E _]].
    - unfold conv. cbn [Tensor.map_elts Tensor.shape]. rewrite Hs.
      apply in_range_3. lia.
    - exists v. exact E. }
  assert (Hget : forall c y z, c < C -> y < 32 -> z < 32 ->
            Tensor.get cube [c; y; z] = Torch.float32 (Tensor.get raw [y; z; c])).
  { intros c y z Hc Hy Hz. apply Hsame.
    destruct (Hconv c y z Hc Hy Hz) as [v ->]. reflexivity. }
  exists cube. split; [exact Hcube|]. split; [exact Hshape|]. split; [exact Hget|].
  apply (extremes_of_rearranged cube conv lo hi).
  - unfold Tensor.elements. rewrite Hshape. destruct C; [lia|]. discriminate.
  - intros i Hi. rewrite Hshape in Hi. apply in_range_3_inv in Hi.
    destruct Hi as [c [y [z [-> [Hc [Hy Hz]]]]]]. exists [y; z; c]. split.
    + unfold conv. cbn [Tensor.map_elts Tensor.shape]. rewrite Hs.
      apply in_range_3. lia.
    + now apply Hget.
  - intros i' Hi'. unfold conv in Hi'. cbn [Tensor.map_elts Tensor.shape] in Hi'.
    rewrite Hs in Hi'. apply in_range_3_inv in Hi'.
    destruct Hi' as [y [z [c [-> [Hy [Hz Hc]]]]]]. exists [c; y; z]. split.
    + rewrite Hshape. apply in_range_3. lia.
    + now apply Hget.
  - intros i' q _ E. exact (float32_canonical _ q E).
  - exact Hlo.
  - exact Hhi.
Qed.

(** X15: a sample that is already 32 x 32 and holds one finite value
    everywhere comes back from [__getitem__] without an exception, as a
    tensor of shape (C, 32, 32) in which every element is NaN. *)
Theorem getitem_constant_sample (env : Env) (dir : string) (idx : Z) (path : string)
    (raw : Tensor.t Torch.scalar) (C : nat) (v : Q) :
  let self := HyperspectralDataset_init env dir in
  Py.list_getitem (file_paths self) idx = Py.Ok path ->
  np_load env path = Py.Ok raw ->
  Tensor.shape raw = [32; 32; C] -> 0 < C ->
  (forall i, Tensor.in_range [32; 32; C] i -> Tensor.get raw i = Torch.Fin v) ->
  Torch.is_finite (Torch.round32 v) = true ->
  exists out label,
    HyperspectralDataset_getitem env self idx = Py.Ok (out, label)
    /\ Tensor.shape out = [C; 32; 32]
    /\ forall i, Tensor.in_range [C; 32; 32] i -> Tensor.get out i = Torch.NaN.
Proof.
  intros self Hpath Hload Hs HC Hconst Hfin.
  destruct (is_finite_Fin _ Hfin) as [w Ew].
  set (conv := Tensor.map_elts Torch.float32 raw).
  assert (Hall : forall s, In s (Tensor.elements conv) -> s = Torch.Fin w).
  { intros s Hs'. apply elements_in_range in Hs'. destruct Hs' as [i [Hi <-]].
    unfold conv in *. cbn [Tensor.map_elts Tensor.shape Tensor.get] in *.
    rewrite Hs in Hi. rewrite (Hconst i Hi). exact Ew. }
  assert (Hne : Tensor.elements conv <> []).
  { unfold Tensor.elements, conv. cbn [Tensor.map_elts Tensor.shape]. rewrite Hs.
    destruct C; [lia|]. discriminate. }
  assert (Hfold : forall (f : Torch.scalar -> Torch.scalar -> Torch.scalar) l,
            f (Torch.Fin w) (Torch.Fin w) = Torch.Fin w ->
            (forall s, In s l -> s = Torch.Fin w) ->
            fold_left f l (Torch.Fin w) = Torch.Fin w).
  { intros f l Hf. induction l as [|b l IH]; intros Hl; [reflexivity|].
    cbn [fold_left]. rewrite (Hl b (or_introl eq_refl)), Hf.
    apply IH. intros s Hs'. apply Hl. now right. }
  assert (Hww : Torch.lt (Torch.Fin w) (Torch.Fin w) = false).
  { apply lt_Fin_false. apply Qle_refl. }
  assert (Hlo : Torch.min conv = Py.Ok (Torch.Fin w)).
  { unfold Torch.min. destruct (Tensor.elements conv) as [|a l]; [congruence|].
    rewrite (Hall a (or_introl eq_refl)). f_equal. apply Hfold.
    - cbn [Torch.min2]. now rewrite Hww.
    - intros s Hs'. apply Hall. now right. }
  assert (Hhi : Torch.max conv = Py.Ok (Torch.Fin w)).
  { unfold Torch.max. destruct (Tensor.elements conv) as [|a l]; [congruence|].
    rewrite (Hall a (or_introl eq_refl)). f_equal. apply Hfold.
    - cbn [Torch.max2]. now rewrite Hww.
    - intros s Hs'. apply Hall. now right. }
  destruct (resize_nominal raw C w w Hs HC Hlo Hhi)
    as [cube [Hcube [Hshape [_ [Hclo Hchi]]]]].
  destruct (list_getitem_same_length (file_paths self) (labels self) idx path)
    as [label Hlabel]; [apply init_lengths|exact Hpath|].
  exists (Tensor.map_elts
            (fun s => Torch.div (Torch.sub s (Torch.Fin w))
                        (Torch.sub (Torch.Fin w) (Torch.Fin w))) cube), label.
  split; [|split].
  - unfold HyperspectralDataset_getitem. rewrite Hpath. cbn [Py.bind].
    rewrite Hload. cbn [Py.bind]. rewrite Hcube. cbn [Py.bind].
    rewrite (normalize_unfold cube _ _ Hclo Hchi). cbn [Py.bind].
    fold self. rewrite Hlabel. reflexivity.
  - exact Hshape.
  - intros i Hi. cbn [Tensor.map_elts Tensor.get].
    apply (quotients_nan cube w w i Hclo Hchi (Qeq_refl w)). now rewrite Hshape.
Qed.

Lemma getitem_constant_sample_witness :
  exists out label,
    HyperspectralDataset_getitem flat_env (HyperspectralDataset_init flat_env "data") 0
    = Py.Ok (out, label)
    /\ Tensor.shape out = [1; 32; 32]
    /\ forall i, Tensor.in_range [1; 32; 32] i -> Tensor.get out i = Torch.NaN.
Proof.
  apply (getitem_constant_sample flat_env "data" 0 "data/canola_1.npy"
           (Tensor.mk [32; 32; 1] (fun _ => Torch.Fin (1 # 10))) 1 (1 # 10));
    try reflexivity; try lia.
Defined.

(** X20: on a sample that is already 32 x 32, whose values are finite
    float32 numbers after the conversion, not all equal, and whose
    difference max - min does not overflow, [__getitem__] is min-max scaling
    in float32 and nothing else: it returns a tensor of shape (C, 32, 32)
    whose value at band c, row y, column z is
    (x[y, z, c] - min(x)) / (max(x) - min(x)) for the converted array x, a
    number in [0, 1], with the entry's label. *)
Theorem getitem_32_by_32 (env : Env) (dir : string) (idx : Z) (path : string)
    (raw : Tensor.t Torch.scalar) (C : nat) (lo hi : Q) :
  let self := HyperspectralDataset_init env dir in
  Py.list_getitem (file_paths self) idx = Py.Ok path ->
  np_load env path = Py.Ok raw ->
  Tensor.shape raw = [32; 32; C] -> 0 < C ->
  Torch.min (Tensor.map_elts Torch.float32 raw) = Py.Ok (Torch.Fin lo) ->
  Torch.max (Tensor.map_elts Torch.float32 raw) = Py.Ok (Torch.Fin hi) ->
  ~ (hi == lo)%Q ->
  Torch.sub (Torch.Fin hi) (Torch.Fin lo) <> Torch.PosInf ->
  exists out label,
    HyperspectralDataset_getitem env self idx = Py.Ok (out, label)
    /\ Tensor.shape out = [C; 32; 32]
    /\ Py.list_getitem (labels self) idx = Py.Ok label
    /\ forall c y z, c < C -> y < 32 -> z < 32 ->
         Tensor.get out [c; y; z]
         = Torch.div (Torch.sub (Torch.float32 (Tensor.get raw [y; z; c])) (Torch.Fin lo))
             (Torch.sub (Torch.Fin hi) (Torch.Fin lo))
         /\ Torch.in_unit_interval (Tensor.get out [c; y; z]).
Proof.
  intros self Hpath Hload Hs HC Hlo Hhi Hne Hfin.
  destruct (resize_nominal raw C lo hi Hs HC Hlo Hhi)
    as [cube [Hcube [Hshape [Hget [Hclo Hchi]]]]].
  destruct (list_getitem_same_length (file_paths self) (labels self) idx path)
    as [label Hlabel]; [apply init_lengths|exact Hpath|].
  destruct (min_attained _ lo Hlo) as [il [Hil El]].
  destruct (max_attained _ hi Hhi) as [ih [Hih Eh]].
  cbn [Tensor.map_elts Tensor.get] in El, Eh.
  assert (Hle : (lo <= hi)%Q).
  { destruct (extremes_finite _ lo hi il Hlo Hhi Hil) as [v [E [A B]]].
    cbn [Tensor.map_elts Tensor.get] in E. rewrite El in E. inversion E; subst v. exact B. }
  assert (Hd : exists d, Torch.sub (Torch.Fin hi) (Torch.Fin lo) = Torch.Fin d /\ (0 < d)%Q).
  { destruct (FloatFacts.round32_cases (hi - lo)) as [O|[d E]].
    - exfalso. apply Hfin. rewrite sub_Fin, O. unfold Torch.overflow.
      replace (Qle_bool 0 (hi - lo)) with true; [reflexivity|].
      symmetry. apply Qle_bool_iff. lra.
    - exists d. rewrite sub_Fin. split; [exact E|].
      apply (float32_difference hi lo d).
      + exact (float32_rounded _ hi Eh).
      + exact (float32_rounded _ lo El).
      + exact Hle.
      + exact Hne.
      + now rewrite sub_Fin. }
  destruct Hd as [d [Ed Hd]].
  exists (Tensor.map_elts
            (fun v => Torch.div (Torch.sub v (Torch.Fin lo))
                        (Torch.sub (Torch.Fin hi) (Torch.Fin lo))) cube), label.
  split; [|split; [exact Hshape|split; [exact Hlabel|]]].
  - unfold HyperspectralDataset_getitem. rewrite Hpath. cbn [Py.bind].
    rewrite Hload. cbn [Py.bind]. rewrite Hcube. cbn [Py.bind].
    rewrite (normalize_unfold cube _ _ Hclo Hchi). cbn [Py.bind].
    fold self. rewrite Hlabel. reflexivity.
  - intros c y z Hc Hy Hz. cbn [Tensor.map_elts Tensor.get].
    rewrite (Hget c y z Hc Hy Hz). split; [reflexivity|].
    destruct (extremes_finite _ lo hi [y; z; c] Hlo Hhi) as [v [E [A B]]].
    { cbn [Tensor.map_elts Tensor.shape]. rewrite Hs. apply in_range_3. lia. }
    cbn [Tensor.map_elts Tensor.get] in E. rewrite E, Ed.
    destruct (normalized_fraction v v lo hi d A (Qle_refl v) B Ed Hd)
      as [p [q [Ep [_ [Hp [Hpq Hq]]]]]].
    rewrite Ep. cbn. split; [exact Hp|]. eapply Qle_trans; eassumption.
Qed.

Lemma getitem_32_by_32_witness :
  exists out label,
    HyperspectralDataset_getitem square_env (HyperspectralDataset_init square_env "data") 0
    = Py.Ok (out, label)
    /\ Tensor.shape out = [2; 32; 32]
    /\ Py.list_getitem (labels (HyperspectralDataset_init square_env "data")) 0
       = Py.Ok label
    /\ forall c y z, c < 2 -> y < 32 -> z < 32 ->
         Tensor.get out [c; y; z]
         = Torch.div
             (Torch.sub (Torch.float32 (Tensor.get square_sample [y; z; c])) (Torch.Fin 0))
             (Torch.sub (Torch.Fin 2047) (Torch.Fin 0))
         /\ Torch.in_unit_interval (Tensor.get out [c; y; z]).
Proof.
  apply (getitem_32_by_32 square_env "data" 0 "data/soybean_7.npy" square_sample 2 0 2047).
  - vm_compute. reflexivity.
  - reflexivity.
  - reflexivity.
  - lia.
  - vm_compute. reflexivity.
  - vm_compute. reflexivity.
  - discriminate.
  - vm_compute. discriminate.
Defined.

(** ** The script: when the split is drawn *)

Lemma split_returns_iff (G : Sklearn.RandomGen) (dataset : HyperspectralDataset)
    (global : Sklearn.rng G) :
  Sklearn.RandomGen_ok G ->
  List.length (file_paths dataset) = List.length (labels dataset) ->
  Py.returns
    (fst (if Nat.eqb (HyperspectralDataset_len dataset) 0
          then (Py.Raise (Py.ValueError empty_dataset_message), global)
          else Sklearn.train_test_split G (HyperspectralDataset_len dataset) (1 # 5)
                 (labels dataset) (Some 42%Z) global))
  <-> (labels dataset <> []
       /\ (forall c, In c (labels dataset) -> 2 <= Sklearn.count_eq (labels dataset) c)
       /\ List.length (Sklearn.unique (labels dataset))
          <= (List.length (labels dataset) + 4) / 5).
Proof.
  destruct dataset as [d paths y]. unfold HyperspectralDataset_len.
  cbn [file_paths labels]. intros Gok Hlen. rewrite Hlen. clear Hlen paths d.
  split.
  - destruct (Nat.eqb (List.length y) 0) eqn:E0; [intros []|].
    apply Nat.eqb_neq in E0.
    unfold Sklearn.train_test_split.
    destruct (Sklearn.validate_shuffle_split (List.length y) (1 # 5))
      as [[n_train n_test]|e] eqn:Ev; [|intros []].
    apply StratifyFacts.validate_shuffle_split_returns in Ev.
    destruct Ev as [Ht [Hn Hne]]. rewrite SplitFacts.n_test_fifth in Ht.
    rewrite Nat.eqb_refl. cbn [negb].
    destruct (Sklearn.stratified_shuffle_split G n_train n_test y
                (Sklearn.check_random_state G (Some 42%Z) global))
      as [[[tr te] r']|e] eqn:Es; [|intros []].
    intros _.
    destruct (StratifyFacts.stratified_shuffle_split_checked G n_train n_test y _ _ Es)
      as [C1 [C2 [C3 [C4 [C5 C6]]]]].
    split; [|split].
    + intros ->. apply E0. reflexivity.
    + exact C4.
    + now rewrite <- Ht.
  - intros [Hne [Hcount Hk]].
    assert (Hn : 2 <= List.length y).
    { destruct y as [|c y']; [congruence|].
      specialize (Hcount c (or_introl eq_refl)).
      pose proof (filter_length_le (fun z => (z =? c)%Z) (c :: y')) as Hb.
      unfold Sklearn.count_eq in Hcount. lia. }
    destruct (Nat.eqb (List.length y) 0) eqn:E0; [apply Nat.eqb_eq in E0; lia|].
    destruct (SplitFacts.validate_fifth (List.length y) Hn) as [Hv [Hb1 Hb2]].
    unfold Sklearn.train_test_split. rewrite Hv, Nat.eqb_refl. cbn [negb].
    destruct (SplitFacts.stratified_shuffle_split_perm G Gok y
                (List.length y - (List.length y + 4) / 5) ((List.length y + 4) / 5)
                (Sklearn.check_random_state G (Some 42%Z) global))
      as [train [test [r' [E _]]]]; try lia; try assumption.
    rewrite E. exact I.
Qed.

(** X21: the script gets past the guard and the split exactly when the
    dataset is not empty, every class that occurs in it has at least two
    samples, and the number of classes that occur is at most
    ceil(len(dataset) / 5). *)
Theorem script_split_returns_iff (env : Env) (G : Sklearn.RandomGen) (dir : string)
    (global : Sklearn.rng G) :
  Sklearn.RandomGen_ok G ->
  Py.returns (fst (script env G dir global))
  <-> (labels (HyperspectralDataset_init env dir) <> []
       /\ (forall c, In c (labels (HyperspectralDataset_init env dir)) ->
             2 <= Sklearn.count_eq (labels (HyperspectralDataset_init env dir)) c)
       /\ List.length (Sklearn.unique (labels (HyperspectralDataset_init env dir)))
          <= (List.length (labels (HyperspectralDataset_init env dir)) + 4) / 5).
Proof.
  intros Gok.
  exact (split_returns_iff G (HyperspectralDataset_init env dir) global Gok
           (init_lengths env dir)).
Qed.

Lemma script_split_returns_iff_witness :
  Py.returns (fst (script full_env Sklearn.reversing_gen "data" tt))
  <-> (labels (HyperspectralDataset_init full_env "data") <> []
       /\ (forall c, In c (labels (HyperspectralDataset_init full_env "data")) ->
             2 <= Sklearn.count_eq (labels (HyperspectralDataset_init full_env "data")) c)
       /\ List.length (Sklearn.unique (labels (HyperspectralDataset_init full_env "data")))
          <= (List.length (labels (HyperspectralDataset_init full_env "data")) + 4) / 5).
Proof.
  apply (script_split_returns_iff full_env Sklearn.reversing_gen "data" tt).
  exact reversing_gen_ok.
Defined.
